(** * Tornado Cash Withdrawal Viewer: the aggregation core

    A shallow embedding of [tornado_viewer.py]: the paginated explorer
    client ([EtherscanAPI]), the per-pool analysis ([analyze_pool]), the
    cross-pool merge ([analyze_tornado_cash]) and the recipient rows of the
    two presenters ([format_output], [export_csv]).

    Conventions of the embedding.
    - Python [int] is [Z]; Python [float] is IEEE-754 binary64, taken from
      the standard library's [SpecFloat] with [prec = 53], [emax = 1024].
    - Python [str] is [string]; [str.lower] is modelled on ASCII letters
      (addresses are hexadecimal ASCII).
    - A [dict] keyed by strings is a [gmap string _]; the items of a
      [dict] in insertion order are a list of pairs where the order
      matters (sorting in the presenters).
    - Exceptions are values of [exn]; fallible code returns a [result].
    - The network is a [world]: the finite script of responses still to
      be received, and the log of the requests sent so far.  A request
      sent when the script is exhausted fails with [ConnectionError]. *)

From Stdlib Require Import ZArith Lia Bool Ascii String.
From Stdlib Require Import Floats.SpecFloat.
From stdpp Require Import base option list strings gmap sorting.

Open Scope Z_scope.

(** ** Exceptions and results *)

Inductive exn : Type :=
| ConnectionError            (* requests.get fails, or no response left *)
| HTTPError                  (* response.raise_for_status() *)
| EtherscanError             (* "Etherscan API error: ..." *)
| KeyError (key : string)    (* d[key] on a missing key *)
| ValueError                 (* int() of a malformed literal, datetime range *)
| TypeError                  (* int() of a list *)
| AttributeError             (* .lower() of a value that is not a str *)
| ZeroDivisionError
| OverflowError.             (* int / int too large for a float *)

Inductive result (A : Type) : Type :=
| Ok (a : A)
| Err (e : exn).
Arguments Ok {A} a.
Arguments Err {A} e.

Definition bind {A B : Type} (r : result A) (k : A -> result B) : result B :=
  match r with
  | Ok a => k a
  | Err e => Err e
  end.

Declare Scope result_scope.
Delimit Scope result_scope with result.
Notation "'let*' x ':=' c 'in' k" := (bind c (fun x => k))
  (at level 10, x name, c at level 100, k at level 200) : result_scope.
Notation "'let*' ' p ':=' c 'in' k" := (bind c (fun p => k))
  (at level 10, p strict pattern, c at level 100, k at level 200)
  : result_scope.
Open Scope result_scope.

(** ** Strings *)

Definition lower_ascii (c : ascii) : ascii :=
  let n := N_of_ascii c in
  if ((65 <=? n) && (n <=? 90))%N then ascii_of_N (n + 32) else c.

(** [str.lower()] *)
Fixpoint lower (s : string) : string :=
  match s with
  | EmptyString => EmptyString
  | String c r => String (lower_ascii c) (lower r)
  end.

(** ** Floats: Python's [float] and the operations the program uses *)

Module Float.

Definition prec : Z := 53.
Definition emax : Z := 1024.

Abbreviation float := spec_float.

(** [0.0] *)
Definition zero : float := S754_zero false.

(** [x + y] on floats (round to nearest, ties to even; never raises). *)
Definition add (x y : float) : float := SFadd prec emax x y.

(** [x < y] *)
Definition ltb (x y : float) : bool := SFltb x y.

(** [a / b] on two ints: the correctly rounded quotient of the exact
    integers; [ZeroDivisionError] for [b = 0], [OverflowError] when the
    rounded quotient is not finite. *)
Definition int_true_divide (a b : Z) : result float :=
  if b =? 0 then Err ZeroDivisionError else
  let s := xorb (a <? 0) (b <? 0) in
  if a =? 0 then Ok (S754_zero s) else
  let '(q, e, l) := SFdiv_core_binary prec emax (Z.abs a) 0 (Z.abs b) 0 in
  match binary_round_aux prec emax s q e l with
  | S754_infinity _ => Err OverflowError
  | f => Ok f
  end.

(** A float that is strictly positive: finite with a representable
    exponent, or [inf]. *)
Definition is_positive (f : float) : Prop :=
  match f with
  | S754_finite false _ e => emin prec emax <= e
  | S754_infinity false => True
  | _ => False
  end.

(** [0.0] or strictly positive. *)
Definition is_nonneg (f : float) : Prop := f = zero \/ is_positive f.

End Float.

Abbreviation float := Float.float.

(** ** Dates

    [datetime.fromtimestamp(t)] for an int [t] returns a naive datetime
    in the local time of the process.  That object is a function of [t]
    and of the time zone; it is kept as the POSIX second it was made
    from.  What is read off it (its fields, and so the order of two
    datetimes) depends on the zone and is given by [wall_clock] and
    [datetime_leb] below; the rendering by [strftime] is not part of the
    model.  Outside years 1..9999 the call raises. *)

Record datetime : Type := { posix : Z }.

(** The time zone of the process: the UTC offset, in seconds, in force at
    each POSIX second. *)
Definition time_zone : Type := Z -> Z.

(** The year, month, day, hour, minute and second of [d] are those of
    this count of seconds on the local clock. *)
Definition wall_clock (tz : time_zone) (d : datetime) : Z :=
  posix d + tz (posix d).

(** [d1 <= d2] of two naive datetimes: the comparison of their fields. *)
Definition datetime_leb (tz : time_zone) (d1 d2 : datetime) : bool :=
  wall_clock tz d1 <=? wall_clock tz d2.

(** The local clock of the zone is never set back: it does not read less
    at a later second. *)
Definition never_set_back (tz : time_zone) : Prop :=
  forall s t : Z, s <= t -> s + tz s <= t + tz t.

Definition MIN_TIMESTAMP : Z := -62135596800.   (* 0001-01-01 00:00:00 *)
Definition MAX_TIMESTAMP : Z := 253402300799.   (* 9999-12-31 23:59:59 *)

Definition fromtimestamp (t : Z) : result datetime :=
  if (MIN_TIMESTAMP <=? t) && (t <=? MAX_TIMESTAMP)
  then Ok {| posix := t |}
  else Err ValueError.

(** [min(l)] and [max(l)] of a list of ints; [ValueError] on an empty
    list. *)
Definition py_min (l : list Z) : result Z :=
  match l with
  | [] => Err ValueError
  | x :: r => Ok (fold_left Z.min r x)
  end.

Definition py_max (l : list Z) : result Z :=
  match l with
  | [] => Err ValueError
  | x :: r => Ok (fold_left Z.max r x)
  end.

(** ** Configuration *)

Record pool_info : Type := {
  address : string;
  denomination : Z;
  name : string
}.

Definition TORNADO_CASH_POOLS : gmap string pool_info :=
  <["1_eth" := {| address := "0x47CE0C6eD5B0Ce3d3A51fdb1C52DC66a7c3c2936";
                  denomination := 1; name := "1 ETH" |}]>
  (<["10_eth" := {| address := "0x910Cbd523D972eb0a6f4cAe4618aD62622b39DbF";
                    denomination := 10; name := "10 ETH" |}]>
  (<["100_eth" := {| address := "0xA160cdAB225685dA1d56aa342Ad8841c3b53f291";
                     denomination := 100; name := "100 ETH" |}]> ∅)).

(** [list(TORNADO_CASH_POOLS.keys())], in insertion order. *)
Definition ALL_POOLS : list string := ["1_eth"; "10_eth"; "100_eth"].

(** ** The explorer API *)

(** A JSON value under ["from"] or ["to"]: the program calls [lower] on
    it, which only a string has, and tests ["to"] for truth. *)
Inductive json_field : Type :=
| JNull
| JText (s : string)
| JOther (truth : bool).
    (* a number, a boolean, a list or an object, with its truth value *)

(** [bool(v)] *)
Definition truth_of (v : json_field) : bool :=
  match v with
  | JNull => false
  | JText EmptyString => false
  | JText (String _ _) => true
  | JOther b => b
  end.

(** A transaction as the explorer returns it.  [tx_from] and [tx_to] are
    [None] when the key is absent.  [tx_value] and [tx_timeStamp] hold
    what [int(tx["value"])] and [int(tx["timeStamp"])] evaluate to, [None]
    when [int] raises [ValueError]; [tx_hash] is [None] when the key is
    absent. *)
Record raw_tx : Type := {
  tx_from : option json_field;
  tx_to : option json_field;
  tx_value : option Z;
  tx_timeStamp : option Z;
  tx_hash : option string
}.

(** [data["result"]]: a list of transactions, or another JSON value, kept
    as what [int()] makes of it. *)
Inductive payload : Type :=
| PList (txs : list raw_tx)
| PScalar (as_int : option Z).

Record api_data : Type := {
  status : string;
  message : string;
  api_result : payload
}.

(** What one HTTP GET brings back: an exception out of [requests.get],
    [raise_for_status] or [response.json], or the decoded body. *)
Inductive http_response : Type :=
| HttpFail (e : exn)
| HttpJson (data : api_data).

Inductive params : Type :=
| GetBlockNoByTime (timestamp : Z) (closest : string)
| TxList (action : string) (addr : string)
         (startblock endblock page offset : Z) (sort : string).

(** The request as sent: [params] with ["apikey"] and ["chainid"] added. *)
Record request : Type := {
  req_params : params;
  req_apikey : string;
  req_chainid : Z
}.

Record world : Type := {
  pending : list http_response;
  sent : list request
}.

Record EtherscanAPI : Type := {
  api_key : string;
  chain_id : Z
}.

(** [EtherscanAPI(api_key)] *)
Definition new_api (key : string) : EtherscanAPI :=
  {| api_key := key; chain_id := 1 |}.

Definition WEI_TO_ETH : Z := 10 ^ 18.

(** Stateful, fallible computations over the network. *)
Definition M (A : Type) : Type := world -> result A * world.

Definition ret {A : Type} (a : A) : M A := fun w => (Ok a, w).
Definition lift {A : Type} (r : result A) : M A := fun w => (r, w).
Definition mbind {A B : Type} (c : M A) (k : A -> M B) : M B :=
  fun w =>
    match c w with
    | (Ok a, w') => k a w'
    | (Err e, w') => (Err e, w')
    end.

Declare Scope m_scope.
Delimit Scope m_scope with M.
Notation "'do' x '<-' c ';' k" := (mbind c (fun x => k))
  (at level 10, x name, c at level 100, k at level 200) : m_scope.

(** The status check of [_make_request] on a decoded body. *)
Definition check_status (data : api_data) : result api_data :=
  if negb (String.eqb (status data) "1")
     && negb (String.eqb (message data) "No transactions found")
  then Err EtherscanError
  else Ok data.

(** [params] after [params["apikey"] = ...; params["chainid"] = ...]. *)
Definition request_of (api : EtherscanAPI) (p : params) : request :=
  {| req_params := p; req_apikey := api_key api; req_chainid := chain_id api |}.

Definition log_request (api : EtherscanAPI) (p : params) (w : world)
  : list request :=
  sent w ++ [request_of api p].

(** [EtherscanAPI._make_request] *)
Definition _make_request (api : EtherscanAPI) (p : params) : M api_data :=
  fun w =>
    match pending w with
    | [] => (Err ConnectionError, {| pending := []; sent := log_request api p w |})
    | r :: rest =>
        let w' := {| pending := rest; sent := log_request api p w |} in
        match r with
        | HttpFail e => (Err e, w')
        | HttpJson data => (check_status data, w')
        end
    end.

(** [int(data["result"])] *)
Definition int_of_payload (p : payload) : result Z :=
  match p with
  | PList _ => Err TypeError
  | PScalar (Some z) => Ok z
  | PScalar None => Err ValueError
  end.

(** [EtherscanAPI.get_block_by_timestamp] *)
Definition get_block_by_timestamp (api : EtherscanAPI) (timestamp : Z)
    (closest : string) : M Z :=
  (do data <- _make_request api (GetBlockNoByTime timestamp closest);
   lift (int_of_payload (api_result data)))%M.

Definition PAGE_SIZE : Z := 10000.

Definition page_params (action addr : string) (start_block end_block page : Z)
  : params :=
  TxList action addr start_block end_block page PAGE_SIZE "asc".

(** The [while True] loop of the two transaction getters (the same but
    for ["action"]), from the state [(page, all_txs)].  Every iteration
    consumes one response of the script, so the loop is structural in the
    script; [fetch_pages_unfold] below gives it as the source has it. *)
Fixpoint fetch_pages (api : EtherscanAPI) (action addr : string)
    (start_block end_block : Z) (page : Z) (all_txs : list raw_tx)
    (script : list http_response) (log : list request)
  : result (list raw_tx) * world :=
  let w := {| pending := script; sent := log |} in
  let p := page_params action addr start_block end_block page in
  match script with
  | [] => (Err ConnectionError, snd (_make_request api p w))
  | r :: rest =>
      match _make_request api p w with
      | (Err e, w') => (Err e, w')
      | (Ok data, w') =>
          match api_result data with
          | PList (tx :: txs) =>
              let all_txs := all_txs ++ tx :: txs in
              if Z.of_nat (length (tx :: txs)) <? PAGE_SIZE
              then (Ok all_txs, w')
              else fetch_pages api action addr start_block end_block
                     (page + 1) all_txs rest (sent w')
          | _ => (Ok all_txs, w')
          end
      end
  end.

Definition get_transactions (api : EtherscanAPI) (action addr : string)
    (start_block end_block : Z) : M (list raw_tx) :=
  fun w =>
    fetch_pages api action addr start_block end_block 1 [] (pending w) (sent w).

(** [EtherscanAPI.get_internal_transactions] *)
Definition get_internal_transactions (api : EtherscanAPI) (addr : string)
    (start_block end_block : Z) : M (list raw_tx) :=
  get_transactions api "txlistinternal" addr start_block end_block.

(** [EtherscanAPI.get_normal_transactions] *)
Definition get_normal_transactions (api : EtherscanAPI) (addr : string)
    (start_block end_block : Z) : M (list raw_tx) :=
  get_transactions api "txlist" addr start_block end_block.

(** ** Analysis of one pool *)

Inductive tx_type : Type := normal | internal.

(** The entry appended to ["transactions"]. *)
Record tx_detail : Type := {
  hash : string;
  value_wei : Z;
  timestamp : Z;
  type : tx_type
}.

(** The value of [recipients[to_addr]]. *)
Record pool_stat : Type := {
  count : Z;
  total_wei : Z;
  transactions : list tx_detail
}.

(** The [defaultdict] factory. *)
Definition default_stat : pool_stat :=
  {| count := 0; total_wei := 0; transactions := [] |}.

(** [int(tx[key])] *)
Definition int_field (v : option Z) : result Z :=
  match v with
  | Some z => Ok z
  | None => Err ValueError
  end.

(** [v.lower()] *)
Definition lower_of (v : json_field) : result string :=
  match v with
  | JText s => Ok (lower s)
  | JNull | JOther _ => Err AttributeError
  end.

(** [tx[key]] *)
Definition item (key : string) (v : option json_field) : result json_field :=
  match v with
  | Some x => Ok x
  | None => Err (KeyError key)
  end.

(** [tx["from"].lower()] *)
Definition from_lower (tx : raw_tx) : result string :=
  let* v := item "from" (tx_from tx) in
  lower_of v.

(** [tx["to"].lower() if tx["to"] else "contract_creation"] *)
Definition to_addr (tx : raw_tx) : result string :=
  let* v := item "to" (tx_to tx) in
  if truth_of v then lower_of v else Ok "contract_creation"%string.

(** [tx["hash"]] for a normal transaction, [tx.get("hash", "internal")]
    for an internal one. *)
Definition hash_field (kind : tx_type) (tx : raw_tx) : result string :=
  match kind, tx_hash tx with
  | _, Some h => Ok h
  | normal, None => Err (KeyError "hash")
  | internal, None => Ok "internal"
  end.

(** The body of the two [for tx in ...] loops of [analyze_pool];
    [pool_address] is already in lower case. *)
Definition process_tx (kind : tx_type) (pool_address : string)
    (recipients : gmap string pool_stat) (tx : raw_tx)
  : result (gmap string pool_stat) :=
  let* sender := from_lower tx in
  if String.eqb sender pool_address then
    let* value := int_field (tx_value tx) in
    if 0 <? value then
      let* to_addr := to_addr tx in
      let entry := default default_stat (recipients !! to_addr) in
      let* h := hash_field kind tx in
      let* ts := int_field (tx_timeStamp tx) in
      Ok (<[to_addr :=
             {| count := count entry + 1;
                total_wei := total_wei entry + value;
                transactions := transactions entry ++
                  [{| hash := h; value_wei := value; timestamp := ts;
                      type := kind |}] |}]> recipients)
    else Ok recipients
  else Ok recipients.

Fixpoint process_txs (kind : tx_type) (pool_address : string)
    (txs : list raw_tx) (recipients : gmap string pool_stat)
  : result (gmap string pool_stat) :=
  match txs with
  | [] => Ok recipients
  | tx :: rest =>
      let* recipients := process_tx kind pool_address recipients tx in
      process_txs kind pool_address rest recipients
  end.

(** [analyze_pool] *)
Definition analyze_pool (api : EtherscanAPI) (pool_address pool_name : string)
    (start_block end_block : Z) : M (gmap string pool_stat) :=
  let pool_address := lower pool_address in
  (do internal_txs <-
     get_internal_transactions api pool_address start_block end_block;
   do normal_txs <-
     get_normal_transactions api pool_address start_block end_block;
   lift (let* recipients := process_txs normal pool_address normal_txs ∅ in
         process_txs internal pool_address internal_txs recipients))%M.

(** ** Analysis of the selected pools and merge *)

(** The fields of a merged record that belong to one pool: for the pool
    ["1_eth"] these are ["1_eth_count"], ["1_eth_total"],
    ["1_eth_first_date"] and ["1_eth_last_date"]. *)
Record pool_fields : Type := {
  pf_count : Z;
  pf_total : float;
  pf_first_date : option datetime;
  pf_last_date : option datetime
}.

(** The value of [merged[address]]. *)
Record merged_record : Type := {
  m_1_eth : pool_fields;
  m_10_eth : pool_fields;
  m_100_eth : pool_fields;
  grand_total : float;
  first_date : option datetime;
  last_date : option datetime
}.

(** The fields of one pool as [merged[address]] is initialised. *)
Definition initial_fields : pool_fields :=
  {| pf_count := 0; pf_total := Float.zero;
     pf_first_date := None; pf_last_date := None |}.

(** The value [merged[address]] is initialised with. *)
Definition initial_record : merged_record :=
  {| m_1_eth := initial_fields; m_10_eth := initial_fields;
     m_100_eth := initial_fields; grand_total := Float.zero;
     first_date := None; last_date := None |}.

(** The conversion of block numbers at the head of
    [analyze_tornado_cash]; a date is given by [int(date.timestamp())]. *)
Definition resolve_blocks (api : EtherscanAPI) (start_date end_date : option Z)
  : M (Z * Z) :=
  (do start_block <-
     match start_date with
     | Some start_timestamp =>
         get_block_by_timestamp api start_timestamp "after"
     | None => ret 0
     end;
   do end_block <-
     match end_date with
     | Some end_timestamp =>
         get_block_by_timestamp api end_timestamp "before"
     | None => ret 99999999
     end;
   ret (start_block, end_block))%M.

(** The loop [for pool_key in selected_pools] with its [try]/[except]. *)
Fixpoint analyze_pools (api : EtherscanAPI) (selected_pools : list string)
    (start_block end_block : Z)
    (pool_results : gmap string (gmap string pool_stat)) (w : world)
  : gmap string (gmap string pool_stat) * world :=
  match selected_pools with
  | [] => (pool_results, w)
  | pool_key :: rest =>
      match TORNADO_CASH_POOLS !! pool_key with
      | None => analyze_pools api rest start_block end_block pool_results w
      | Some info =>
          match analyze_pool api (address info) (name info)
                  start_block end_block w with
          | (Ok results, w') =>
              analyze_pools api rest start_block end_block
                (<[pool_key := results]> pool_results) w'
          | (Err e, w') =>
              analyze_pools api rest start_block end_block
                (<[pool_key := ∅]> pool_results) w'
          end
      end
  end.

(** [pool_results.get(pool_key, {})] *)
Definition pool_get (pool_results : gmap string (gmap string pool_stat))
    (pool_key : string) : gmap string pool_stat :=
  default ∅ (pool_results !! pool_key).

Definition all_addresses (selected_pools : list string)
    (pool_results : gmap string (gmap string pool_stat)) : gset string :=
  foldl (fun acc pool_key => acc ∪ dom (pool_get pool_results pool_key))
        ∅ selected_pools.

(** One of the three blocks [# 1 ETH pool], [# 10 ETH pool],
    [# 100 ETH pool]: the fields of pool [key] and the timestamps it adds
    to [all_timestamps]. *)
Definition merge_pool (key : string) (selected_pools : list string)
    (pool_results : gmap string (gmap string pool_stat)) (addr : string)
  : result (pool_fields * list Z) :=
  if bool_decide (key ∈ selected_pools) then
    match pool_get pool_results key !! addr with
    | Some data =>
        let* total := Float.int_true_divide (total_wei data) WEI_TO_ETH in
        match transactions data with
        | [] =>
            Ok ({| pf_count := count data; pf_total := total;
                   pf_first_date := None; pf_last_date := None |}, [])
        | _ :: _ =>
            let timestamps := map timestamp (transactions data) in
            let* lo := py_min timestamps in
            let* first := fromtimestamp lo in
            let* hi := py_max timestamps in
            let* last := fromtimestamp hi in
            Ok ({| pf_count := count data; pf_total := total;
                   pf_first_date := Some first; pf_last_date := Some last |},
                timestamps)
        end
    | None => Ok (initial_fields, [])
    end
  else Ok (initial_fields, []).

(** The body of [for address in all_addresses]. *)
Definition merge_address (selected_pools : list string)
    (pool_results : gmap string (gmap string pool_stat)) (addr : string)
  : result merged_record :=
  let* '(f1, ts1) := merge_pool "1_eth" selected_pools pool_results addr in
  let* '(f10, ts10) := merge_pool "10_eth" selected_pools pool_results addr in
  let* '(f100, ts100) := merge_pool "100_eth" selected_pools pool_results addr in
  let all_timestamps := ts1 ++ ts10 ++ ts100 in
  let total := Float.add (Float.add (pf_total f1) (pf_total f10)) (pf_total f100) in
  match all_timestamps with
  | [] =>
      Ok {| m_1_eth := f1; m_10_eth := f10; m_100_eth := f100;
            grand_total := total; first_date := None; last_date := None |}
  | _ :: _ =>
      let* lo := py_min all_timestamps in
      let* first := fromtimestamp lo in
      let* hi := py_max all_timestamps in
      let* last := fromtimestamp hi in
      Ok {| m_1_eth := f1; m_10_eth := f10; m_100_eth := f100;
            grand_total := total;
            first_date := Some first; last_date := Some last |}
  end.

Fixpoint merge_addresses (selected_pools : list string)
    (pool_results : gmap string (gmap string pool_stat))
    (addrs : list string) (merged : gmap string merged_record)
  : result (gmap string merged_record) :=
  match addrs with
  | [] => Ok merged
  | addr :: rest =>
      let* r := merge_address selected_pools pool_results addr in
      merge_addresses selected_pools pool_results rest (<[addr := r]> merged)
  end.

(** The part of [analyze_tornado_cash] under
    [# Merge results by recipient address].  The set [all_addresses] is
    walked in the order of [elements]; the mapping built does not depend
    on that order, the exception raised, if several addresses raise,
    does. *)
Definition merge_results (selected_pools : list string)
    (pool_results : gmap string (gmap string pool_stat))
  : result (gmap string merged_record) :=
  merge_addresses selected_pools pool_results
    (elements (all_addresses selected_pools pool_results)) ∅.

(** [analyze_tornado_cash] *)
Definition analyze_tornado_cash (key : string)
    (start_date end_date : option Z) (selected_pools : option (list string))
  : M (gmap string merged_record) :=
  let selected_pools := default ALL_POOLS selected_pools in
  let api := new_api key in
  (do blocks <- resolve_blocks api start_date end_date;
   fun w =>
     let '(pool_results, w') :=
       analyze_pools api selected_pools (fst blocks) (snd blocks) ∅ w in
     (merge_results selected_pools pool_results, w'))%M.

(** ** The presenters: recipient rows

    Both presenters walk [results.items()] sorted by ["grand_total"],
    largest first.  A row is kept as its list of cells, before the cells
    are rendered as text. *)

Inductive cell : Type :=
| CStr (s : string)
| CInt (n : Z)
| CFloat (x : float)
| CDate (d : option datetime).

Abbreviation items := (list (string * merged_record)).

(** Insertion of [x] behind every entry whose total is not smaller. *)
Fixpoint insert_desc (x : string * merged_record) (l : items) : items :=
  match l with
  | [] => [x]
  | y :: r =>
      if Float.ltb (grand_total (snd y)) (grand_total (snd x))
      then x :: l
      else y :: insert_desc x r
  end.

(** [sorted(results.items(), key=lambda x: x[1]["grand_total"],
    reverse=True)]: stable, entries of equal total keep their order. *)
Definition sorted_recipients (results : items) : items :=
  foldl (fun acc x => insert_desc x acc) [] results.

Definition pool_cells (key : string) (selected_pools : list string)
    (f : pool_fields) : list cell :=
  if bool_decide (key ∈ selected_pools)
  then [CInt (pf_count f); CFloat (pf_total f);
        CDate (pf_first_date f); CDate (pf_last_date f)]
  else [].

Definition all_pool_cells (selected_pools : list string)
    (stats : merged_record) : list cell :=
  pool_cells "1_eth" selected_pools (m_1_eth stats) ++
  pool_cells "10_eth" selected_pools (m_10_eth stats) ++
  pool_cells "100_eth" selected_pools (m_100_eth stats).

(** A recipient [row] of the table. *)
Definition table_row (selected_pools : list string)
    (x : string * merged_record) : list cell :=
  CStr (fst x) :: all_pool_cells selected_pools (snd x) ++
  [CFloat (grand_total (snd x))].

(** A recipient [row] of the CSV file. *)
Definition csv_row (selected_pools : list string)
    (x : string * merged_record) : list cell :=
  CStr (fst x) :: all_pool_cells selected_pools (snd x) ++
  [CFloat (grand_total (snd x));
   CDate (first_date (snd x)); CDate (last_date (snd x))].

(** [format_output]: the recipient rows it prints (none when [results] is
    empty: "No withdrawals found"). *)
Definition format_output (results : items) (show_zero : bool)
    (selected_pools : option (list string)) : list (list cell) :=
  let selected_pools := default ALL_POOLS selected_pools in
  match results with
  | [] => []
  | _ :: _ =>
      let results :=
        if show_zero then results
        else filter (fun kv => Float.ltb Float.zero (grand_total (snd kv)) = true)
               results in
      map (table_row selected_pools) (sorted_recipients results)
  end.

(** [export_csv]: the rows written after the header. *)
Definition export_csv (results : items)
    (selected_pools : option (list string)) : list (list cell) :=
  let selected_pools := default ALL_POOLS selected_pools in
  map (csv_row selected_pools) (sorted_recipients results).

(** The totals and counts a row reports, with the recipient it is about:
    the row without its date cells. *)
Definition is_date (c : cell) : bool :=
  match c with
  | CDate _ => true
  | _ => false
  end.

Definition totals_and_counts (row : list cell) : list cell :=
  filter (fun c => is_date c = false) row.

(** ** The presenters: the header of the CSV file *)

Definition pool_header (key label : string) (selected_pools : list string)
  : list string :=
  if bool_decide (key ∈ selected_pools)
  then [label ++ " Withdrawals"; "Total " ++ label;
        label ++ " First Date"; label ++ " Last Date"]%string
  else [].

(** The [header] list [export_csv] writes first. *)
Definition csv_header (selected_pools : option (list string)) : list string :=
  let selected_pools := default ALL_POOLS selected_pools in
  ["Recipient Address"] ++
  pool_header "1_eth" "1 ETH" selected_pools ++
  pool_header "10_eth" "10 ETH" selected_pools ++
  pool_header "100_eth" "100 ETH" selected_pools ++
  ["Grand Total ETH"; "Overall First Date"; "Overall Last Date"].

(** ** The command line: the selection of pools

    More of [str], again on ASCII. *)

(** [s.replace(" ", "")] *)
Fixpoint remove_spaces (s : string) : string :=
  match s with
  | EmptyString => EmptyString
  | String c r =>
      if Ascii.eqb c " " then remove_spaces r else String c (remove_spaces r)
  end.

(** [s.split(",")]: the pieces between the commas, empty pieces kept. *)
Fixpoint split_commas (s : string) : list string :=
  match s with
  | EmptyString => [EmptyString]
  | String c r =>
      if Ascii.eqb c ","
      then EmptyString :: split_commas r
      else match split_commas r with
           | piece :: pieces => String c piece :: pieces
           | [] => [String c EmptyString]
           end
  end.

(** [",".join(l)] *)
Definition join_commas (l : list string) : string := String.concat "," l.

(** The [if p == "1": ... elif p == "10": ... elif p == "100": ...] of
    [main]; [None] for a part that is ignored with a warning. *)
Definition pool_of_part (p : string) : option string :=
  if String.eqb p "1" then Some "1_eth"
  else if String.eqb p "10" then Some "10_eth"
  else if String.eqb p "100" then Some "100_eth"
  else None.

(** The block [# Parse pool selection] of [main], from [args.pools]. *)
Definition parse_pools (pools : string) : list string :=
  let pool_parts := split_commas (remove_spaces pools) in
  let selected_pools := omap pool_of_part pool_parts in
  match selected_pools with
  | [] => ["1_eth"; "10_eth"; "100_eth"]
  | _ :: _ => selected_pools
  end.

(** ** The interactive selection of pools *)

(** What the calls of [input] return, line by line; [input] raises
    [EOFError] when no line is left. *)
Inductive outcome (A : Type) : Type :=
| Done (a : A)
| EOFError.
Arguments Done {A} a.
Arguments EOFError {A}.

(** [c.isspace()] *)
Definition is_space (c : ascii) : bool :=
  let n := N_of_ascii c in
  (((9 <=? n) && (n <=? 13)) || ((28 <=? n) && (n <=? 32)))%N.

Fixpoint lstrip (s : string) : string :=
  match s with
  | EmptyString => EmptyString
  | String c r => if is_space c then lstrip r else s
  end.

Fixpoint rstrip (s : string) : string :=
  match s with
  | EmptyString => EmptyString
  | String c r =>
      match rstrip r with
      | EmptyString => if is_space c then EmptyString else String c EmptyString
      | r' => String c r'
      end
  end.

(** [s.strip()] *)
Definition strip (s : string) : string := rstrip (lstrip s).

(** The dict [pool_map] of [select_pools]. *)
Definition pool_map (choice : string) : option (list string) :=
  if String.eqb choice "1" then Some ["1_eth"; "10_eth"; "100_eth"]
  else if String.eqb choice "2" then Some ["1_eth"]
  else if String.eqb choice "3" then Some ["10_eth"]
  else if String.eqb choice "4" then Some ["100_eth"]
  else if String.eqb choice "5" then Some ["1_eth"; "10_eth"]
  else if String.eqb choice "6" then Some ["1_eth"; "100_eth"]
  else if String.eqb choice "7" then Some ["10_eth"; "100_eth"]
  else None.

(** [input(...).strip().lower() == 'y'] *)
Definition says_yes (line : string) : bool :=
  String.eqb (lower (strip line)) "y".

(** [select_pools], on the lines typed; it returns the lines left. *)
Definition select_pools (stdin : list string)
  : outcome (list string) * list string :=
  match stdin with
  | [] => (EOFError, [])
  | line :: stdin =>
      let choice :=
        match strip line with
        | EmptyString => "1"%string
        | s => s
        end in
      match pool_map choice with
      | Some pools => (Done pools, stdin)
      | None =>
          if String.eqb choice "8" then
            match stdin with
            | a1 :: a10 :: a100 :: stdin =>
                let selected :=
                  (if says_yes a1 then ["1_eth"] else []) ++
                  (if says_yes a10 then ["10_eth"] else []) ++
                  (if says_yes a100 then ["100_eth"] else []) in
                match selected with
                | [] => (Done ["1_eth"; "10_eth"; "100_eth"], stdin)
                | _ :: _ => (Done selected, stdin)
                end
            | _ => (EOFError, [])
            end
          else (Done ["1_eth"; "10_eth"; "100_eth"], stdin)
      end
  end.

(** ** The API key

    The configuration file holds a JSON object, here with strings as
    values; [None] is the file that does not exist.  The permissions that
    [save_config] sets are not part of the model. *)

Definition config : Type := gmap string string.

(** A JSON value as [validate_api_key] looks at it under ["result"]. *)
Inductive json_value : Type :=
| JString (s : string)
| JContainer (has_invalid_api_key : bool)
    (* a list or an object, and whether "Invalid API Key" is an element
       or a key of it; it has no [lower] *)
| JScalar.
    (* null, a number, true, false: [in] raises TypeError *)

(** What the explorer answers to the request of [validate_api_key]. *)
Inductive validation_reply : Type :=
| ReplyTimeout                 (* requests.exceptions.Timeout *)
| ReplyConnectionError         (* requests.exceptions.ConnectionError *)
| ReplyException               (* any other exception, of response.json() too *)
| ReplyObject (message status : option string) (result : option json_value)
    (* a JSON object; the strings under "message" and "status" *)
| ReplyNotObject.              (* other JSON: [data.get] raises *)

Record store : Type := {
  config_file : option config;
  replies : list validation_reply;      (* the answers to come *)
  asked : list string                   (* the keys sent for validation *)
}.

Definition get_config (s : store) : config :=
  match config_file s with
  | Some c => c
  | None => ∅
  end.

Definition save_config (c : config) (s : store) : store :=
  {| config_file := Some c; replies := replies s; asked := asked s |}.

(** [needle in hay], for strings *)
Fixpoint contains (needle hay : string) : bool :=
  String.prefix needle hay ||
  match hay with
  | EmptyString => false
  | String _ r => contains needle r
  end.

(** The first component of what [validate_api_key] returns for a reply:
    [Some true], [Some false] or [None]; the second one is a text that the
    callers print. *)
Definition verdict (r : validation_reply) : option bool :=
  match r with
  | ReplyObject message status result =>
      if bool_decide (message = Some "NOTOK"%string) then
        match default (JString "Unknown error") result with
        | JString result_msg =>
            if contains "Invalid API Key" result_msg
               || contains "invalid api key" (lower result_msg)
            then Some false
            else Some false
        | JContainer true => Some false
        | JContainer false => None         (* AttributeError *)
        | JScalar => None                  (* TypeError *)
        end
      else if bool_decide (status = Some "1"%string) then Some true
      else Some true
  | ReplyTimeout => None
  | ReplyConnectionError => None
  | ReplyException => None
  | ReplyNotObject => None                 (* AttributeError *)
  end.

(** [validate_api_key]; when no answer is left the connection fails. *)
Definition validate_api_key (api_key : string) (s : store)
  : option bool * store :=
  let s' := {| config_file := config_file s; replies := tail (replies s);
               asked := asked s ++ [api_key] |} in
  match replies s with
  | r :: _ => (verdict r, s')
  | [] => (None, s')
  end.

(** The loop of [get_api_key], on the lines typed. *)
Fixpoint enter_api_key (config : config) (stdin : list string) (s : store)
  : outcome string * list string * store :=
  match stdin with
  | [] => (EOFError, [], s)
  | line :: stdin =>
      let api_key := strip line in
      if String.eqb api_key "" then enter_api_key config stdin s
      else if (String.length api_key <? 20)%nat then
        enter_api_key config stdin s
      else
        let '(valid, s) := validate_api_key api_key s in
        match valid with
        | Some true =>
            (Done api_key, stdin,
             save_config (<["etherscan_api_key"%string := api_key]> config) s)
        | Some false => enter_api_key config stdin s
        | None =>
            match stdin with
            | [] => (EOFError, [], s)
            | save_anyway :: stdin =>
                if says_yes save_anyway then
                  (Done api_key, stdin,
                   save_config
                     (<["etherscan_api_key"%string := api_key]> config) s)
                else enter_api_key config stdin s
            end
        end
  end.

(** [config.get("etherscan_api_key")] when it is true of Python. *)
Definition stored_key (config : config) : option string :=
  match config !! "etherscan_api_key"%string with
  | Some k => if String.eqb k "" then None else Some k
  | None => None
  end.

Definition get_api_key (stdin : list string) (s : store)
  : outcome string * list string * store :=
  let config := get_config s in
  match stored_key config with
  | Some k => (Done k, stdin, s)
  | None => enter_api_key config stdin s
  end.

(** [current_key[:8] + "..." + current_key[-4:]], what [reset_api_key]
    prints of the key in the file. *)
Definition masked_key (current_key : string) : string :=
  let n := String.length current_key in
  substring 0 8 current_key +:+ "..." +:+
  substring (n - 4) 4 current_key.

Definition reset_api_key (stdin : list string) (s : store)
  : outcome unit * list string * store :=
  let config := get_config s in
  match stdin with
  | [] => (EOFError, [], s)
  | line :: stdin =>
      let new_key := strip line in
      if String.eqb new_key "" then (Done tt, stdin, s)
      else
        let '(valid, s) := validate_api_key new_key s in
        match valid with
        | Some true =>
            (Done tt, stdin,
             save_config (<["etherscan_api_key"%string := new_key]> config) s)
        | Some false => (Done tt, stdin, s)
        | None =>
            match stdin with
            | [] => (EOFError, [], s)
            | save_anyway :: stdin =>
                if says_yes save_anyway then
                  (Done tt, stdin,
                   save_config
                     (<["etherscan_api_key"%string := new_key]> config) s)
                else (Done tt, stdin, s)
            end
        end
  end.

(** ** The presenters: the summary of the table

    The whole numbers [format_output] prints above the rows and in its
    total row: the number of recipients and the number of withdrawals of
    each pool.  The totals in ETH printed next to them are sums of floats
    and are not part of the model. *)

Record summary : Type := {
  unique_recipients : nat;           (* len(sorted_recipients) *)
  total_1eth_count : Z;
  total_10eth_count : Z;
  total_100eth_count : Z
}.

(** [sum] of ints *)
Definition py_sum (l : list Z) : Z := foldl Z.add 0 l.

(** [sum(r[key_count] for _, r in sorted_recipients) if key in
    selected_pools else 0] *)
Definition total_count (key : string) (fields : merged_record -> pool_fields)
    (selected_pools : list string) (sorted_recipients : items) : Z :=
  if bool_decide (key ∈ selected_pools)
  then py_sum (map (fun x => pf_count (fields (snd x))) sorted_recipients)
  else 0.

(** [None] when [results] is empty and nothing but "No withdrawals
    found" is printed. *)
Definition format_output_summary (results : items) (show_zero : bool)
    (selected_pools : option (list string)) : option summary :=
  let selected_pools := default ALL_POOLS selected_pools in
  match results with
  | [] => None
  | _ :: _ =>
      let results :=
        if show_zero then results
        else filter (fun kv => Float.ltb Float.zero (grand_total (snd kv)) = true)
               results in
      let sorted_recipients := sorted_recipients results in
      Some {| unique_recipients := length sorted_recipients;
              total_1eth_count :=
                total_count "1_eth" m_1_eth selected_pools sorted_recipients;
              total_10eth_count :=
                total_count "10_eth" m_10_eth selected_pools sorted_recipients;
              total_100eth_count :=
                total_count "100_eth" m_100_eth selected_pools sorted_recipients |}
  end.

(** ** Notions used to state the properties *)

(** What [_make_request] makes of one response. *)
Definition response_data (r : http_response) : result api_data :=
  match r with
  | HttpFail e => Err e
  | HttpJson data => check_status data
  end.

(** The transactions a response adds to [all_txs]. *)
Definition page_txs (r : http_response) : list raw_tx :=
  match response_data r with
  | Ok data =>
      match api_result data with
      | PList txs => txs
      | PScalar _ => []
      end
  | Err _ => []
  end.

(** The requests for pages [page], [page + 1], ..., [n] of them. *)
Definition page_requests (api : EtherscanAPI) (action addr : string)
    (start_block end_block page : Z) (n : nat) : list request :=
  map (fun i => request_of api
                  (page_params action addr start_block end_block
                     (page + Z.of_nat i)))
      (seq 0 n).

(** One run of a transaction getter from world [w], ending in [out]:
    pages 1 to [n + 1] were requested, in this order, pages 1 to [n] were
    full, page [n + 1] was not, and the result is the concatenation of all
    pages received. *)
Definition paged_fetch (api : EtherscanAPI) (action addr : string)
    (start_block end_block first_page : Z) (acc : list raw_tx)
    (script : list http_response) (log : list request)
    (out : result (list raw_tx) * world) : Prop :=
  exists n : nat,
    sent (snd out) =
      log ++ page_requests api action addr start_block end_block first_page (S n) /\
    pending (snd out) = drop (S n) script /\
    (forall i, (i < n)%nat ->
       exists r data, script !! i = Some r /\ response_data r = Ok data /\
                      PAGE_SIZE <= Z.of_nat (length (page_txs r))) /\
    match script !! n with
    | None => fst out = Err ConnectionError
    | Some r =>
        match response_data r with
        | Err e => fst out = Err e
        | Ok _ =>
            Z.of_nat (length (page_txs r)) < PAGE_SIZE /\
            fst out = Ok (acc ++ concat (map page_txs (take (S n) script)))
        end
    end.

(** [recipients[r]] read without creating the entry. *)
Definition stat_of (recipients : gmap string pool_stat) (r : string)
  : pool_stat :=
  default default_stat (recipients !! r).

(** The test [tx["from"].lower() == pool_address and int(tx["value"]) > 0]
    of the loops, for a [pool_address] in lower case: [false] also when
    the test raises. *)
Definition passes (pool_address : string) (tx : raw_tx) : bool :=
  match from_lower tx with
  | Ok sender => String.eqb sender pool_address
  | Err _ => false
  end &&
  match tx_value tx with
  | Some v => 0 <? v
  | None => false
  end.

(** The withdrawal filter: the sender is the pool, compared in lower
    case, and the value is strictly positive. *)
Definition is_withdrawal (pool_address : string) (tx : raw_tx) : bool :=
  passes (lower pool_address) tx.

(** The recipient key of [tx] is [r]. *)
Definition goes_to (r : string) (tx : raw_tx) : bool :=
  match to_addr tx with
  | Ok a => String.eqb a r
  | Err _ => false
  end.

(** The withdrawals of a list of fetched transactions that go to [r]. *)
Definition withdrawals_to (pool_address r : string) (txs : list raw_tx)
  : list raw_tx :=
  filter (fun tx => is_withdrawal pool_address tx && goes_to r tx = true) txs.

(** Entry [d] of a ["transactions"] list holds the fetched transaction
    [tx] of kind [kind]. *)
Definition stored_as (kind : tx_type) (tx : raw_tx) (d : tx_detail) : Prop :=
  tx_value tx = Some (value_wei d) /\
  tx_timeStamp tx = Some (timestamp d) /\
  hash_field kind tx = Ok (hash d) /\
  type d = kind.

(** [sum(tx["value_wei"] for tx in l)] *)
Definition sum_values (l : list tx_detail) : Z :=
  fold_right (fun d acc => value_wei d + acc) 0 l.

(** What holds of every entry [analyze_pool] builds. *)
Record stat_ok (s : pool_stat) : Prop := {
  stat_count : count s = Z.of_nat (length (transactions s));
  stat_total : total_wei s = sum_values (transactions s);
  stat_nonempty : transactions s <> [];
  stat_positive : Forall (fun d => 0 < value_wei d) (transactions s)
}.

(** [m] is the least (the greatest) element of [l]. *)
Definition is_min (m : Z) (l : list Z) : Prop :=
  m ∈ l /\ forall x, x ∈ l -> m <= x.

Definition is_max (m : Z) (l : list Z) : Prop :=
  m ∈ l /\ forall x, x ∈ l -> x <= m.

(** The timestamps of the transactions pool [k] holds for recipient [a]
    (none when [a] is not a key of the pool's mapping). *)
Definition timestamps_in (pool_results : gmap string (gmap string pool_stat))
    (k a : string) : list Z :=
  map timestamp (transactions (stat_of (pool_get pool_results k) a)).

(** The [pool_results] a run of [analyze_tornado_cash] builds before it
    merges, when the block numbers could be resolved. *)
Definition pool_results_of_run (key : string) (start_date end_date : option Z)
    (selected_pools : option (list string)) (w : world)
  : option (gmap string (gmap string pool_stat)) :=
  match resolve_blocks (new_api key) start_date end_date w with
  | (Ok blocks, w1) =>
      Some (fst (analyze_pools (new_api key) (default ALL_POOLS selected_pools)
                   (fst blocks) (snd blocks) ∅ w1))
  | (Err _, _) => None
  end.

(** The floating-point sum of a list, taken from left to right from
    [0.0]. *)
Definition float_sum (l : list float) : float :=
  fold_left Float.add l Float.zero.

(** The three groups of per-pool fields of a merged record, by pool key. *)
Definition pool_fields_of (r : merged_record) : list (string * pool_fields) :=
  [("1_eth", m_1_eth r); ("10_eth", m_10_eth r); ("100_eth", m_100_eth r)].

Definition pools_ok (pool_results : gmap string (gmap string pool_stat))
  : Prop :=
  map_Forall (fun _ m => map_Forall (fun _ s => stat_ok s) m) pool_results.

(** How the fields [f] of pool [k] in the record of recipient [a], and
    the timestamps [ts] the pool adds to [all_timestamps], derive from the
    pool's entry for [a]. *)
Definition pool_view (selected_pools : list string)
    (pool_results : gmap string (gmap string pool_stat))
    (k a : string) (f : pool_fields) (ts : list Z) : Prop :=
  ts = timestamps_in pool_results k a /\
  match pool_get pool_results k !! a with
  | Some stat =>
      k ∈ selected_pools /\
      stat_ok stat /\
      pf_count f = count stat /\
      Float.int_true_divide (total_wei stat) WEI_TO_ETH = Ok (pf_total f) /\
      Float.is_positive (pf_total f) /\
      exists lo hi,
        is_min lo ts /\ is_max hi ts /\
        pf_first_date f = Some {| posix := lo |} /\
        pf_last_date f = Some {| posix := hi |}
  | None => f = initial_fields /\ ts = []
  end.

(** Two collections of per-pool results hold the same transactions: for
    every pool and recipient, the two transaction lists are equal up to
    their order. *)
Definition same_transaction_sets
    (pool_results1 pool_results2 : gmap string (gmap string pool_stat))
  : Prop :=
  forall k a,
    transactions (stat_of (pool_get pool_results1 k) a) ≡ₚ
    transactions (stat_of (pool_get pool_results2 k) a).

(** Two outcomes of a per-pool block of the merge agree: the same
    exception, or the same fields and the same timestamps up to order. *)
Definition same_pool_block (x y : result (pool_fields * list Z)) : Prop :=
  match x, y with
  | Ok (f1, ts1), Ok (f2, ts2) => f1 = f2 /\ ts1 ≡ₚ ts2
  | Err e1, Err e2 => e1 = e2
  | _, _ => False
  end.

(** ** Further notions: the pool analyzer *)

(** The number of withdrawals counted over all recipients, and the wei
    they add up to. *)
Definition sum_counts (recipients : gmap string pool_stat) : Z :=
  map_fold (fun _ s acc => count s + acc) 0 recipients.

Definition sum_totals (recipients : gmap string pool_stat) : Z :=
  map_fold (fun _ s acc => total_wei s + acc) 0 recipients.

(** The withdrawals among fetched transactions, and their value. *)
Definition withdrawals (pool_address : string) (txs : list raw_tx)
  : list raw_tx :=
  filter (fun tx => is_withdrawal pool_address tx = true) txs.

Definition wei_of (txs : list raw_tx) : Z :=
  fold_right (fun tx acc => default 0 (tx_value tx) + acc) 0 txs.

(** A fetched transaction the loop of kind [kind] goes through without
    an exception: its sender is a string; and when the pool sent it, its
    value is an int and, when the value is positive, its receiver is
    present and is a string or false, its timestamp is an int and, for a
    normal transaction, its hash is present. *)
Definition storable (kind : tx_type) (pool_address : string) (tx : raw_tx)
  : Prop :=
  exists sender,
    from_lower tx = Ok sender /\
    (String.eqb sender (lower pool_address) = true ->
     exists v,
       tx_value tx = Some v /\
       (0 < v ->
        (exists a, to_addr tx = Ok a) /\
        is_Some (tx_timeStamp tx) /\
        (kind = normal -> is_Some (tx_hash tx)))).

(** ** Further notions: the requests of a run *)

(** From world [w] to world [w'] the requests [log] were sent, each one
    consuming the next response of the script (none is left for a
    request sent after the script ran out). *)
Definition sends (w w' : world) (log : list request) : Prop :=
  sent w' = sent w ++ log /\
  pending w' = drop (length log) (pending w).

(** A request [analyze_tornado_cash key _ _ selected_pools] may send: it
    carries the key and chain 1, and is a block lookup or a page of 10000
    transactions, in ascending order, of the lower-cased address of a
    selected pool of [TORNADO_CASH_POOLS]. *)
Definition expected_request (key : string) (selected_pools : list string)
    (q : request) : Prop :=
  req_apikey q = key /\ req_chainid q = 1 /\
  match req_params q with
  | GetBlockNoByTime _ closest => closest = "after" \/ closest = "before"
  | TxList action addr _ _ page offset sort =>
      (action = "txlistinternal" \/ action = "txlist") /\
      (exists k info,
         k ∈ selected_pools /\ TORNADO_CASH_POOLS !! k = Some info /\
         addr = lower (address info)) /\
      1 <= page /\ offset = 10000 /\ sort = "asc"
  end.

(** ** Further notions: the presenters *)

(** Entry [x] does not come with a smaller grand total than entry [y]. *)
Definition not_smaller (x y : string * merged_record) : Prop :=
  Float.ltb (grand_total (snd x)) (grand_total (snd y)) = false.

(** The [show_zero] filter of [format_output]. *)
Definition shown (kv : string * merged_record) : Prop :=
  Float.ltb Float.zero (grand_total (snd kv)) = true.

(** ** Further notions: the command line *)

(** A part of [--pools] that names a pool. *)
Definition pool_part (p : string) : Prop := p ∈ ["1"; "10"; "100"]%string.

(** ** Further notions: the API key *)

(** The verdict on the key that is sent as the [i]-th from [s] on. *)
Definition answer (s : store) (i : nat) : option bool :=
  match replies s !! i with
  | Some r => verdict r
  | None => None
  end.

(** A line that [get_api_key] does not take for a key. *)
Definition too_short (line : string) : Prop :=
  (String.length (strip line) < 20)%nat.

(** [k] has been entered from [s] on: it is long enough, it is the last
    key sent, it was not refused, and it is in the file made of [cfg]. *)
Definition entered (cfg : config) (s s' : store) (k : string) : Prop :=
  (20 <= String.length k)%nat /\
  config_file s' = Some (<["etherscan_api_key"%string := k]> cfg) /\
  exists keys,
    asked s' = asked s ++ keys ++ [k] /\
    replies s' = drop (S (length keys)) (replies s) /\
    answer s (length keys) <> Some false.

(** The count that pool [k] of [pool_results] holds for recipient [a]. *)
Definition count_in (pool_results : gmap string (gmap string pool_stat))
    (k a : string) : Z :=
  from_option count 0 (pool_get pool_results k !! a).

(** Sample runs, used to exercise the statements below.  The 10 ETH pool
    answers internal withdrawals to a contract creation and to [0xAAA],
    and a normal withdrawal to [0xAAA] next to a deposit. *)
Module Sample.

Definition pool : string := "0x910Cbd523D972eb0a6f4cAe4618aD62622b39DbF".

Definition tx_a : raw_tx :=
  {| tx_from := Some (JText "0x910CBD523D972EB0A6F4CAE4618AD62622B39DBF");
     tx_to := Some (JText "0xAAA"); tx_value := Some (10 ^ 19);
     tx_timeStamp := Some 1700000000; tx_hash := Some "0xh1" |}.

Definition tx_b : raw_tx :=
  {| tx_from := Some (JText pool); tx_to := Some JNull;
     tx_value := Some (10 ^ 19);
     tx_timeStamp := Some 1700000100; tx_hash := None |}.

Definition tx_c : raw_tx :=
  {| tx_from := Some (JText pool); tx_to := Some (JText "0xaaa");
     tx_value := Some (10 ^ 19);
     tx_timeStamp := Some 1700000200; tx_hash := None |}.

(** A deposit: the pool is the receiver. *)
Definition tx_d : raw_tx :=
  {| tx_from := Some (JText "0xbbb"); tx_to := Some (JText pool);
     tx_value := Some (10 ^ 19);
     tx_timeStamp := Some 1700000300; tx_hash := Some "0xh4" |}.

Definition tx_e : raw_tx :=
  {| tx_from := Some (JText pool); tx_to := Some (JText "0xaaa");
     tx_value := Some (15 * 10 ^ 17);
     tx_timeStamp := Some 1700000050; tx_hash := Some "0xh5" |}.

Definition page (txs : list raw_tx) : http_response :=
  HttpJson {| status := "1"; message := "OK"; api_result := PList txs |}.

Definition no_transactions : http_response :=
  HttpJson {| status := "0"; message := "No transactions found";
              api_result := PList [] |}.

Definition api : EtherscanAPI := new_api "KEY".

(** Responses for one pool: internal transactions, then normal ones. *)
Definition pool_world : world :=
  {| pending := [page [tx_b; tx_c]; page [tx_d; tx_a]]; sent := [] |}.

Definition pool_run : result (gmap string pool_stat) * world :=
  analyze_pool api pool "10 ETH" 0 99999999 pool_world.

Definition recipients : gmap string pool_stat :=
  match fst pool_run with
  | Ok m => m
  | Err _ => ∅
  end.

(** Responses for a whole analysis of the three pools. *)
Definition world_3 : world :=
  {| pending := [no_transactions; no_transactions;
                 page [tx_b; tx_c; tx_e]; page [tx_d; tx_a];
                 no_transactions; no_transactions];
     sent := [] |}.

Definition run : result (gmap string merged_record) * world :=
  analyze_tornado_cash "KEY" None None None world_3.

Definition merged : gmap string merged_record :=
  match fst run with
  | Ok m => m
  | Err _ => ∅
  end.

(** The record of [0xaaa] in [merged]. *)
Definition record_a : merged_record :=
  default initial_record (merged !! "0xaaa").

Definition pool_results : gmap string (gmap string pool_stat) :=
  default ∅ (pool_results_of_run "KEY" None None None world_3).

(** The same transactions, with the pools selected in the opposite order
    and the internal transactions received in the opposite order. *)
Definition reordered_pools : list string := ["100_eth"; "10_eth"; "1_eth"].

Definition reordered_world : world :=
  {| pending := [no_transactions; no_transactions;
                 page [tx_e; tx_c; tx_b]; page [tx_a; tx_d];
                 no_transactions; no_transactions];
     sent := [] |}.

Definition reordered_pool_results : gmap string (gmap string pool_stat) :=
  default ∅ (pool_results_of_run "KEY" None None (Some reordered_pools)
               reordered_world).

(** Responses for an analysis of the 10 ETH pool alone. *)
Definition world_10 : world :=
  {| pending := [page [tx_b; tx_c; tx_e]; page [tx_d; tx_a]]; sent := [] |}.

Definition run_10 : result (gmap string merged_record) * world :=
  analyze_tornado_cash "KEY" None None (Some ["10_eth"]) world_10.

Definition merged_10 : gmap string merged_record :=
  match fst run_10 with
  | Ok m => m
  | Err _ => ∅
  end.

Definition record_10 : merged_record :=
  default initial_record (merged_10 !! "0xaaa").

(** Responses for an analysis in which the first request for the 1 ETH
    pool fails. *)
Definition failing_world : world :=
  {| pending := [HttpFail HTTPError;
                 page [tx_b; tx_c; tx_e]; page [tx_d; tx_a];
                 no_transactions; no_transactions];
     sent := [] |}.

(** One normal withdrawal of 1 ETH from the 1 ETH pool to [0xAAA]. *)
Definition tx_1 : raw_tx :=
  {| tx_from := Some (JText "0x47CE0C6eD5B0Ce3d3A51fdb1C52DC66a7c3c2936");
     tx_to := Some (JText "0xAAA"); tx_value := Some (10 ^ 18);
     tx_timeStamp := Some 1700000000; tx_hash := Some "0xh0" |}.

Definition world_1 : world :=
  {| pending := [no_transactions; page [tx_1]]; sent := [] |}.

(** Responses for one getter: a full page, then a page of one. *)
Definition full_page : http_response :=
  page (replicate (Z.to_nat PAGE_SIZE) tx_a).

Definition paged_world : world :=
  {| pending := [full_page; page [tx_c]; page [tx_b]]; sent := [] |}.

End Sample.

(** A run across the end of daylight saving time.  In New York the clock
    was set back from 02:00 to 01:00 on 2024-11-03, at the POSIX second
    1730613600; [new_york] gives the offsets in force before and after.
    The 10 ETH pool answers a withdrawal at 01:30 before the change and
    one at 01:00 after it. *)
Module FoldSample.

Definition new_york : time_zone :=
  fun t => if t <? 1730613600 then -14400 else -18000.

Definition tx_early : raw_tx :=
  {| tx_from := Some (JText Sample.pool); tx_to := Some (JText "0xaaa");
     tx_value := Some (10 ^ 19);
     tx_timeStamp := Some 1730611800; tx_hash := None |}.

Definition tx_late : raw_tx :=
  {| tx_from := Some (JText Sample.pool); tx_to := Some (JText "0xaaa");
     tx_value := Some (10 ^ 19);
     tx_timeStamp := Some 1730613600; tx_hash := None |}.

Definition world : world :=
  {| pending := [Sample.page [tx_early; tx_late]; Sample.no_transactions];
     sent := [] |}.

Definition merged : gmap string merged_record :=
  match fst (analyze_tornado_cash "KEY" None None (Some ["10_eth"]) world) with
  | Ok m => m
  | Err _ => ∅
  end.

Definition record : merged_record :=
  default initial_record (merged !! "0xaaa").

End FoldSample.

(** Sample stores and typed lines for the API key. *)
Module KeySample.

Definition long_key : string := "0123456789ABCDEFGHIJKLMNOPQRSTUVWX".

Definition refusal : validation_reply :=
  ReplyObject (Some "NOTOK"%string) (Some "0"%string)
    (Some (JString "Invalid API Key")).

Definition acceptance : validation_reply :=
  ReplyObject (Some "OK"%string) (Some "1"%string)
    (Some (JString "120000000")).

Definition no_file : store :=
  {| config_file := None;
     replies := [refusal; ReplyTimeout; acceptance];
     asked := [] |}.

Definition typed : list string :=
  ["short"; "  refused-refused-refused-key "; "timeout-timeout-timeout-key";
   "n"; ""; long_key; "1"]%string.

Definition with_key : store := snd (get_api_key typed no_file).

Definition short_reset : store :=
  {| config_file := Some {[ "etherscan_api_key"%string := long_key;
                            "theme"%string := "dark"%string ]};
     replies := [acceptance];
     asked := [] |}.

End KeySample.

(** * Properties *)

(** ** Floats *)

Module FloatFacts.
Import Float.

Lemma digits2_pos_size (p : positive) : digits2_pos p = Pos.size p.
Proof. induction p as [p IH|p IH|]; simpl; congruence. Qed.

Lemma Zdigits2_bounds (p : positive) :
2 ^ (Zdigits2 (Zpos p) - 1) <= Zpos p < 2 ^ Zdigits2 (Zpos p).
Proof.
simpl. rewrite digits2_pos_size. split.
- pose proof (Pos.size_le p) as H.
  apply Pos2Z.pos_le_pos in H. rewrite Pos2Z.inj_pow in H.
  replace (Z.pos (Pos.size p)) with (Z.succ (Z.pos (Pos.size p) - 1)) in H by lia.
  rewrite Z.pow_succ_r in H by lia. lia.
- pose proof (Pos.size_gt p) as H.
  apply Pos2Z.pos_lt_pos in H. now rewrite Pos2Z.inj_pow in H.
Qed.

Lemma Zdigits2_pos (p : positive) : 0 < Zdigits2 (Zpos p).
Proof. simpl. lia. Qed.

Lemma iter_pos_iter {A : Type} (f : A -> A) (p : positive) (x : A) :
SpecFloat.iter_pos f p x = Pos.iter f x p.
Proof.
revert x. induction p as [p IH|p IH|]; intros x; simpl.
- rewrite !IH. now rewrite !Pos.iter_swap.
- now rewrite !IH.
- reflexivity.
Qed.

Lemma shr_1_m (mrs : shr_record) :
0 <= shr_m mrs -> shr_m (shr_1 mrs) = shr_m mrs / 2.
Proof.
destruct mrs as [m r s]. simpl. intros Hm.
rewrite <- Z.div2_div.
destruct m as [|[p|p|]|p]; simpl; try reflexivity; lia.
Qed.

Lemma shr_iter_m (n : positive) (mrs : shr_record) :
0 <= shr_m mrs ->
shr_m (SpecFloat.iter_pos shr_1 n mrs) = shr_m mrs / 2 ^ Zpos n.
Proof.
intros Hm. rewrite iter_pos_iter.
induction n as [|n IH] using Pos.peano_ind.
- simpl. now apply shr_1_m.
- rewrite Pos.iter_succ, shr_1_m.
  + rewrite IH, Pos2Z.inj_succ, Z.pow_succ_r by lia.
    rewrite Z.div_div by lia. f_equal. lia.
  + rewrite IH. apply Z.div_pos; lia.
Qed.

Lemma shr_record_of_loc_m (m : Z) (l : location) :
shr_m (shr_record_of_loc m l) = m.
Proof. now destruct l as [|[]]. Qed.

Lemma shr_fexp_positive (m e : Z) (l : location) :
0 < m -> emin prec emax <= e ->
0 < shr_m (fst (shr_fexp prec emax m e l)) /\
emin prec emax <= snd (shr_fexp prec emax m e l).
Proof.
intros Hm He. unfold shr_fexp, shr.
destruct m as [|p|p]; try lia.
pose proof (Zdigits2_bounds p) as [Hlo _].
pose proof (Zdigits2_pos p) as Hd.
set (d := Zdigits2 (Z.pos p)) in *.
destruct (fexp prec emax (d + e) - e) as [|n|n] eqn:Hn; simpl;
  rewrite ?shr_record_of_loc_m; try (split; lia).
rewrite shr_iter_m by (rewrite shr_record_of_loc_m; lia).
rewrite shr_record_of_loc_m.
unfold fexp in Hn.
assert (Z.pos n = d - prec) as -> by lia.
split; [|lia].
apply Z.div_str_pos. split; [apply Z.pow_pos_nonneg; lia|].
etransitivity; [|exact Hlo].
apply Z.pow_le_mono_r; unfold prec; lia.
Qed.

Lemma round_nearest_even_positive (m : Z) (l : location) :
0 < m -> 0 < round_nearest_even m l.
Proof.
intros Hm. destruct l as [|[]]; simpl; try lia.
destruct (Z.even m); lia.
Qed.

Lemma binary_round_aux_positive (s : bool) (m e : Z) (l : location) :
0 < m -> emin prec emax <= e ->
match binary_round_aux prec emax s m e l with
| S754_finite s' _ e' => s' = s /\ emin prec emax <= e'
| S754_infinity s' => s' = s
| _ => False
end.
Proof.
intros Hm He. unfold binary_round_aux.
pose proof (shr_fexp_positive m e l Hm He) as [Hm1 He1].
destruct (shr_fexp prec emax m e l) as [mrs1 e1]. simpl in Hm1, He1.
pose proof (round_nearest_even_positive (shr_m mrs1)
              (loc_of_shr_record mrs1) Hm1) as Hr.
pose proof (shr_fexp_positive _ e1 loc_Exact Hr He1) as [Hm2 He2].
destruct (shr_fexp prec emax _ e1 loc_Exact) as [mrs2 e2].
simpl in Hm2, He2.
destruct (shr_m mrs2) as [|q|q]; try lia.
destruct (e2 <=? emax - prec); auto.
Qed.

Lemma SFdiv_core_binary_positive (a b q e : Z) (l : location) :
0 < a -> 0 < b ->
emin prec emax <= Zdigits2 a - Zdigits2 b - prec ->
SFdiv_core_binary prec emax a 0 b 0 = (q, e, l) ->
0 < q /\ emin prec emax <= e.
Proof.
intros Ha Hb Hd. unfold SFdiv_core_binary.
destruct a as [|pa|pa]; try lia. destruct b as [|pb|pb]; try lia.
pose proof (Zdigits2_bounds pa) as [Ha1 Ha2].
pose proof (Zdigits2_bounds pb) as [Hb1 Hb2].
set (d1 := Zdigits2 (Z.pos pa)) in *. set (d2 := Zdigits2 (Z.pos pb)) in *.
rewrite !Z.add_0_r, Z.sub_0_r.
assert (Hf : fexp prec emax (d1 - d2) = d1 - d2 - prec) by (unfold fexp; lia).
rewrite Hf.
set (e' := Z.min (d1 - d2 - prec) 0).
assert (He' : emin prec emax <= e') by (unfold e', emin, emax, prec in *; lia).
assert (Hq : forall m', 2 ^ d2 <= m' -> 0 < m' / Z.pos pb).
{ intros m' Hm'. apply Z.div_str_pos. lia. }
destruct (0 - e') as [|s|s] eqn:Hs.
- destruct (Z.div_eucl (Z.pos pa) (Z.pos pb)) as [q' r'] eqn:Hdiv.
  intros [= <- <- <-]. split; [|exact He'].
  replace q' with (Z.pos pa / Z.pos pb) by (unfold Z.div; now rewrite Hdiv).
  apply Hq. etransitivity; [|exact Ha1].
  apply Z.pow_le_mono_r; unfold prec in *; lia.
- destruct (Z.div_eucl (Z.shiftl (Z.pos pa) (Z.pos s)) (Z.pos pb))
    as [q' r'] eqn:Hdiv.
  intros [= <- <- <-]. split; [|exact He'].
  replace q' with (Z.shiftl (Z.pos pa) (Z.pos s) / Z.pos pb)
    by (unfold Z.div; now rewrite Hdiv).
  apply Hq. rewrite Z.shiftl_mul_pow2 by lia.
  assert (Hse : Z.pos s = d2 + prec - d1) by lia.
  assert (0 < d1) by (apply Zdigits2_pos).
  assert (2 ^ d2 <= 2 ^ (d1 - 1) * 2 ^ Z.pos s).
  { rewrite <- Z.pow_add_r by lia. apply Z.pow_le_mono_r; unfold prec in *; lia. }
  assert (0 < 2 ^ Z.pos s) by (apply Z.pow_pos_nonneg; lia).
  nia.
- lia.
Qed.

Lemma int_true_divide_wei_positive (n : Z) (f : float) :
0 < n -> int_true_divide n WEI_TO_ETH = Ok f -> is_positive f.
Proof.
intros Hn. unfold int_true_divide.
change (WEI_TO_ETH =? 0) with false. cbv iota.
destruct (n =? 0) eqn:Hz; [lia|].
replace (n <? 0) with false by (symmetry; apply Z.ltb_ge; lia).
change (WEI_TO_ETH <? 0) with false. cbn [xorb].
destruct (SFdiv_core_binary prec emax (Z.abs n) 0 (Z.abs WEI_TO_ETH) 0)
  as [[q e] l] eqn:Hdiv.
apply SFdiv_core_binary_positive in Hdiv as [Hq He]; try lia.
- pose proof (binary_round_aux_positive false q e l Hq He) as H.
  destruct (binary_round_aux prec emax false q e l) as [s|s| |s m e'];
    try contradiction; try discriminate.
  intros [= <-]. destruct H as [-> H]. exact H.
- reflexivity.
- rewrite Z.abs_eq by lia. destruct n as [|p|p]; try lia.
  pose proof (Zdigits2_pos p).
  change (Zdigits2 (Z.abs WEI_TO_ETH)) with 60.
  unfold emin, emax, prec. lia.
Qed.

Lemma binary_round_positive (s : bool) (m : positive) (e : Z) :
emin prec emax <= e ->
match binary_round prec emax s m e with
| S754_finite s' _ e' => s' = s /\ emin prec emax <= e'
| S754_infinity s' => s' = s
| _ => False
end.
Proof.
intros He. unfold binary_round.
destruct (shl_align m e (fexp prec emax (Z.pos (digits2_pos m) + e)))
  as [mz ez] eqn:Hal.
apply binary_round_aux_positive; [lia|].
unfold shl_align in Hal.
destruct (fexp prec emax (Z.pos (digits2_pos m) + e) - e) eqn:Hd;
  injection Hal as <- <-; try lia.
unfold fexp. lia.
Qed.

Lemma add_zero_l (x : float) : is_nonneg x -> add zero x = x.
Proof.
intros [->|Hx]; [reflexivity|].
destruct x as [[]|[]| |[] m e]; simpl in Hx; try contradiction; reflexivity.
Qed.

Lemma add_zero_r (x : float) : is_nonneg x -> add x zero = x.
Proof.
intros [->|Hx]; [reflexivity|].
destruct x as [[]|[]| |[] m e]; simpl in Hx; try contradiction; reflexivity.
Qed.

Lemma add_positive (x y : float) :
is_positive x -> is_positive y -> is_positive (add x y).
Proof.
intros Hx Hy.
destruct x as [[]|[]| |[] mx ex]; simpl in Hx; try contradiction;
destruct y as [[]|[]| |[] my ey]; simpl in Hy; try contradiction;
  try exact I.
unfold add, SFadd. cbn [cond_Zopp].
rewrite <- Pos2Z.inj_add. cbn [binary_normalize].
match goal with |- is_positive (binary_round _ _ _ ?m ?e) =>
  pose proof (binary_round_positive false m e) as H
end.
destruct (binary_round prec emax false _ _) as [s|s| |s m e].
- exfalso. apply H. lia.
- rewrite H by lia. exact I.
- exfalso. apply H. lia.
- destruct H as [-> H]; [lia|]. exact H.
Qed.

Lemma add_positive_l (x y : float) :
is_positive x -> is_nonneg y -> is_positive (add x y).
Proof.
intros Hx [->|Hy]; [|now apply add_positive].
rewrite add_zero_r; [exact Hx|now right].
Qed.

Lemma add_positive_r (x y : float) :
is_nonneg x -> is_positive y -> is_positive (add x y).
Proof.
intros [->|Hx] Hy; [|now apply add_positive].
rewrite add_zero_l; [exact Hy|now right].
Qed.

Lemma add_nonneg (x y : float) :
is_nonneg x -> is_nonneg y -> is_nonneg (add x y).
Proof.
intros [->|Hx] Hy.
- now rewrite add_zero_l.
- right. now apply add_positive_l.
Qed.

Lemma ltb_zero_positive (x : float) : is_positive x -> ltb zero x = true.
Proof.
destruct x as [[]|[]| |[] m e]; simpl; intros H; try contradiction; reflexivity.
Qed.

Lemma ltb_zero_nonneg (x : float) :
is_nonneg x -> ltb zero x = true -> is_positive x.
Proof. intros [->|H]; [discriminate|auto]. Qed.

End FloatFacts.

(** ** The explorer client: pagination *)

Section Pagination.

Variable api : EtherscanAPI.
Variables action addr : string.
Variables start_block end_block : Z.

Lemma check_status_inv (data data' : api_data) :
  check_status data = Ok data' -> data' = data.
Proof. unfold check_status. case (_ && _); congruence. Qed.

Lemma page_requests_S (page : Z) (n : nat) :
  page_requests api action addr start_block end_block page (S n) =
  request_of api (page_params action addr start_block end_block page) ::
  page_requests api action addr start_block end_block (page + 1) n.
Proof.
  unfold page_requests. cbn [seq map]. rewrite Z.add_0_r. f_equal.
  rewrite <- seq_shift, map_map. apply map_ext. intros i.
  do 2 f_equal. lia.
Qed.

(** The loop of the getters written with [_make_request], as in the
    source. *)
Lemma fetch_pages_unfold (page : Z) (all_txs : list raw_tx) (w : world) :
  fetch_pages api action addr start_block end_block page all_txs
    (pending w) (sent w) =
  match _make_request api
          (page_params action addr start_block end_block page) w with
  | (Err e, w') => (Err e, w')
  | (Ok data, w') =>
      match api_result data with
      | PList (tx :: txs) =>
          if Z.of_nat (length (tx :: txs)) <? PAGE_SIZE
          then (Ok (all_txs ++ tx :: txs), w')
          else fetch_pages api action addr start_block end_block
                 (page + 1) (all_txs ++ tx :: txs) (pending w') (sent w')
      | _ => (Ok all_txs, w')
      end
  end.
Proof.
  destruct w as [script log]. cbn [pending sent].
  destruct script as [|r rest]; [reflexivity|].
  cbn [fetch_pages]. unfold _make_request. cbn [pending sent].
  destruct r as [e|data]; [reflexivity|].
  destruct (check_status data) as [data'|e]; reflexivity.
Qed.

Lemma fetch_pages_paged (script : list http_response) :
  forall (page : Z) (acc : list raw_tx) (log : list request),
    paged_fetch api action addr start_block end_block page acc script log
      (fetch_pages api action addr start_block end_block page acc script log).
Proof.
  induction script as [|r rest IH]; intros page acc log.
  - exists 0%nat. cbn. rewrite Z.add_0_r.
    repeat split; intros; lia.
  - cbn [fetch_pages]. unfold _make_request. cbn [pending sent].
    unfold log_request. cbn [sent].
    destruct r as [e|data].
    { exists 0%nat. cbn. rewrite Z.add_0_r. repeat split; intros; lia. }
    destruct (check_status data) as [data'|e] eqn:Hck.
    2:{ exists 0%nat. cbn. rewrite Hck, Z.add_0_r.
        repeat split; intros; lia. }
    apply check_status_inv in Hck as Hd. subst data'.
    assert (Hshort : forall txs,
      api_result data = PList txs ->
      Z.of_nat (length txs) < PAGE_SIZE ->
      paged_fetch api action addr start_block end_block page acc
        (HttpJson data :: rest) log
        (Ok (acc ++ txs),
         {| pending := rest;
            sent := log ++
              [request_of api
                 (page_params action addr start_block end_block page)] |})).
    { intros txs Hres Hlen. exists 0%nat.
      cbn [snd fst sent pending lookup list_lookup].
      unfold page_txs, response_data. rewrite Hck, Hres.
      cbn. rewrite ?Hck, ?Hres, Z.add_0_r, ?app_nil_r.
      unfold PAGE_SIZE in *. repeat split; intros; lia. }
    destruct (api_result data) as [[|tx txs]|z] eqn:Hres.
    + rewrite <- (app_nil_r acc) at 2. apply Hshort; [reflexivity|].
      cbn. unfold PAGE_SIZE. lia.
    + destruct (Z.of_nat (length (tx :: txs)) <? PAGE_SIZE) eqn:Hlen.
      * apply Hshort; [reflexivity|]. now apply Z.ltb_lt.
      * apply Z.ltb_ge in Hlen. cbn [sent].
        destruct (IH (page + 1) (acc ++ tx :: txs)
                    (log ++ [request_of api
                       (page_params action addr start_block end_block page)]))
          as (n & Hsent & Hpend & Hfull & Hlast).
        exists (S n). rewrite page_requests_S.
        split; [rewrite Hsent, <- app_assoc; reflexivity|].
        split; [exact Hpend|].
        split.
        { intros [|i] Hi.
          - exists (HttpJson data), data. cbn.
            unfold page_txs, response_data. rewrite Hck, Hres.
            repeat split; trivial.
          - apply Hfull. lia. }
        cbn [lookup list_lookup]. change (rest !! n) with (lookup n rest).
        destruct (rest !! n) as [r|]; [|exact Hlast].
        destruct (response_data r) as [d|e]; [|exact Hlast].
        destruct Hlast as [Hl ->]. split; [exact Hl|].
        f_equal. rewrite <- app_assoc. f_equal.
        cbn [take map concat]. f_equal.
        unfold page_txs, response_data. now rewrite Hck, Hres.
    + exists 0%nat. cbn [snd fst sent pending lookup list_lookup].
      unfold page_txs, response_data. rewrite Hck, Hres.
      cbn. rewrite ?Hck, ?Hres, Z.add_0_r, ?app_nil_r.
      repeat split; intros; unfold PAGE_SIZE; lia.
Qed.

End Pagination.

(** C5. Both transaction getters request pages 1, 2, ..., [n + 1] in this
    order and nothing else: each of the pages 1 to [n] came back as a list
    of at least [PAGE_SIZE] = 10000 transactions (so page [N + 1] is
    requested exactly when page [N] is full), and page [n + 1] ended the
    loop, by an error, by a list of fewer than 10000 transactions, by an
    empty list or by a value that is not a list.  Without error the
    getter returns the concatenation of the pages in the order received. *)
Theorem getters_request_next_page_iff_full
    (get : EtherscanAPI -> string -> Z -> Z -> M (list raw_tx))
    (action : string) (api : EtherscanAPI) (addr : string)
    (start_block end_block : Z) (w : world) :
  (get = get_internal_transactions /\ action = "txlistinternal") \/
  (get = get_normal_transactions /\ action = "txlist") ->
  exists n : nat,
    sent (snd (get api addr start_block end_block w)) =
      sent w ++ page_requests api action addr start_block end_block 1 (S n) /\
    pending (snd (get api addr start_block end_block w)) =
      drop (S n) (pending w) /\
    (forall i, (i < n)%nat ->
       exists r data, pending w !! i = Some r /\ response_data r = Ok data /\
                      PAGE_SIZE <= Z.of_nat (length (page_txs r))) /\
    match pending w !! n with
    | None => fst (get api addr start_block end_block w) = Err ConnectionError
    | Some r =>
        match response_data r with
        | Err e => fst (get api addr start_block end_block w) = Err e
        | Ok _ =>
            Z.of_nat (length (page_txs r)) < PAGE_SIZE /\
            fst (get api addr start_block end_block w) =
              Ok (concat (map page_txs (take (S n) (pending w))))
        end
    end.
Proof.
  intros [[-> ->]|[-> ->]];
    apply (fetch_pages_paged api _ addr start_block end_block
             (pending w) 1 [] (sent w)).
Qed.

Lemma getters_request_next_page_iff_full_witness :
  ((get_normal_transactions = get_internal_transactions /\
    "txlist" = "txlistinternal") \/
   (get_normal_transactions = get_normal_transactions /\
    "txlist" = "txlist")) /\
  exists n : nat,
    sent (snd (get_normal_transactions Sample.api "0xabc" 0 99999999
                 Sample.paged_world)) =
      sent Sample.paged_world ++
      page_requests Sample.api "txlist" "0xabc" 0 99999999 1 (S n) /\
    pending (snd (get_normal_transactions Sample.api "0xabc" 0 99999999
                    Sample.paged_world)) =
      drop (S n) (pending Sample.paged_world) /\
    (forall i, (i < n)%nat ->
       exists r data,
         pending Sample.paged_world !! i = Some r /\
         response_data r = Ok data /\
         PAGE_SIZE <= Z.of_nat (length (page_txs r))) /\
    match pending Sample.paged_world !! n with
    | None =>
        fst (get_normal_transactions Sample.api "0xabc" 0 99999999
               Sample.paged_world) = Err ConnectionError
    | Some r =>
        match response_data r with
        | Err e =>
            fst (get_normal_transactions Sample.api "0xabc" 0 99999999
                   Sample.paged_world) = Err e
        | Ok _ =>
            Z.of_nat (length (page_txs r)) < PAGE_SIZE /\
            fst (get_normal_transactions Sample.api "0xabc" 0 99999999
                   Sample.paged_world) =
              Ok (concat (map page_txs
                            (take (S n) (pending Sample.paged_world))))
        end
    end.
Proof.
  assert (H : (get_normal_transactions = get_internal_transactions /\
               "txlist" = "txlistinternal") \/
              (get_normal_transactions = get_normal_transactions /\
               "txlist" = "txlist"))
    by (right; split; reflexivity).
  split; [exact H|].
  exact (getters_request_next_page_iff_full get_normal_transactions "txlist"
           Sample.api "0xabc" 0 99999999 Sample.paged_world H).
Defined.

(** A full page is followed by the request of page 2; the short page 2
    ends the loop and the third response is left unread. *)
Example two_pages_fetched :
  let out := get_normal_transactions Sample.api "0xabc" 0 99999999
               Sample.paged_world in
  fst out = Ok (replicate (Z.to_nat PAGE_SIZE) Sample.tx_a ++ [Sample.tx_c]) /\
  sent (snd out) =
    page_requests Sample.api "txlist" "0xabc" 0 99999999 1 2 /\
  pending (snd out) = [Sample.page [Sample.tx_b]].
Proof. vm_compute. repeat split. Qed.

(** ** The pool analyzer *)

Section PoolAnalyzer.

Variable kind : tx_type.
Variable pool : string.   (* the pool address, in lower case *)

Lemma sum_values_app (l1 l2 : list tx_detail) :
  sum_values (l1 ++ l2) = sum_values l1 + sum_values l2.
Proof.
  unfold sum_values. induction l1 as [|d l1 IH]; cbn; [reflexivity|].
  fold sum_values in *. rewrite IH. lia.
Qed.

(** One iteration of a [for tx in ...] loop: the transaction is
    skipped, or it is appended to the entry of its recipient. *)
Lemma process_tx_inv (recipients recipients' : gmap string pool_stat)
    (tx : raw_tx) :
  process_tx kind pool recipients tx = Ok recipients' ->
  (passes pool tx = false /\ (exists sender, from_lower tx = Ok sender) /\
   recipients' = recipients) \/
  (exists d a,
     passes pool tx = true /\ to_addr tx = Ok a /\
     0 < value_wei d /\ stored_as kind tx d /\
     recipients' =
       <[a :=
          {| count := count (stat_of recipients a) + 1;
             total_wei := total_wei (stat_of recipients a) + value_wei d;
             transactions := transactions (stat_of recipients a) ++ [d] |}]>
       recipients).
Proof.
  unfold process_tx, passes.
  destruct (from_lower tx) as [sender|e] eqn:Hsender; cbn [bind];
    [|discriminate].
  destruct (String.eqb sender pool) eqn:Hfrom;
    [|intros [= <-]; left; eauto].
  destruct (tx_value tx) as [v|] eqn:Hv; cbn [int_field bind andb];
    [|discriminate].
  destruct (0 <? v) eqn:Hpos; [|intros [= <-]; left; eauto].
  destruct (to_addr tx) as [a|e] eqn:Hto; cbn [bind]; [|discriminate].
  destruct (hash_field kind tx) as [h|e] eqn:Hh; cbn [bind]; [|discriminate].
  destruct (tx_timeStamp tx) as [ts|] eqn:Hts; cbn [int_field bind];
    [|discriminate].
  intros [= <-]. right.
  exists {| hash := h; value_wei := v; timestamp := ts; type := kind |}, a.
  apply Z.ltb_lt in Hpos. repeat split; cbn; trivial.
Qed.

(** A whole loop: every entry is extended by the withdrawals that go to
    it, in the order they were fetched. *)
Lemma process_txs_inv (txs : list raw_tx) :
  forall (recipients recipients' : gmap string pool_stat),
    process_txs kind pool txs recipients = Ok recipients' ->
    forall r : string,
      exists kept : list tx_detail,
        Forall2 (stored_as kind)
          (filter (fun tx => passes pool tx && goes_to r tx = true) txs) kept /\
        Forall (fun d => 0 < value_wei d) kept /\
        transactions (stat_of recipients' r) =
          transactions (stat_of recipients r) ++ kept /\
        count (stat_of recipients' r) =
          count (stat_of recipients r) + Z.of_nat (length kept) /\
        total_wei (stat_of recipients' r) =
          total_wei (stat_of recipients r) + sum_values kept /\
        (is_Some (recipients' !! r) <->
         is_Some (recipients !! r) \/ kept <> []).
Proof.
  induction txs as [|tx txs IH]; intros recipients recipients' Hrun r.
  - injection Hrun as <-. exists []. rewrite app_nil_r.
    repeat split; try constructor; try (cbn; lia); intros; tauto.
  - cbn [process_txs] in Hrun.
    destruct (process_tx kind pool recipients tx) as [mid|e] eqn:Hstep;
      cbn [bind] in Hrun; [|discriminate].
    destruct (IH _ _ Hrun r) as (kept & Hkept & Hpos & Htx & Hcount & Htotal & Hdom).
    apply process_tx_inv in Hstep
      as [(Hskip & _ & ->)|(d & a & Hpass & Ha & Hd & Hst & ->)].
    + exists kept. rewrite filter_cons_False; [tauto|].
      rewrite Hskip. cbn. discriminate.
    + destruct (String.eqb a r) eqn:Hto.
      * apply String.eqb_eq in Hto as Hr. subst r.
        exists (d :: kept).
        rewrite filter_cons_True
          by (unfold goes_to; rewrite Hpass, Ha, String.eqb_refl; reflexivity).
        unfold stat_of in *.
        rewrite lookup_insert_eq in Htx, Hcount, Htotal, Hdom.
        cbn [default from_option id transactions count total_wei]
          in Htx, Hcount, Htotal.
        repeat split.
        -- now constructor.
        -- now constructor.
        -- rewrite Htx, <- app_assoc. reflexivity.
        -- rewrite Hcount. cbn [length]. lia.
        -- rewrite Htotal.
           change (sum_values (d :: kept)) with (value_wei d + sum_values kept).
           lia.
        -- intros _. right. discriminate.
        -- intros _. apply Hdom. left. eauto.
      * assert (Hne : a <> r) by now apply String.eqb_neq.
        exists kept.
        rewrite filter_cons_False
          by (unfold goes_to; rewrite Hpass, Ha, Hto; cbn; discriminate).
        unfold stat_of in *.
        rewrite lookup_insert_ne in Htx, Hcount, Htotal, Hdom by exact Hne.
        tauto.
Qed.

(** A loop that went through found a sender that is a string in every
    transaction and a recipient key in every withdrawal. *)
Lemma process_txs_fields (txs : list raw_tx) :
  forall (recipients recipients' : gmap string pool_stat),
    process_txs kind pool txs recipients = Ok recipients' ->
    Forall (fun tx => (exists sender, from_lower tx = Ok sender) /\
                      (passes pool tx = true -> exists a, to_addr tx = Ok a))
      txs.
Proof.
  induction txs as [|tx txs IH]; intros recipients recipients' Hrun;
    [constructor|].
  cbn [process_txs] in Hrun.
  destruct (process_tx kind pool recipients tx) as [mid|e] eqn:Hstep;
    cbn [bind] in Hrun; [|discriminate].
  constructor; [|eapply IH; exact Hrun].
  apply process_tx_inv in Hstep
    as [(Hskip & Hfrom & _)|(d & a & Hpass & Ha & _)].
  - split; [exact Hfrom|]. rewrite Hskip. discriminate.
  - split; [|eauto]. unfold passes in Hpass.
    destruct (from_lower tx); [eauto|discriminate].
Qed.

Lemma process_tx_ok (recipients recipients' : gmap string pool_stat)
    (tx : raw_tx) :
  map_Forall (fun _ s => stat_ok s) recipients ->
  process_tx kind pool recipients tx = Ok recipients' ->
  map_Forall (fun _ s => stat_ok s) recipients'.
Proof.
  intros Hall Hstep.
  apply process_tx_inv in Hstep
    as [(_ & _ & ->)|(d & a & _ & _ & Hd & _ & ->)]; [exact Hall|].
  apply map_Forall_insert_2; [|exact Hall].
  assert (Hold : stat_of recipients a = default_stat \/
                 stat_ok (stat_of recipients a)).
  { unfold stat_of. destruct (recipients !! a) as [s|] eqn:Hs.
    - right. exact (Hall _ _ Hs).
    - now left. }
  destruct Hold as [->|[Hc Ht Hn Hp]].
  - split; cbn; try lia; [discriminate|]. now repeat constructor.
  - split; cbn [count total_wei transactions].
    + rewrite Hc, length_app. cbn. lia.
    + rewrite Ht, sum_values_app. cbn. lia.
    + intros Heq. now apply app_eq_nil in Heq as [_ ?].
    + apply Forall_app. split; [exact Hp|]. now repeat constructor.
Qed.

Lemma process_txs_ok (txs : list raw_tx) :
  forall (recipients recipients' : gmap string pool_stat),
    map_Forall (fun _ s => stat_ok s) recipients ->
    process_txs kind pool txs recipients = Ok recipients' ->
    map_Forall (fun _ s => stat_ok s) recipients'.
Proof.
  induction txs as [|tx txs IH]; intros recipients recipients' Hall Hrun.
  - now injection Hrun as <-.
  - cbn [process_txs] in Hrun.
    destruct (process_tx kind pool recipients tx) as [mid|e] eqn:Hstep;
      cbn [bind] in Hrun; [|discriminate].
    eapply IH; [|exact Hrun]. eapply process_tx_ok; eassumption.
Qed.

End PoolAnalyzer.

Lemma Forall2_elem_of_l {A B : Type} (P : A -> B -> Prop)
    (l : list A) (k : list B) (x : A) :
  Forall2 P l k -> x ∈ l -> exists y, y ∈ k /\ P x y.
Proof.
  induction 1 as [|a b l k Hab _ IH]; intros Hx.
  - now apply elem_of_nil in Hx.
  - apply elem_of_cons in Hx as [->|Hx].
    + exists b. split; [left|exact Hab].
    + destruct (IH Hx) as (y & Hy & Hxy). exists y. split; [now right|exact Hxy].
Qed.

(** [analyze_pool] returns a mapping only when both fetches and both
    loops went through. *)
Lemma analyze_pool_inv (api : EtherscanAPI) (pool_address pool_name : string)
    (start_block end_block : Z) (w w' : world)
    (recipients : gmap string pool_stat) :
  analyze_pool api pool_address pool_name start_block end_block w
    = (Ok recipients, w') ->
  exists internal_txs normal_txs w1 mid,
    get_internal_transactions api (lower pool_address) start_block end_block w
      = (Ok internal_txs, w1) /\
    get_normal_transactions api (lower pool_address) start_block end_block w1
      = (Ok normal_txs, w') /\
    process_txs normal (lower pool_address) normal_txs ∅ = Ok mid /\
    process_txs internal (lower pool_address) internal_txs mid = Ok recipients.
Proof.
  unfold analyze_pool, mbind, lift.
  destruct (get_internal_transactions _ _ _ _ w) as [[internal_txs|e] w1]
    eqn:Hgi; [|discriminate].
  destruct (get_normal_transactions _ _ _ _ w1) as [[normal_txs|e] w2]
    eqn:Hgn; [|discriminate].
  destruct (process_txs normal _ normal_txs ∅) as [mid|e] eqn:Hn;
    cbn [bind]; [|discriminate].
  intros [= Hi <-]. exists internal_txs, normal_txs, w1, mid.
  repeat split; trivial.
Qed.

Lemma analyze_pool_stat_ok (api : EtherscanAPI)
    (pool_address pool_name : string) (start_block end_block : Z)
    (w w' : world) (recipients : gmap string pool_stat) :
  analyze_pool api pool_address pool_name start_block end_block w
    = (Ok recipients, w') ->
  map_Forall (fun _ s => stat_ok s) recipients.
Proof.
  intros (internal_txs & normal_txs & w1 & mid & _ & _ & Hn & Hi)%analyze_pool_inv.
  eapply process_txs_ok; [|exact Hi].
  eapply process_txs_ok; [|exact Hn].
  apply map_Forall_empty.
Qed.

(** C1. Whenever [analyze_pool] returns a mapping, both fetches succeeded
    and, for every recipient [r], the transactions stored under [r] are
    exactly the fetched transactions (the normal ones, then the internal
    ones, each in the order received) whose sender is the pool address up
    to letter case, whose value is strictly positive and whose recipient
    key is [r]; [r] is a key of the mapping exactly when there is such a
    transaction.  A retained transaction without receiver (a null, an
    empty or another false ["to"]) is stored under ["contract_creation"].
    Every fetched transaction has a sender that is a string and every
    retained one a recipient key, so that none is dropped. *)
Theorem analyze_pool_retains_withdrawals (api : EtherscanAPI)
    (pool_address pool_name : string) (start_block end_block : Z)
    (w w' : world) (recipients : gmap string pool_stat) :
  analyze_pool api pool_address pool_name start_block end_block w
    = (Ok recipients, w') ->
  exists internal_txs normal_txs w1,
    get_internal_transactions api (lower pool_address) start_block end_block w
      = (Ok internal_txs, w1) /\
    get_normal_transactions api (lower pool_address) start_block end_block w1
      = (Ok normal_txs, w') /\
    (forall r : string,
       exists kept_normal kept_internal : list tx_detail,
         Forall2 (stored_as normal)
           (withdrawals_to pool_address r normal_txs) kept_normal /\
         Forall2 (stored_as internal)
           (withdrawals_to pool_address r internal_txs) kept_internal /\
         transactions (stat_of recipients r) = kept_normal ++ kept_internal /\
         (is_Some (recipients !! r) <-> kept_normal ++ kept_internal <> [])) /\
    (forall tx : raw_tx,
       tx ∈ normal_txs ++ internal_txs ->
       is_withdrawal pool_address tx = true ->
       (exists v, tx_to tx = Some v /\ truth_of v = false) ->
       exists stat d,
         recipients !! "contract_creation" = Some stat /\
         d ∈ transactions stat /\
         tx_value tx = Some (value_wei d) /\
         tx_timeStamp tx = Some (timestamp d)) /\
    (forall tx : raw_tx,
       tx ∈ normal_txs ++ internal_txs ->
       (exists sender, from_lower tx = Ok sender) /\
       (is_withdrawal pool_address tx = true -> exists r, to_addr tx = Ok r)).
Proof.
  intros (internal_txs & normal_txs & w1 & mid & Hgi & Hgn & Hn & Hi)%analyze_pool_inv.
  exists internal_txs, normal_txs, w1.
  assert (Hall : forall r : string,
    exists kept_normal kept_internal : list tx_detail,
      Forall2 (stored_as normal)
        (withdrawals_to pool_address r normal_txs) kept_normal /\
      Forall2 (stored_as internal)
        (withdrawals_to pool_address r internal_txs) kept_internal /\
      transactions (stat_of recipients r) = kept_normal ++ kept_internal /\
      (is_Some (recipients !! r) <-> kept_normal ++ kept_internal <> [])).
  { intros r.
    destruct (process_txs_inv _ _ _ _ _ Hn r)
      as (kn & Hkn & _ & Htn & _ & _ & Hdn).
    destruct (process_txs_inv _ _ _ _ _ Hi r)
      as (ki & Hki & _ & Hti & _ & _ & Hdi).
    exists kn, ki. repeat split; trivial.
    - rewrite Hti, Htn. reflexivity.
    - intros Hr. apply Hdi in Hr as [Hr|Hr].
      + apply Hdn in Hr as [Hr|Hr].
        * rewrite lookup_empty in Hr. now destruct Hr.
        * intros [? _]%app_eq_nil. contradiction.
      + intros [_ ?]%app_eq_nil. contradiction.
    - intros Hne. apply Hdi.
      destruct ki as [|d ki]; [|right; discriminate].
      left. apply Hdn. right. now rewrite app_nil_r in Hne. }
  split; [exact Hgi|]. split; [exact Hgn|]. split; [exact Hall|]. split.
  2:{ intros tx Htx.
      pose proof (process_txs_fields _ _ _ _ _ Hn) as Fn.
      pose proof (process_txs_fields _ _ _ _ _ Hi) as Fi.
      rewrite Forall_forall in Fn, Fi.
      apply elem_of_app in Htx as [Htx|Htx];
        [exact (Fn tx Htx)|exact (Fi tx Htx)]. }
  intros tx Htx Hw (v & Hto & Hfalse).
  assert (Hkey : to_addr tx = Ok "contract_creation"%string)
    by (unfold to_addr; rewrite Hto; cbn; now rewrite Hfalse).
  destruct (Hall "contract_creation")
    as (kn & ki & Hkn & Hki & Htxs & Hdom).
  assert (Hsel : is_withdrawal pool_address tx &&
                 goes_to "contract_creation" tx = true)
    by (unfold goes_to; rewrite Hw, Hkey; reflexivity).
  assert (Hd : exists d, d ∈ kn ++ ki /\
                 tx_value tx = Some (value_wei d) /\
                 tx_timeStamp tx = Some (timestamp d)).
  { apply elem_of_app in Htx as [Htx|Htx].
    - destruct (Forall2_elem_of_l _ _ _ tx Hkn) as (d & Hd & Hv & Ht & _).
      { apply list_elem_of_filter. split; [exact Hsel|exact Htx]. }
      exists d. split; [apply elem_of_app; now left|]. now split.
    - destruct (Forall2_elem_of_l _ _ _ tx Hki) as (d & Hd & Hv & Ht & _).
      { apply list_elem_of_filter. split; [exact Hsel|exact Htx]. }
      exists d. split; [apply elem_of_app; now right|]. now split. }
  destruct Hd as (d & Hd & Hv & Ht).
  destruct (proj2 Hdom) as [stat Hstat].
  { intros Heq. rewrite Heq in Hd. now apply elem_of_nil in Hd. }
  exists stat, d. unfold stat_of in Htxs. rewrite Hstat in Htxs.
  cbn in Htxs. rewrite Htxs. auto.
Qed.

Lemma analyze_pool_retains_withdrawals_witness :
  analyze_pool Sample.api Sample.pool "10 ETH" 0 99999999 Sample.pool_world
    = (Ok Sample.recipients, snd Sample.pool_run) /\
  exists internal_txs normal_txs w1,
    get_internal_transactions Sample.api (lower Sample.pool) 0 99999999
      Sample.pool_world = (Ok internal_txs, w1) /\
    get_normal_transactions Sample.api (lower Sample.pool) 0 99999999 w1
      = (Ok normal_txs, snd Sample.pool_run) /\
    (forall r : string,
       exists kept_normal kept_internal : list tx_detail,
         Forall2 (stored_as normal)
           (withdrawals_to Sample.pool r normal_txs) kept_normal /\
         Forall2 (stored_as internal)
           (withdrawals_to Sample.pool r internal_txs) kept_internal /\
         transactions (stat_of Sample.recipients r)
           = kept_normal ++ kept_internal /\
         (is_Some (Sample.recipients !! r)
          <-> kept_normal ++ kept_internal <> [])) /\
    (forall tx : raw_tx,
       tx ∈ normal_txs ++ internal_txs ->
       is_withdrawal Sample.pool tx = true ->
       (exists v, tx_to tx = Some v /\ truth_of v = false) ->
       exists stat d,
         Sample.recipients !! "contract_creation" = Some stat /\
         d ∈ transactions stat /\
         tx_value tx = Some (value_wei d) /\
         tx_timeStamp tx = Some (timestamp d)) /\
    (forall tx : raw_tx,
       tx ∈ normal_txs ++ internal_txs ->
       (exists sender, from_lower tx = Ok sender) /\
       (is_withdrawal Sample.pool tx = true -> exists r, to_addr tx = Ok r)).
Proof.
  assert (H : analyze_pool Sample.api Sample.pool "10 ETH" 0 99999999
                Sample.pool_world
              = (Ok Sample.recipients, snd Sample.pool_run))
    by (vm_compute; reflexivity).
  split; [exact H|].
  exact (analyze_pool_retains_withdrawals Sample.api Sample.pool "10 ETH"
           0 99999999 Sample.pool_world (snd Sample.pool_run)
           Sample.recipients H).
Defined.

(** C2. In every entry of the mapping [analyze_pool] returns, ["count"]
    is the length of ["transactions"] and ["total_wei"] is the sum of
    their ["value_wei"]. *)
Theorem analyze_pool_count_and_total (api : EtherscanAPI)
    (pool_address pool_name : string) (start_block end_block : Z)
    (w w' : world) (recipients : gmap string pool_stat)
    (r : string) (stat : pool_stat) :
  analyze_pool api pool_address pool_name start_block end_block w
    = (Ok recipients, w') ->
  recipients !! r = Some stat ->
  count stat = Z.of_nat (length (transactions stat)) /\
  total_wei stat = sum_values (transactions stat).
Proof.
  intros Hrun Hr.
  destruct (analyze_pool_stat_ok _ _ _ _ _ _ _ _ Hrun r stat Hr) as [Hc Ht _ _].
  now split.
Qed.

Lemma analyze_pool_count_and_total_witness :
  analyze_pool Sample.api Sample.pool "10 ETH" 0 99999999 Sample.pool_world
    = (Ok Sample.recipients, snd Sample.pool_run) /\
  Sample.recipients !! "0xaaa" = Some (stat_of Sample.recipients "0xaaa") /\
  count (stat_of Sample.recipients "0xaaa") = 2 /\
  total_wei (stat_of Sample.recipients "0xaaa") = 2 * 10 ^ 19.
Proof.
  assert (H : analyze_pool Sample.api Sample.pool "10 ETH" 0 99999999
                Sample.pool_world
              = (Ok Sample.recipients, snd Sample.pool_run))
    by (vm_compute; reflexivity).
  assert (Hr : Sample.recipients !! "0xaaa"
               = Some (stat_of Sample.recipients "0xaaa"))
    by (vm_compute; reflexivity).
  split; [exact H|]. split; [exact Hr|].
  destruct (analyze_pool_count_and_total Sample.api Sample.pool "10 ETH"
              0 99999999 Sample.pool_world (snd Sample.pool_run)
              Sample.recipients "0xaaa" _ H Hr) as [Hc Ht].
  rewrite Hc, Ht. split; vm_compute; reflexivity.
Defined.

(** ** Minimum and maximum of a list *)

Section MinMax.

Lemma fold_left_min_spec (r : list Z) :
  forall x : Z, is_min (fold_left Z.min r x) (x :: r).
Proof.
  induction r as [|y r IH]; intros x; cbn [fold_left].
  - split; [left|]. intros z Hz. apply list_elem_of_singleton in Hz. lia.
  - destruct (IH (Z.min x y)) as [Hin Hle]. split.
    + apply elem_of_cons in Hin as [Hin|Hin].
      * rewrite Hin. destruct (Z.min_spec x y) as [[_ ->]|[_ ->]];
          [left|right; left].
      * right; right; exact Hin.
    + intros z Hz.
      assert (Hm : fold_left Z.min r (Z.min x y) <= Z.min x y)
        by (apply Hle; left).
      apply elem_of_cons in Hz as [->|Hz]; [lia|].
      apply elem_of_cons in Hz as [->|Hz]; [lia|].
      apply Hle. now right.
Qed.

Lemma fold_left_max_spec (r : list Z) :
  forall x : Z, is_max (fold_left Z.max r x) (x :: r).
Proof.
  induction r as [|y r IH]; intros x; cbn [fold_left].
  - split; [left|]. intros z Hz. apply list_elem_of_singleton in Hz. lia.
  - destruct (IH (Z.max x y)) as [Hin Hle]. split.
    + apply elem_of_cons in Hin as [Hin|Hin].
      * rewrite Hin. destruct (Z.max_spec x y) as [[_ ->]|[_ ->]];
          [right; left|left].
      * right; right; exact Hin.
    + intros z Hz.
      assert (Hm : Z.max x y <= fold_left Z.max r (Z.max x y))
        by (apply Hle; left).
      apply elem_of_cons in Hz as [->|Hz]; [lia|].
      apply elem_of_cons in Hz as [->|Hz]; [lia|].
      apply Hle. now right.
Qed.

Lemma py_min_spec (l : list Z) (m : Z) : py_min l = Ok m -> is_min m l.
Proof.
  destruct l as [|x r]; [discriminate|]. intros [= <-].
  apply fold_left_min_spec.
Qed.

Lemma py_max_spec (l : list Z) (m : Z) : py_max l = Ok m -> is_max m l.
Proof.
  destruct l as [|x r]; [discriminate|]. intros [= <-].
  apply fold_left_max_spec.
Qed.

Lemma is_min_unique (l : list Z) (m m' : Z) :
  is_min m l -> is_min m' l -> m = m'.
Proof. intros [H1 H2] [H3 H4]. apply H2 in H3. apply H4 in H1. lia. Qed.

Lemma is_max_unique (l : list Z) (m m' : Z) :
  is_max m l -> is_max m' l -> m = m'.
Proof. intros [H1 H2] [H3 H4]. apply H2 in H3. apply H4 in H1. lia. Qed.

Lemma is_min_le_is_max (l : list Z) (lo hi : Z) :
  is_min lo l -> is_max hi l -> lo <= hi.
Proof. intros [H1 _] [_ H2]. now apply H2. Qed.

Lemma py_min_perm (l l' : list Z) : l ≡ₚ l' -> py_min l = py_min l'.
Proof.
  intros Hp.
  destruct l as [|x r].
  { apply Permutation_nil_l in Hp. now subst. }
  destruct l' as [|x' r'].
  { now apply Permutation_nil_r in Hp. }
  cbn. f_equal.
  apply (is_min_unique (x :: r)); [apply fold_left_min_spec|].
  destruct (fold_left_min_spec r' x') as [Hin Hle]. split.
  - now rewrite Hp.
  - intros z Hz. apply Hle. now rewrite <- Hp.
Qed.

Lemma py_max_perm (l l' : list Z) : l ≡ₚ l' -> py_max l = py_max l'.
Proof.
  intros Hp.
  destruct l as [|x r].
  { apply Permutation_nil_l in Hp. now subst. }
  destruct l' as [|x' r'].
  { now apply Permutation_nil_r in Hp. }
  cbn. f_equal.
  apply (is_max_unique (x :: r)); [apply fold_left_max_spec|].
  destruct (fold_left_max_spec r' x') as [Hin Hle]. split.
  - now rewrite Hp.
  - intros z Hz. apply Hle. now rewrite <- Hp.
Qed.

Lemma fromtimestamp_posix (t : Z) (d : datetime) :
  fromtimestamp t = Ok d -> d = {| posix := t |}.
Proof. unfold fromtimestamp. case (_ && _); congruence. Qed.

End MinMax.

(** ** The cross-pool merger *)

Section Merger.

Variable selected_pools : list string.
Variable pool_results : gmap string (gmap string pool_stat).

(** What one of the three per-pool blocks leaves in the record. *)
Lemma merge_pool_inv (key addr : string) (f : pool_fields) (ts : list Z) :
  merge_pool key selected_pools pool_results addr = Ok (f, ts) ->
  (key ∈ selected_pools /\
   exists data,
     pool_get pool_results key !! addr = Some data /\
     pf_count f = count data /\
     Float.int_true_divide (total_wei data) WEI_TO_ETH = Ok (pf_total f) /\
     ts = map timestamp (transactions data) /\
     ((ts = [] /\ pf_first_date f = None /\ pf_last_date f = None) \/
      (exists lo hi,
         is_min lo ts /\ is_max hi ts /\
         pf_first_date f = Some {| posix := lo |} /\
         pf_last_date f = Some {| posix := hi |}))) \/
  ((key ∉ selected_pools \/ pool_get pool_results key !! addr = None) /\
   f = initial_fields /\ ts = []).
Proof.
  unfold merge_pool. case_bool_decide as Hsel.
  2:{ intros [= <- <-]. right. auto. }
  destruct (pool_get pool_results key !! addr) as [data|] eqn:Hdata.
  2:{ intros [= <- <-]. right. auto. }
  destruct (Float.int_true_divide (total_wei data) WEI_TO_ETH)
    as [total|e] eqn:Hdiv; cbn [bind]; [|discriminate].
  destruct (transactions data) as [|d ds] eqn:Htxs.
  { intros [= <- <-]. left. split; [exact Hsel|]. exists data.
    rewrite Htxs. cbn. repeat split; trivial. left. auto. }
  set (tss := map timestamp (d :: ds)).
  destruct (py_min tss) as [lo|e] eqn:Hlo; cbn [bind]; [|discriminate].
  destruct (fromtimestamp lo) as [first|e] eqn:Hfirst; cbn [bind];
    [|discriminate].
  destruct (py_max tss) as [hi|e] eqn:Hhi; cbn [bind]; [|discriminate].
  destruct (fromtimestamp hi) as [last|e] eqn:Hlast; cbn [bind];
    [|discriminate].
  intros [= <- <-]. left. split; [exact Hsel|]. exists data.
  rewrite Htxs. cbn. repeat split; trivial. right. exists lo, hi.
  apply py_min_spec in Hlo. apply py_max_spec in Hhi.
  apply fromtimestamp_posix in Hfirst, Hlast. subst first last.
  auto.
Qed.

(** What the body of the merge loop computes for one address. *)
Lemma merge_address_inv (addr : string) (r : merged_record) :
  merge_address selected_pools pool_results addr = Ok r ->
  exists ts1 ts10 ts100 : list Z,
    merge_pool "1_eth" selected_pools pool_results addr
      = Ok (m_1_eth r, ts1) /\
    merge_pool "10_eth" selected_pools pool_results addr
      = Ok (m_10_eth r, ts10) /\
    merge_pool "100_eth" selected_pools pool_results addr
      = Ok (m_100_eth r, ts100) /\
    grand_total r =
      Float.add (Float.add (pf_total (m_1_eth r)) (pf_total (m_10_eth r)))
                (pf_total (m_100_eth r)) /\
    ((ts1 ++ ts10 ++ ts100 = [] /\ first_date r = None /\ last_date r = None) \/
     (exists lo hi,
        is_min lo (ts1 ++ ts10 ++ ts100) /\ is_max hi (ts1 ++ ts10 ++ ts100) /\
        first_date r = Some {| posix := lo |} /\
        last_date r = Some {| posix := hi |})).
Proof.
  unfold merge_address.
  destruct (merge_pool "1_eth" _ _ _) as [[f1 ts1]|e]; cbn [bind];
    [|discriminate].
  destruct (merge_pool "10_eth" _ _ _) as [[f10 ts10]|e]; cbn [bind];
    [|discriminate].
  destruct (merge_pool "100_eth" _ _ _) as [[f100 ts100]|e]; cbn [bind];
    [|discriminate].
  destruct (ts1 ++ ts10 ++ ts100) as [|t ts] eqn:Hall.
  { intros [= <-]. exists ts1, ts10, ts100. rewrite Hall. cbn.
    repeat split; trivial. left. auto. }
  destruct (py_min (t :: ts)) as [lo|e] eqn:Hlo; cbn [bind]; [|discriminate].
  destruct (fromtimestamp lo) as [first|e] eqn:Hfirst; cbn [bind];
    [|discriminate].
  destruct (py_max (t :: ts)) as [hi|e] eqn:Hhi; cbn [bind]; [|discriminate].
  destruct (fromtimestamp hi) as [last|e] eqn:Hlast; cbn [bind];
    [|discriminate].
  intros [= <-]. exists ts1, ts10, ts100. rewrite Hall. cbn.
  repeat split; trivial. right. exists lo, hi.
  apply py_min_spec in Hlo. apply py_max_spec in Hhi.
  apply fromtimestamp_posix in Hfirst, Hlast. subst first last.
  auto.
Qed.

Lemma elem_of_all_addresses_from (pools : list string) :
  forall (acc : gset string) (a : string),
    a ∈ foldl (fun acc pool_key =>
                 acc ∪ dom (pool_get pool_results pool_key)) acc pools <->
    a ∈ acc \/ exists k, k ∈ pools /\ is_Some (pool_get pool_results k !! a).
Proof.
  induction pools as [|k pools IH]; intros acc a; cbn [foldl].
  - split; [auto|]. intros [H|(k & Hk & _)]; [exact H|].
    now apply elem_of_nil in Hk.
  - rewrite IH, elem_of_union, elem_of_dom. split.
    + intros [[H|H]|(k' & Hk' & H)]; eauto.
      * right. exists k. split; [left|exact H].
      * right. exists k'. split; [now right|exact H].
    + intros [H|(k' & Hk' & H)]; [auto|].
      apply elem_of_cons in Hk' as [->|Hk']; eauto.
Qed.

Lemma elem_of_all_addresses (a : string) :
  a ∈ all_addresses selected_pools pool_results <->
  exists k, k ∈ selected_pools /\ is_Some (pool_get pool_results k !! a).
Proof.
  unfold all_addresses. rewrite elem_of_all_addresses_from.
  split; [intros [H|H]; [now apply elem_of_empty in H|exact H]|auto].
Qed.

Lemma merge_addresses_lookup (addrs : list string) :
  forall (merged0 merged : gmap string merged_record) (a : string),
    merge_addresses selected_pools pool_results addrs merged0 = Ok merged ->
    (a ∈ addrs /\
     exists r, merge_address selected_pools pool_results a = Ok r /\
               merged !! a = Some r) \/
    ((a ∉ addrs) /\ merged !! a = merged0 !! a).
Proof.
  induction addrs as [|b addrs IH]; intros merged0 merged a.
  - intros [= <-]. right. split; [apply not_elem_of_nil|reflexivity].
  - cbn [merge_addresses].
    destruct (merge_address selected_pools pool_results b) as [r|e] eqn:Hb;
      cbn [bind]; [|discriminate].
    intros Hrest. destruct (IH _ _ a Hrest) as [[Ha Hr]|[Ha Hm]].
    + left. split; [now right|exact Hr].
    + destruct (decide (a = b)) as [->|Hne].
      * left. split; [left|]. exists r. split; [exact Hb|].
        rewrite Hm. apply lookup_insert_eq.
      * right. split.
        -- intros [?|?]%elem_of_cons; contradiction.
        -- rewrite Hm. now apply lookup_insert_ne.
Qed.

(** The merged mapping has one record per address of the union, the one
    the loop body computes. *)
Lemma merge_results_lookup (merged : gmap string merged_record)
    (a : string) (r : merged_record) :
  merge_results selected_pools pool_results = Ok merged ->
  merged !! a = Some r ->
  (exists k, k ∈ selected_pools /\ is_Some (pool_get pool_results k !! a)) /\
  merge_address selected_pools pool_results a = Ok r.
Proof.
  unfold merge_results. intros Hm Ha.
  destruct (merge_addresses_lookup _ _ _ a Hm) as [[Hin (r' & Hr' & Hl)]|[_ Hl]].
  - rewrite Ha in Hl. injection Hl as <-. split; [|exact Hr'].
    apply elem_of_all_addresses. now apply elem_of_elements.
  - rewrite Ha, lookup_empty in Hl. discriminate.
Qed.

End Merger.

(** ** The loop over the selected pools *)

Section PoolLoop.

Variable api : EtherscanAPI.
Variables start_block end_block : Z.

Lemma analyze_pools_app (pools1 pools2 : list string) :
  forall (pool_results : gmap string (gmap string pool_stat)) (w : world),
    analyze_pools api (pools1 ++ pools2) start_block end_block pool_results w =
    analyze_pools api pools2 start_block end_block
      (fst (analyze_pools api pools1 start_block end_block pool_results w))
      (snd (analyze_pools api pools1 start_block end_block pool_results w)).
Proof.
  induction pools1 as [|k pools1 IH]; intros pool_results w; [reflexivity|].
  cbn [app analyze_pools].
  destruct (TORNADO_CASH_POOLS !! k) as [info|]; [|apply IH].
  destruct (analyze_pool api (address info) (name info) start_block end_block w)
    as [[results|e] w1]; apply IH.
Qed.

Lemma known_pool_keys (k : string) :
  is_Some (TORNADO_CASH_POOLS !! k) -> k ∈ ALL_POOLS.
Proof.
  unfold TORNADO_CASH_POOLS, ALL_POOLS. intros [info Hk].
  rewrite !lookup_insert in Hk. rewrite !elem_of_cons.
  repeat case_decide; auto.
  rewrite lookup_empty in Hk. discriminate.
Qed.

Lemma analyze_pools_keys (pools : list string) :
  forall (pool_results : gmap string (gmap string pool_stat)) (w : world)
         (k : string),
    is_Some (fst (analyze_pools api pools start_block end_block pool_results w)
               !! k) ->
    is_Some (pool_results !! k) \/ (k ∈ pools /\ k ∈ ALL_POOLS).
Proof.
  induction pools as [|p pools IH]; intros pool_results w k; cbn [analyze_pools].
  - auto.
  - assert (Hstep : forall results w1,
      TORNADO_CASH_POOLS !! p <> None ->
      is_Some (fst (analyze_pools api pools start_block end_block
                      (<[p := results]> pool_results) w1) !! k) ->
      is_Some (pool_results !! k) \/ (k ∈ p :: pools /\ k ∈ ALL_POOLS)).
    { intros results w1 Hp [Hk|[Hk1 Hk2]]%IH.
      - destruct (decide (p = k)) as [<-|Hne].
        + right. split; [left|]. apply known_pool_keys.
          now destruct (TORNADO_CASH_POOLS !! p); eauto.
        + left. now rewrite lookup_insert_ne in Hk.
      - right. split; [now right|exact Hk2]. }
    destruct (TORNADO_CASH_POOLS !! p) as [info|] eqn:Hp.
    + destruct (analyze_pool api (address info) (name info)
                  start_block end_block w) as [[results|e] w1];
        apply Hstep; discriminate.
    + intros [Hk|[Hk1 Hk2]]%IH; [now left|].
      right. split; [now right|exact Hk2].
Qed.

Lemma analyze_pools_other (pools : list string) (k : string) :
  k ∉ pools ->
  forall (pool_results : gmap string (gmap string pool_stat)) (w : world),
    fst (analyze_pools api pools start_block end_block pool_results w) !! k
    = pool_results !! k.
Proof.
  induction pools as [|p pools IH]; intros Hk pool_results w;
    cbn [analyze_pools]; [reflexivity|].
  apply not_elem_of_cons in Hk as [Hne Hk].
  destruct (TORNADO_CASH_POOLS !! p) as [info|]; [|now apply IH].
  destruct (analyze_pool api (address info) (name info)
              start_block end_block w) as [[results|e] w1];
    rewrite IH by exact Hk; now apply lookup_insert_ne.
Qed.

Lemma analyze_pools_ok (pools : list string) :
  forall (pool_results : gmap string (gmap string pool_stat)) (w : world),
    pools_ok pool_results ->
    pools_ok (fst (analyze_pools api pools start_block end_block
                     pool_results w)).
Proof.
  induction pools as [|p pools IH]; intros pool_results w Hok;
    cbn [analyze_pools]; [exact Hok|].
  destruct (TORNADO_CASH_POOLS !! p) as [info|]; [|now apply IH].
  destruct (analyze_pool api (address info) (name info)
              start_block end_block w) as [[results|e] w1] eqn:Hrun;
    apply IH; apply map_Forall_insert_2; trivial.
  - eapply analyze_pool_stat_ok. exact Hrun.
  - apply map_Forall_empty.
Qed.

End PoolLoop.

(** What a successful run of [analyze_tornado_cash] went through. *)
Lemma analyze_tornado_cash_inv (key : string) (start_date end_date : option Z)
    (selected_pools : option (list string)) (w w' : world)
    (merged : gmap string merged_record) :
  analyze_tornado_cash key start_date end_date selected_pools w
    = (Ok merged, w') ->
  exists pool_results,
    pool_results_of_run key start_date end_date selected_pools w
      = Some pool_results /\
    merge_results (default ALL_POOLS selected_pools) pool_results
      = Ok merged /\
    pools_ok pool_results /\
    (forall k, is_Some (pool_results !! k) ->
               k ∈ default ALL_POOLS selected_pools /\ k ∈ ALL_POOLS).
Proof.
  unfold analyze_tornado_cash, pool_results_of_run, mbind.
  destruct (resolve_blocks (new_api key) start_date end_date w)
    as [[blocks|e] w1]; [|discriminate].
  pose proof (analyze_pools_ok (new_api key) (fst blocks) (snd blocks)
                (default ALL_POOLS selected_pools) ∅ w1) as Hok.
  pose proof (analyze_pools_keys (new_api key) (fst blocks) (snd blocks)
                (default ALL_POOLS selected_pools) ∅ w1) as Hkeys.
  destruct (analyze_pools _ _ _ _ ∅ w1) as [pool_results w2].
  cbn [fst snd] in *. intros [= Hm <-].
  exists pool_results.
  split; [reflexivity|]. split; [exact Hm|].
  split; [apply Hok, map_Forall_empty|].
  intros k Hk. destruct (Hkeys k Hk) as [Hk'|Hk']; [|exact Hk'].
  rewrite lookup_empty in Hk'. now destruct Hk'.
Qed.

(** ** Records of a run

    The [pool_results] of a run hold entries built by [analyze_pool]
    only, under selected keys of [TORNADO_CASH_POOLS] only. *)

Section RunRecords.

Variable selected_pools : list string.
Variable pool_results : gmap string (gmap string pool_stat).
Hypothesis Hok : pools_ok pool_results.
Hypothesis Hkeys :
  forall k, is_Some (pool_results !! k) -> k ∈ selected_pools /\ k ∈ ALL_POOLS.

Lemma pool_get_inv (k a : string) (stat : pool_stat) :
  pool_get pool_results k !! a = Some stat ->
  stat_ok stat /\ k ∈ selected_pools /\ k ∈ ALL_POOLS.
Proof.
  unfold pool_get. destruct (pool_results !! k) as [m|] eqn:Hk; cbn.
  - intros Ha. split; [exact (Hok k m Hk a stat Ha)|]. apply Hkeys. eauto.
  - rewrite lookup_empty. discriminate.
Qed.

Lemma sum_values_pos (l : list tx_detail) :
  l <> [] -> Forall (fun d => 0 < value_wei d) l -> 0 < sum_values l.
Proof.
  intros Hne Hpos. destruct l as [|d l]; [contradiction|].
  apply Forall_cons in Hpos as [Hd Hl]. clear Hne.
  change (0 < value_wei d + sum_values l).
  assert (0 <= sum_values l); [|lia].
  induction Hl as [|d' l' Hd' _ IH]; [cbn; lia|].
  change (0 <= value_wei d' + sum_values l'). lia.
Qed.

Lemma merge_pool_view (k a : string) (f : pool_fields) (ts : list Z) :
  merge_pool k selected_pools pool_results a = Ok (f, ts) ->
  pool_view selected_pools pool_results k a f ts.
Proof.
  intros [(Hsel & data & Hdata & Hcount & Hdiv & Hts & Hdates)|
          (Hnone & -> & ->)]%merge_pool_inv; unfold pool_view, timestamps_in,
    stat_of.
  - rewrite Hdata. cbn [default from_option id]. split; [exact Hts|].
    destruct (pool_get_inv _ _ _ Hdata) as (Hstat & _ & _).
    pose proof Hstat as [Hc Ht Hne Hpos].
    split; [exact Hsel|]. split; [exact Hstat|]. split; [exact Hcount|].
    split; [exact Hdiv|]. split.
    + apply (FloatFacts.int_true_divide_wei_positive (total_wei data));
        [|exact Hdiv].
      rewrite Ht. now apply sum_values_pos.
    + destruct Hdates as [(Hnil & _)|Hdates]; [|exact Hdates].
      rewrite Hts in Hnil. apply map_eq_nil in Hnil. contradiction.
  - assert (Hnone' : pool_get pool_results k !! a = None).
    { destruct Hnone as [Hsel|Hnone]; [|exact Hnone].
      destruct (pool_get pool_results k !! a) as [stat|] eqn:Hstat;
        [|reflexivity].
      apply pool_get_inv in Hstat as (_ & Hin & _). contradiction. }
    rewrite Hnone'. auto.
Qed.

(** The record of an address of the union: the views of the three pools,
    the grand total, and the overall dates. *)
Lemma merge_address_view (a : string) (r : merged_record) :
  merge_address selected_pools pool_results a = Ok r ->
  exists ts1 ts10 ts100 : list Z,
    pool_view selected_pools pool_results "1_eth" a (m_1_eth r) ts1 /\
    pool_view selected_pools pool_results "10_eth" a (m_10_eth r) ts10 /\
    pool_view selected_pools pool_results "100_eth" a (m_100_eth r) ts100 /\
    grand_total r =
      Float.add (Float.add (pf_total (m_1_eth r)) (pf_total (m_10_eth r)))
                (pf_total (m_100_eth r)) /\
    ((ts1 ++ ts10 ++ ts100 = [] /\ first_date r = None /\ last_date r = None) \/
     (exists lo hi,
        is_min lo (ts1 ++ ts10 ++ ts100) /\ is_max hi (ts1 ++ ts10 ++ ts100) /\
        first_date r = Some {| posix := lo |} /\
        last_date r = Some {| posix := hi |})).
Proof.
  intros (ts1 & ts10 & ts100 & H1 & H10 & H100 & Hgt & Hdates)%merge_address_inv.
  exists ts1, ts10, ts100.
  repeat (split; [now apply merge_pool_view|]). split; [exact Hgt|exact Hdates].
Qed.

Lemma pool_view_nonneg (k a : string) (f : pool_fields) (ts : list Z) :
  pool_view selected_pools pool_results k a f ts ->
  Float.is_nonneg (pf_total f).
Proof.
  intros [_ Hv]. destruct (pool_get pool_results k !! a).
  - right. tauto.
  - destruct Hv as [-> _]. now left.
Qed.

Lemma pool_view_present (k a : string) (f : pool_fields) (ts : list Z) :
  pool_view selected_pools pool_results k a f ts ->
  is_Some (pool_get pool_results k !! a) ->
  Float.is_positive (pf_total f) /\ ts <> [].
Proof.
  intros [_ Hv] [stat Hstat]. rewrite Hstat in Hv.
  destruct Hv as (_ & _ & _ & _ & Hp & lo & _ & [Hlo _] & _).
  split; [exact Hp|]. intros ->. now apply elem_of_nil in Hlo.
Qed.

Lemma pool_view_absent (k a : string) (f : pool_fields) (ts : list Z) :
  pool_view selected_pools pool_results k a f ts ->
  pool_get pool_results k !! a = None ->
  f = initial_fields /\ ts = [].
Proof. intros [_ Hv] Hnone. now rewrite Hnone in Hv. Qed.

End RunRecords.

(** ** Properties of the merged mapping *)

Lemma elem_of_ALL_POOLS (k : string) :
  k ∈ ALL_POOLS -> k = "1_eth" \/ k = "10_eth" \/ k = "100_eth".
Proof.
  unfold ALL_POOLS. rewrite !elem_of_cons, elem_of_nil. tauto.
Qed.

(** The overall dates of a record of a run are set, the first not after
    the last. *)
Lemma merged_recipient_dates_set (key : string)
    (start_date end_date : option Z) (selected_pools : option (list string))
    (w w' : world) (merged : gmap string merged_record)
    (a : string) (r : merged_record) :
  analyze_tornado_cash key start_date end_date selected_pools w
    = (Ok merged, w') ->
  merged !! a = Some r ->
  exists first last,
    first_date r = Some first /\ last_date r = Some last /\
    posix first <= posix last.
Proof.
  intros (pool_results & Hrun & Hm & Hok & Hkeys)%analyze_tornado_cash_inv Ha.
  destruct (merge_results_lookup _ _ _ _ _ Hm Ha) as [(k & Hk & stat & Hstat) Hr].
  destruct (pool_get_inv _ _ Hok Hkeys _ _ _ Hstat) as (_ & _ & Hall).
  destruct (merge_address_view _ _ Hok Hkeys _ _ Hr)
    as (ts1 & ts10 & ts100 & V1 & V10 & V100 & Hgt & Hdates).
  destruct Hdates as [(Hnil & _)|(lo & hi & Hlo & Hhi & -> & ->)].
  - exfalso.
    apply app_eq_nil in Hnil as [H1 [H10 H100]%app_eq_nil].
    apply elem_of_ALL_POOLS in Hall as [->|[->| ->]].
    + now destruct (pool_view_present _ _ _ _ _ _ V1 (mk_is_Some _ _ Hstat)).
    + now destruct (pool_view_present _ _ _ _ _ _ V10 (mk_is_Some _ _ Hstat)).
    + now destruct (pool_view_present _ _ _ _ _ _ V100 (mk_is_Some _ _ Hstat)).
  - exists {| posix := lo |}, {| posix := hi |}.
    repeat split. cbn. eapply is_min_le_is_max; eassumption.
Qed.

Lemma pool_view_dates (selected_pools : list string)
    (pool_results : gmap string (gmap string pool_stat))
    (k a : string) (f : pool_fields) (ts : list Z) :
  pool_view selected_pools pool_results k a f ts ->
  (timestamps_in pool_results k a = [] ->
   pf_first_date f = None /\ pf_last_date f = None) /\
  (timestamps_in pool_results k a <> [] ->
   exists lo hi,
     is_min lo (timestamps_in pool_results k a) /\
     is_max hi (timestamps_in pool_results k a) /\
     pf_first_date f = Some {| posix := lo |} /\
     pf_last_date f = Some {| posix := hi |}).
Proof.
  intros [Hts Hv]. rewrite <- Hts.
  destruct (pool_get pool_results k !! a) as [stat|].
  - destruct Hv as (_ & _ & _ & _ & _ & lo & hi & Hlo & Hhi & Hf & Hl).
    split; [|intros _; exists lo, hi; auto].
    intros Hnil. rewrite Hnil in Hlo. destruct Hlo as [Hlo _].
    now apply elem_of_nil in Hlo.
  - destruct Hv as [-> ->]. split; [auto|]. intros Hne. now contradiction Hne.
Qed.

(** C4. In every record of the mapping [analyze_tornado_cash] returns,
    the first and last date of each pool are the least and the greatest
    timestamp of the transactions that pool holds for the recipient, and
    are null when it holds none; the overall [first_date] and [last_date]
    are the least and the greatest of all these timestamps.  For a
    recipient that has transactions in the 10 ETH pool only, the dates of
    the 1 ETH and 100 ETH pools are null and the overall dates are set
    and equal to the dates of the 10 ETH pool. *)
Theorem merged_dates_are_min_max (key : string)
    (start_date end_date : option Z) (selected_pools : option (list string))
    (w w' : world) (merged : gmap string merged_record)
    (a : string) (r : merged_record) :
  analyze_tornado_cash key start_date end_date selected_pools w
    = (Ok merged, w') ->
  merged !! a = Some r ->
  exists pool_results,
    pool_results_of_run key start_date end_date selected_pools w
      = Some pool_results /\
    (forall k f,
       (k, f) ∈ pool_fields_of r ->
       (timestamps_in pool_results k a = [] ->
        pf_first_date f = None /\ pf_last_date f = None) /\
       (timestamps_in pool_results k a <> [] ->
        exists lo hi,
          is_min lo (timestamps_in pool_results k a) /\
          is_max hi (timestamps_in pool_results k a) /\
          pf_first_date f = Some {| posix := lo |} /\
          pf_last_date f = Some {| posix := hi |})) /\
    (exists lo hi,
       is_min lo (timestamps_in pool_results "1_eth" a ++
                  timestamps_in pool_results "10_eth" a ++
                  timestamps_in pool_results "100_eth" a) /\
       is_max hi (timestamps_in pool_results "1_eth" a ++
                  timestamps_in pool_results "10_eth" a ++
                  timestamps_in pool_results "100_eth" a) /\
       first_date r = Some {| posix := lo |} /\
       last_date r = Some {| posix := hi |}) /\
    (timestamps_in pool_results "1_eth" a = [] ->
     timestamps_in pool_results "100_eth" a = [] ->
     pf_first_date (m_1_eth r) = None /\ pf_last_date (m_1_eth r) = None /\
     pf_first_date (m_100_eth r) = None /\ pf_last_date (m_100_eth r) = None /\
     is_Some (first_date r) /\ is_Some (last_date r) /\
     first_date r = pf_first_date (m_10_eth r) /\
     last_date r = pf_last_date (m_10_eth r)).
Proof.
  intros Hrun Ha.
  destruct (merged_recipient_dates_set _ _ _ _ _ _ _ _ _ Hrun Ha)
    as (first & last & Hfirst & Hlast & _).
  apply analyze_tornado_cash_inv in Hrun
    as (pool_results & Hrun & Hm & Hok & Hkeys).
  exists pool_results. split; [exact Hrun|].
  destruct (merge_results_lookup _ _ _ _ _ Hm Ha) as [_ Hr].
  destruct (merge_address_view _ _ Hok Hkeys _ _ Hr)
    as (ts1 & ts10 & ts100 & V1 & V10 & V100 & _ & Hdates).
  pose proof (pool_view_dates _ _ _ _ _ _ V1) as [D1n D1s].
  pose proof (pool_view_dates _ _ _ _ _ _ V10) as [D10n D10s].
  pose proof (pool_view_dates _ _ _ _ _ _ V100) as [D100n D100s].
  destruct V1 as [-> _], V10 as [-> _], V100 as [-> _].
  destruct Hdates as [(_ & Hf & _)|(lo & hi & Hlo & Hhi & Hf & Hl)];
    [congruence|].
  split; [|split].
  - intros k f. unfold pool_fields_of. rewrite !elem_of_cons, elem_of_nil.
    intros [[= -> ->]|[[= -> ->]|[[= -> ->]|[]]]]; auto.
  - exists lo, hi. auto.
  - intros H1 H100. rewrite H1, H100, app_nil_r in Hlo, Hhi. cbn in Hlo, Hhi.
    destruct (D1n H1) as [-> ->]. destruct (D100n H100) as [-> ->].
    destruct D10s as (lo' & hi' & Hlo' & Hhi' & Hf' & Hl').
    { intros H10. rewrite H10 in Hlo. destruct Hlo as [Hlo _].
      now apply elem_of_nil in Hlo. }
    rewrite Hf, Hl, Hf', Hl'.
    rewrite (is_min_unique _ _ _ Hlo Hlo'), (is_max_unique _ _ _ Hhi Hhi').
    repeat split; eauto.
Qed.

(** Adding the three per-pool totals is adding those of the pools that
    satisfy [P], when the other totals are [0.0]. *)
Lemma grand_total_float_sum (P : string * pool_fields -> Prop)
    `{forall x, Decision (P x)} (r : merged_record) :
  (forall kf, kf ∈ pool_fields_of r -> Float.is_nonneg (pf_total (snd kf))) ->
  (forall kf, kf ∈ pool_fields_of r -> ~ P kf ->
              pf_total (snd kf) = Float.zero) ->
  Float.add (Float.add (pf_total (m_1_eth r)) (pf_total (m_10_eth r)))
            (pf_total (m_100_eth r)) =
  float_sum (map (fun kf => pf_total (snd kf))
               (filter P (pool_fields_of r))).
Proof.
  intros Hnn Hzero. unfold pool_fields_of in *.
  assert (N1 := Hnn ("1_eth", m_1_eth r)).
  assert (N10 := Hnn ("10_eth", m_10_eth r)).
  assert (N100 := Hnn ("100_eth", m_100_eth r)).
  assert (Z1 := Hzero ("1_eth", m_1_eth r)).
  assert (Z10 := Hzero ("10_eth", m_10_eth r)).
  assert (Z100 := Hzero ("100_eth", m_100_eth r)).
  rewrite !elem_of_cons in N1, N10, N100, Z1, Z10, Z100.
  cbn [snd] in *.
  assert (N1' := N1 ltac:(auto)). assert (N10' := N10 ltac:(auto)).
  assert (N100' := N100 ltac:(auto)).
  clear N1 N10 N100 Hnn Hzero.
  destruct (decide (P ("1_eth", m_1_eth r))) as [P1|P1];
    [rewrite filter_cons_True by exact P1
    |rewrite filter_cons_False by exact P1; rewrite (Z1 ltac:(auto) P1) in *];
  (destruct (decide (P ("10_eth", m_10_eth r))) as [P10|P10];
    [rewrite filter_cons_True by exact P10
    |rewrite filter_cons_False by exact P10;
     rewrite (Z10 ltac:(auto) P10) in *]);
  (destruct (decide (P ("100_eth", m_100_eth r))) as [P100|P100];
    [rewrite filter_cons_True by exact P100
    |rewrite filter_cons_False by exact P100;
     rewrite (Z100 ltac:(auto) P100) in *]);
  rewrite filter_nil; unfold float_sum; cbn [map fold_left snd];
  repeat (rewrite ?FloatFacts.add_zero_l, ?FloatFacts.add_zero_r
            by auto using FloatFacts.add_nonneg);
  reflexivity.
Qed.

(** The three views of a record of a run, by pool key. *)
Lemma merged_record_views (key : string)
    (start_date end_date : option Z) (selected_pools : option (list string))
    (w w' : world) (merged : gmap string merged_record)
    (a : string) (r : merged_record) :
  analyze_tornado_cash key start_date end_date selected_pools w
    = (Ok merged, w') ->
  merged !! a = Some r ->
  exists pool_results,
    pool_results_of_run key start_date end_date selected_pools w
      = Some pool_results /\
    (forall k f, (k, f) ∈ pool_fields_of r ->
       exists ts, pool_view (default ALL_POOLS selected_pools) pool_results
                    k a f ts) /\
    grand_total r =
      Float.add (Float.add (pf_total (m_1_eth r)) (pf_total (m_10_eth r)))
                (pf_total (m_100_eth r)).
Proof.
  intros (pool_results & Hrun & Hm & Hok & Hkeys)%analyze_tornado_cash_inv Ha.
  exists pool_results. split; [exact Hrun|].
  destruct (merge_results_lookup _ _ _ _ _ Hm Ha) as [_ Hr].
  destruct (merge_address_view _ _ Hok Hkeys _ _ Hr)
    as (ts1 & ts10 & ts100 & V1 & V10 & V100 & Hgt & _).
  split; [|exact Hgt].
  intros k f. unfold pool_fields_of. rewrite !elem_of_cons, elem_of_nil.
  intros [[= -> ->]|[[= -> ->]|[[= -> ->]|[]]]]; eauto.
Qed.

(** C3. In every record of the mapping [analyze_tornado_cash] returns,
    the total of a pool the recipient is present in is the recipient's
    wei total in that pool divided by 10^18, and [grand_total] is the
    floating-point sum of the three per-pool totals, which is the
    floating-point sum (in pool order) of the totals of the pools the
    recipient is present in. *)
Theorem grand_total_is_sum_of_present_pools (key : string)
    (start_date end_date : option Z) (selected_pools : option (list string))
    (w w' : world) (merged : gmap string merged_record)
    (a : string) (r : merged_record) :
  analyze_tornado_cash key start_date end_date selected_pools w
    = (Ok merged, w') ->
  merged !! a = Some r ->
  exists pool_results,
    pool_results_of_run key start_date end_date selected_pools w
      = Some pool_results /\
    (forall k f stat,
       (k, f) ∈ pool_fields_of r ->
       pool_get pool_results k !! a = Some stat ->
       Float.int_true_divide (total_wei stat) WEI_TO_ETH = Ok (pf_total f)) /\
    grand_total r =
      float_sum (map (fun kf => pf_total (snd kf)) (pool_fields_of r)) /\
    grand_total r =
      float_sum (map (fun kf => pf_total (snd kf))
                   (filter (fun kf =>
                              is_Some (pool_get pool_results (fst kf) !! a))
                      (pool_fields_of r))).
Proof.
  intros Hrun Ha.
  destruct (merged_record_views _ _ _ _ _ _ _ _ _ Hrun Ha)
    as (pool_results & Hpr & Hviews & Hgt).
  exists pool_results. split; [exact Hpr|].
  assert (Hnn : forall kf, kf ∈ pool_fields_of r ->
                           Float.is_nonneg (pf_total (snd kf))).
  { intros [k f] Hkf. destruct (Hviews k f Hkf) as [ts V].
    eapply pool_view_nonneg. exact V. }
  split; [|split].
  - intros k f stat Hkf Hstat. destruct (Hviews k f Hkf) as [ts [_ V]].
    rewrite Hstat in V. tauto.
  - rewrite Hgt.
    rewrite (grand_total_float_sum (fun _ => True) r Hnn) by tauto.
    reflexivity.
  - rewrite Hgt. apply grand_total_float_sum; [exact Hnn|].
    intros [k f] Hkf Habsent. destruct (Hviews k f Hkf) as [ts V].
    cbn [fst snd] in *.
    destruct (pool_view_absent _ _ _ _ _ _ V) as [-> _]; [|reflexivity].
    destruct (pool_get pool_results k !! a) eqn:Hl; [|reflexivity].
    contradiction Habsent. eauto.
Qed.

(** C10. In every record of the mapping [analyze_tornado_cash] returns,
    the fields of a pool that is not selected are as initialised (count
    0, total 0.0, no dates), and [grand_total], the sum of all three
    per-pool totals, is the floating-point sum of the totals of the
    selected pools. *)
Theorem unselected_pools_keep_initial_fields (key : string)
    (start_date end_date : option Z) (selected_pools : option (list string))
    (w w' : world) (merged : gmap string merged_record)
    (a : string) (r : merged_record) :
  analyze_tornado_cash key start_date end_date selected_pools w
    = (Ok merged, w') ->
  merged !! a = Some r ->
  (forall k f,
     (k, f) ∈ pool_fields_of r ->
     k ∉ default ALL_POOLS selected_pools ->
     f = {| pf_count := 0; pf_total := Float.zero;
            pf_first_date := None; pf_last_date := None |}) /\
  grand_total r =
    Float.add (Float.add (pf_total (m_1_eth r)) (pf_total (m_10_eth r)))
              (pf_total (m_100_eth r)) /\
  grand_total r =
    float_sum (map (fun kf => pf_total (snd kf))
                 (filter (fun kf => fst kf ∈ default ALL_POOLS selected_pools)
                    (pool_fields_of r))).
Proof.
  intros Hrun Ha.
  destruct (merged_record_views _ _ _ _ _ _ _ _ _ Hrun Ha)
    as (pool_results & Hpr & Hviews & Hgt).
  assert (Hinit : forall k f,
            (k, f) ∈ pool_fields_of r ->
            k ∉ default ALL_POOLS selected_pools -> f = initial_fields).
  { intros k f Hkf Hk. destruct (Hviews k f Hkf) as [ts V].
    destruct (pool_view_absent _ _ _ _ _ _ V) as [-> _]; [|reflexivity].
    destruct V as [_ V].
    destruct (pool_get pool_results k !! a) eqn:Hl; [|reflexivity].
    destruct V as [Hin _]. contradiction. }
  split; [exact Hinit|]. split; [exact Hgt|].
  rewrite Hgt. apply grand_total_float_sum.
  - intros [k f] Hkf. destruct (Hviews k f Hkf) as [ts V].
    eapply pool_view_nonneg. exact V.
  - intros [k f] Hkf Hk. cbn [fst snd] in *.
    now rewrite (Hinit k f Hkf Hk).
Qed.

(** ** Failures *)

(** C6. An exception out of [get_block_by_timestamp], for the start date
    or for the end date, is the outcome of [analyze_tornado_cash].  An
    exception out of [analyze_pool] for a selected pool [k] is not: with
    the pools listed before [k] analysed, [pool_results[k]] becomes the
    empty mapping, the pools listed after [k] are analysed from the world
    the failure left, and the outcome is that of the merge of these
    results. *)
Theorem pool_failure_degrades_to_empty (key : string)
    (start_date end_date : option Z) (selected_pools : option (list string))
    (w : world) :
  (forall ts e w1,
     start_date = Some ts ->
     get_block_by_timestamp (new_api key) ts "after" w = (Err e, w1) ->
     analyze_tornado_cash key start_date end_date selected_pools w
       = (Err e, w1)) /\
  (forall ts e w0 w1,
     end_date = Some ts ->
     (start_date = None /\ w0 = w \/
      exists ts0 start_block,
        start_date = Some ts0 /\
        get_block_by_timestamp (new_api key) ts0 "after" w
          = (Ok start_block, w0)) ->
     get_block_by_timestamp (new_api key) ts "before" w0 = (Err e, w1) ->
     analyze_tornado_cash key start_date end_date selected_pools w
       = (Err e, w1)) /\
  (forall blocks w1 before k after info e w3,
     resolve_blocks (new_api key) start_date end_date w = (Ok blocks, w1) ->
     default ALL_POOLS selected_pools = before ++ k :: after ->
     TORNADO_CASH_POOLS !! k = Some info ->
     let done :=
       analyze_pools (new_api key) before (fst blocks) (snd blocks) ∅ w1 in
     analyze_pool (new_api key) (address info) (name info)
       (fst blocks) (snd blocks) (snd done) = (Err e, w3) ->
     let rest :=
       analyze_pools (new_api key) after (fst blocks) (snd blocks)
         (<[k := ∅]> (fst done)) w3 in
     analyze_tornado_cash key start_date end_date selected_pools w
       = (merge_results (default ALL_POOLS selected_pools) (fst rest),
          snd rest) /\
     (k ∉ after -> fst rest !! k = Some ∅)).
Proof.
  split; [|split].
  - intros ts e w1 -> Hstart.
    unfold analyze_tornado_cash, resolve_blocks, mbind. now rewrite Hstart.
  - intros ts e w0 w1 -> Hstart Hend.
    unfold analyze_tornado_cash, resolve_blocks, mbind.
    destruct Hstart as [[-> ->]|(ts0 & start_block & -> & Hstart)].
    + unfold ret. now rewrite Hend.
    + now rewrite Hstart, Hend.
  - intros blocks w1 before k after info e w3 Hblocks Hsel Hk done Hfail rest.
    unfold analyze_tornado_cash, mbind. rewrite Hblocks.
    rewrite Hsel at 1. rewrite analyze_pools_app. fold done.
    cbn [analyze_pools]. rewrite Hk, Hfail. fold rest.
    split; [now destruct rest|].
    intros Hnot. unfold rest. rewrite analyze_pools_other by exact Hnot.
    apply lookup_insert_eq.
Qed.

(** ** Determinism of the merge *)

Section Determinism.

Variables selected1 selected2 : list string.
Variables pool_results1 pool_results2 : gmap string (gmap string pool_stat).
Hypothesis Hsel : forall k, k ∈ selected1 <-> k ∈ selected2.
Hypothesis Hok1 : pools_ok pool_results1.
Hypothesis Hok2 : pools_ok pool_results2.
Hypothesis Hsame : same_transaction_sets pool_results1 pool_results2.

Lemma sum_values_perm (l1 l2 : list tx_detail) :
  l1 ≡ₚ l2 -> sum_values l1 = sum_values l2.
Proof.
  induction 1 as [|d l1 l2 _ IH|d d' l|l1 l2 l3 _ IH1 _ IH2];
    unfold sum_values in *; cbn; lia.
Qed.

Lemma pool_get_ok (pool_results : gmap string (gmap string pool_stat))
    (k a : string) (stat : pool_stat) :
  pools_ok pool_results ->
  pool_get pool_results k !! a = Some stat -> stat_ok stat.
Proof.
  intros Hok. unfold pool_get.
  destruct (pool_results !! k) as [m|] eqn:Hk; cbn.
  - intros Ha. exact (Hok k m Hk a stat Ha).
  - rewrite lookup_empty. discriminate.
Qed.

Lemma lookup_same (k a : string) :
  match pool_get pool_results1 k !! a, pool_get pool_results2 k !! a with
  | Some s1, Some s2 =>
      count s1 = count s2 /\ total_wei s1 = total_wei s2 /\
      transactions s1 ≡ₚ transactions s2 /\
      transactions s1 <> [] /\ transactions s2 <> []
  | None, None => True
  | _, _ => False
  end.
Proof.
  pose proof (Hsame k a) as Hp. unfold stat_of in Hp.
  destruct (pool_get pool_results1 k !! a) as [s1|] eqn:H1;
    destruct (pool_get pool_results2 k !! a) as [s2|] eqn:H2;
    cbn in Hp; trivial.
  - destruct (pool_get_ok _ _ _ _ Hok1 H1) as [Hc1 Ht1 Hn1 _].
    destruct (pool_get_ok _ _ _ _ Hok2 H2) as [Hc2 Ht2 Hn2 _].
    repeat split; trivial.
    + rewrite Hc1, Hc2. now rewrite Hp.
    + rewrite Ht1, Ht2. now apply sum_values_perm.
  - destruct (pool_get_ok _ _ _ _ Hok1 H1) as [_ _ Hn1 _].
    now apply Permutation_nil_r in Hp.
  - destruct (pool_get_ok _ _ _ _ Hok2 H2) as [_ _ Hn2 _].
    symmetry in Hp. now apply Permutation_nil_r in Hp.
Qed.

Lemma merge_pool_perm (k a : string) :
  same_pool_block (merge_pool k selected1 pool_results1 a)
                  (merge_pool k selected2 pool_results2 a).
Proof.
  unfold merge_pool.
  rewrite (bool_decide_ext _ _ (Hsel k)).
  case_bool_decide; [|cbn; auto].
  pose proof (lookup_same k a) as Hl.
  destruct (pool_get pool_results1 k !! a) as [s1|];
    destruct (pool_get pool_results2 k !! a) as [s2|];
    try contradiction; [|cbn; auto].
  destruct Hl as (Hc & Ht & Hp & Hn1 & Hn2). rewrite Hc, Ht.
  destruct (Float.int_true_divide (total_wei s2) WEI_TO_ETH) as [total|e];
    cbn [bind]; [|reflexivity].
  assert (Hts : map timestamp (transactions s1) ≡ₚ
                map timestamp (transactions s2)) by now apply fmap_Permutation.
  destruct (transactions s1) as [|d1 ds1]; [contradiction|].
  destruct (transactions s2) as [|d2 ds2]; [contradiction|].
  rewrite (py_min_perm _ _ Hts), (py_max_perm _ _ Hts).
  destruct (py_min (map timestamp (d2 :: ds2))) as [lo|e]; cbn [bind];
    [|reflexivity].
  destruct (fromtimestamp lo) as [first|e]; cbn [bind]; [|reflexivity].
  destruct (py_max (map timestamp (d2 :: ds2))) as [hi|e]; cbn [bind];
    [|reflexivity].
  destruct (fromtimestamp hi) as [last|e]; cbn [bind]; [|reflexivity].
  split; [reflexivity|exact Hts].
Qed.

Lemma merge_address_perm (a : string) :
  merge_address selected1 pool_results1 a =
  merge_address selected2 pool_results2 a.
Proof.
  unfold merge_address.
  pose proof (merge_pool_perm "1_eth" a) as H1.
  pose proof (merge_pool_perm "10_eth" a) as H10.
  pose proof (merge_pool_perm "100_eth" a) as H100.
  unfold same_pool_block in *.
  destruct (merge_pool "1_eth" selected1 _ _) as [[f1 ts1]|e1];
    destruct (merge_pool "1_eth" selected2 _ _) as [[f1' ts1']|e1'];
    try contradiction; cbn [bind]; [|congruence].
  destruct H1 as [<- P1].
  destruct (merge_pool "10_eth" selected1 _ _) as [[f10 ts10]|e10];
    destruct (merge_pool "10_eth" selected2 _ _) as [[f10' ts10']|e10'];
    try contradiction; cbn [bind]; [|congruence].
  destruct H10 as [<- P10].
  destruct (merge_pool "100_eth" selected1 _ _) as [[f100 ts100]|e100];
    destruct (merge_pool "100_eth" selected2 _ _) as [[f100' ts100']|e100'];
    try contradiction; cbn [bind]; [|congruence].
  destruct H100 as [<- P100].
  assert (Hall : ts1 ++ ts10 ++ ts100 ≡ₚ ts1' ++ ts10' ++ ts100')
    by now rewrite P1, P10, P100.
  destruct (ts1 ++ ts10 ++ ts100) as [|t ts];
    destruct (ts1' ++ ts10' ++ ts100') as [|t' ts'].
  - reflexivity.
  - symmetry in Hall. now apply Permutation_nil_r in Hall.
  - now apply Permutation_nil_r in Hall.
  - now rewrite (py_min_perm _ _ Hall), (py_max_perm _ _ Hall).
Qed.

Lemma all_addresses_perm :
  all_addresses selected1 pool_results1 = all_addresses selected2 pool_results2.
Proof.
  apply set_eq. intros a. rewrite !elem_of_all_addresses.
  split; intros (k & Hk & Hs); exists k; pose proof (lookup_same k a) as Hl;
    (split; [now apply Hsel|]);
    destruct (pool_get pool_results1 k !! a), (pool_get pool_results2 k !! a);
    try contradiction; eauto; now destruct Hs.
Qed.

Lemma merge_addresses_perm (addrs : list string) :
  forall merged0 : gmap string merged_record,
    merge_addresses selected1 pool_results1 addrs merged0 =
    merge_addresses selected2 pool_results2 addrs merged0.
Proof.
  induction addrs as [|a addrs IH]; intros merged0; [reflexivity|].
  cbn [merge_addresses]. rewrite merge_address_perm.
  destruct (merge_address selected2 pool_results2 a); cbn [bind];
    [apply IH|reflexivity].
Qed.

Lemma merge_results_perm :
  merge_results selected1 pool_results1 = merge_results selected2 pool_results2.
Proof.
  unfold merge_results. rewrite all_addresses_perm. apply merge_addresses_perm.
Qed.

End Determinism.

Lemma pool_results_of_run_inv (key : string) (start_date end_date : option Z)
    (selected_pools : option (list string)) (w : world)
    (pool_results : gmap string (gmap string pool_stat)) :
  pool_results_of_run key start_date end_date selected_pools w
    = Some pool_results ->
  fst (analyze_tornado_cash key start_date end_date selected_pools w)
    = merge_results (default ALL_POOLS selected_pools) pool_results /\
  pools_ok pool_results.
Proof.
  unfold pool_results_of_run, analyze_tornado_cash, mbind.
  destruct (resolve_blocks (new_api key) start_date end_date w)
    as [[blocks|e] w1]; [|discriminate].
  pose proof (analyze_pools_ok (new_api key) (fst blocks) (snd blocks)
                (default ALL_POOLS selected_pools) ∅ w1) as Hok.
  destruct (analyze_pools _ _ _ _ ∅ w1) as [pr w2]. cbn [fst] in *.
  intros [= <-]. split; [reflexivity|]. apply Hok, map_Forall_empty.
Qed.

(** C7. Two runs of [analyze_tornado_cash] that select the same pools
    (in any order) and whose per-pool results hold, for every pool and
    recipient, the same transactions up to their order, have the same
    outcome: the same recipient-to-record mapping, or an exception in
    both. *)
Theorem merge_is_order_independent
    (key1 key2 : string) (start_date1 end_date1 start_date2 end_date2 : option Z)
    (selected1 selected2 : option (list string)) (w1 w2 : world)
    (pool_results1 pool_results2 : gmap string (gmap string pool_stat)) :
  pool_results_of_run key1 start_date1 end_date1 selected1 w1
    = Some pool_results1 ->
  pool_results_of_run key2 start_date2 end_date2 selected2 w2
    = Some pool_results2 ->
  (forall k, k ∈ default ALL_POOLS selected1 <->
             k ∈ default ALL_POOLS selected2) ->
  same_transaction_sets pool_results1 pool_results2 ->
  fst (analyze_tornado_cash key1 start_date1 end_date1 selected1 w1) =
  fst (analyze_tornado_cash key2 start_date2 end_date2 selected2 w2).
Proof.
  intros [-> Hok1]%pool_results_of_run_inv [-> Hok2]%pool_results_of_run_inv
         Hsel Hsame.
  now apply merge_results_perm.
Qed.

(** ** The presenters *)

(** The grand total of a record of a run is strictly positive. *)
Lemma merged_grand_total_positive (key : string)
    (start_date end_date : option Z) (selected_pools : option (list string))
    (w w' : world) (merged : gmap string merged_record)
    (a : string) (r : merged_record) :
  analyze_tornado_cash key start_date end_date selected_pools w
    = (Ok merged, w') ->
  merged !! a = Some r ->
  Float.is_positive (grand_total r).
Proof.
  intros (pool_results & Hrun & Hm & Hok & Hkeys)%analyze_tornado_cash_inv Ha.
  destruct (merge_results_lookup _ _ _ _ _ Hm Ha) as [(k & Hk & stat & Hstat) Hr].
  destruct (pool_get_inv _ _ Hok Hkeys _ _ _ Hstat) as (_ & _ & Hall).
  destruct (merge_address_view _ _ Hok Hkeys _ _ Hr)
    as (ts1 & ts10 & ts100 & V1 & V10 & V100 & Hgt & _).
  rewrite Hgt.
  pose proof (pool_view_nonneg _ _ _ _ _ _ V1) as N1.
  pose proof (pool_view_nonneg _ _ _ _ _ _ V10) as N10.
  pose proof (pool_view_nonneg _ _ _ _ _ _ V100) as N100.
  apply elem_of_ALL_POOLS in Hall as [->|[->| ->]].
  - destruct (pool_view_present _ _ _ _ _ _ V1 (mk_is_Some _ _ Hstat)) as [P _].
    apply FloatFacts.add_positive_l; [|exact N100].
    now apply FloatFacts.add_positive_l.
  - destruct (pool_view_present _ _ _ _ _ _ V10 (mk_is_Some _ _ Hstat)) as [P _].
    apply FloatFacts.add_positive_l; [|exact N100].
    now apply FloatFacts.add_positive_r.
  - destruct (pool_view_present _ _ _ _ _ _ V100 (mk_is_Some _ _ Hstat)) as [P _].
    apply FloatFacts.add_positive_r; [|exact P].
    now apply FloatFacts.add_nonneg.
Qed.

Lemma filter_all {A : Type} (P : A -> Prop) `{forall x, Decision (P x)}
    (l : list A) :
  Forall P l -> filter P l = l.
Proof.
  induction 1 as [|x l Hx _ IH]; [reflexivity|].
  rewrite filter_cons_True by exact Hx. now rewrite IH.
Qed.

(** Without its dates, a row of the CSV file is the row of the table. *)
Lemma totals_and_counts_row (selected_pools : list string)
    (x : string * merged_record) :
  totals_and_counts (table_row selected_pools x) =
  totals_and_counts (csv_row selected_pools x).
Proof.
  unfold totals_and_counts, table_row, csv_row.
  rewrite !filter_cons_True by reflexivity.
  rewrite !filter_app. do 2 f_equal.
Qed.

(** The two presenters list the same recipients with the same counts and
    totals as soon as every grand total is strictly positive. *)
Lemma presenters_agree (results : items)
    (selected_pools : option (list string)) :
  Forall (fun kv => Float.ltb Float.zero (grand_total (snd kv)) = true)
    results ->
  map totals_and_counts (format_output results false selected_pools) =
  map totals_and_counts (export_csv results selected_pools).
Proof.
  intros Hpos. unfold format_output, export_csv.
  destruct results as [|x results]; [reflexivity|].
  rewrite (filter_all _ _ Hpos), !map_map.
  apply map_ext. intros y. apply totals_and_counts_row.
Qed.

(** C8. For every mapping [analyze_tornado_cash] returns, whatever the
    order of its items and whatever pools are displayed, the recipient
    rows of the table and the rows of the CSV file list the same
    recipients in the same order with the same per-pool counts, per-pool
    totals and grand totals: no recipient of such a mapping has a grand
    total that the table would omit. *)
Theorem table_and_csv_report_same_totals (key : string)
    (start_date end_date : option Z) (selected_pools : option (list string))
    (w w' : world) (merged : gmap string merged_record)
    (results : items) (displayed_pools : option (list string)) :
  analyze_tornado_cash key start_date end_date selected_pools w
    = (Ok merged, w') ->
  results ≡ₚ map_to_list merged ->
  map totals_and_counts (format_output results false displayed_pools) =
  map totals_and_counts (export_csv results displayed_pools).
Proof.
  intros Hrun Hitems. apply presenters_agree.
  apply Forall_forall. intros [a r] Hin. cbn [snd].
  rewrite Hitems in Hin. apply elem_of_map_to_list in Hin.
  apply FloatFacts.ltb_zero_positive.
  eapply merged_grand_total_positive; eassumption.
Qed.

(** On a mapping that is not the outcome of an analysis the two may
    differ: the table leaves out a recipient whose grand total is [0.0],
    the CSV file keeps it. *)
Example table_omits_zero_total :
  format_output [("0xaaa", initial_record)] false None = [] /\
  length (export_csv [("0xaaa", initial_record)] None) = 1%nat.
Proof. vm_compute. split; reflexivity. Qed.

(** ** The statements on the sample runs *)

Lemma merged_dates_are_min_max_witness :
  analyze_tornado_cash "KEY" None None None Sample.world_3
    = (Ok Sample.merged, snd Sample.run) /\
  Sample.merged !! "0xaaa" = Some Sample.record_a /\
  exists pool_results,
    pool_results_of_run "KEY" None None None Sample.world_3
      = Some pool_results /\
    (forall k f,
       (k, f) ∈ pool_fields_of Sample.record_a ->
       (timestamps_in pool_results k "0xaaa" = [] ->
        pf_first_date f = None /\ pf_last_date f = None) /\
       (timestamps_in pool_results k "0xaaa" <> [] ->
        exists lo hi,
          is_min lo (timestamps_in pool_results k "0xaaa") /\
          is_max hi (timestamps_in pool_results k "0xaaa") /\
          pf_first_date f = Some {| posix := lo |} /\
          pf_last_date f = Some {| posix := hi |})) /\
    (exists lo hi,
       is_min lo (timestamps_in pool_results "1_eth" "0xaaa" ++
                  timestamps_in pool_results "10_eth" "0xaaa" ++
                  timestamps_in pool_results "100_eth" "0xaaa") /\
       is_max hi (timestamps_in pool_results "1_eth" "0xaaa" ++
                  timestamps_in pool_results "10_eth" "0xaaa" ++
                  timestamps_in pool_results "100_eth" "0xaaa") /\
       first_date Sample.record_a = Some {| posix := lo |} /\
       last_date Sample.record_a = Some {| posix := hi |}) /\
    (timestamps_in pool_results "1_eth" "0xaaa" = [] ->
     timestamps_in pool_results "100_eth" "0xaaa" = [] ->
     pf_first_date (m_1_eth Sample.record_a) = None /\
     pf_last_date (m_1_eth Sample.record_a) = None /\
     pf_first_date (m_100_eth Sample.record_a) = None /\
     pf_last_date (m_100_eth Sample.record_a) = None /\
     is_Some (first_date Sample.record_a) /\
     is_Some (last_date Sample.record_a) /\
     first_date Sample.record_a = pf_first_date (m_10_eth Sample.record_a) /\
     last_date Sample.record_a = pf_last_date (m_10_eth Sample.record_a)).
Proof.
  assert (H : analyze_tornado_cash "KEY" None None None Sample.world_3
              = (Ok Sample.merged, snd Sample.run))
    by (vm_compute; reflexivity).
  assert (Ha : Sample.merged !! "0xaaa" = Some Sample.record_a)
    by (vm_compute; reflexivity).
  split; [exact H|]. split; [exact Ha|].
  exact (merged_dates_are_min_max "KEY" None None None
           Sample.world_3 (snd Sample.run) Sample.merged "0xaaa"
           Sample.record_a H Ha).
Defined.

Lemma grand_total_is_sum_of_present_pools_witness :
  analyze_tornado_cash "KEY" None None None Sample.world_3
    = (Ok Sample.merged, snd Sample.run) /\
  Sample.merged !! "0xaaa" = Some Sample.record_a /\
  exists pool_results,
    pool_results_of_run "KEY" None None None Sample.world_3
      = Some pool_results /\
    (forall k f stat,
       (k, f) ∈ pool_fields_of Sample.record_a ->
       pool_get pool_results k !! "0xaaa" = Some stat ->
       Float.int_true_divide (total_wei stat) WEI_TO_ETH = Ok (pf_total f)) /\
    grand_total Sample.record_a =
      float_sum (map (fun kf => pf_total (snd kf))
                   (pool_fields_of Sample.record_a)) /\
    grand_total Sample.record_a =
      float_sum (map (fun kf => pf_total (snd kf))
                   (filter (fun kf =>
                              is_Some (pool_get pool_results (fst kf)
                                         !! "0xaaa"))
                      (pool_fields_of Sample.record_a))).
Proof.
  assert (H : analyze_tornado_cash "KEY" None None None Sample.world_3
              = (Ok Sample.merged, snd Sample.run))
    by (vm_compute; reflexivity).
  assert (Ha : Sample.merged !! "0xaaa" = Some Sample.record_a)
    by (vm_compute; reflexivity).
  split; [exact H|]. split; [exact Ha|].
  exact (grand_total_is_sum_of_present_pools "KEY" None None None
           Sample.world_3 (snd Sample.run) Sample.merged "0xaaa"
           Sample.record_a H Ha).
Defined.

Lemma unselected_pools_keep_initial_fields_witness :
  analyze_tornado_cash "KEY" None None (Some ["10_eth"]) Sample.world_10
    = (Ok Sample.merged_10, snd Sample.run_10) /\
  Sample.merged_10 !! "0xaaa" = Some Sample.record_10 /\
  (forall k f,
     (k, f) ∈ pool_fields_of Sample.record_10 ->
     k ∉ default ALL_POOLS (Some ["10_eth"]) ->
     f = {| pf_count := 0; pf_total := Float.zero;
            pf_first_date := None; pf_last_date := None |}) /\
  grand_total Sample.record_10 =
    Float.add (Float.add (pf_total (m_1_eth Sample.record_10))
                         (pf_total (m_10_eth Sample.record_10)))
              (pf_total (m_100_eth Sample.record_10)) /\
  grand_total Sample.record_10 =
    float_sum (map (fun kf => pf_total (snd kf))
                 (filter (fun kf => fst kf ∈ default ALL_POOLS (Some ["10_eth"]))
                    (pool_fields_of Sample.record_10))).
Proof.
  assert (H : analyze_tornado_cash "KEY" None None (Some ["10_eth"])
                Sample.world_10
              = (Ok Sample.merged_10, snd Sample.run_10))
    by (vm_compute; reflexivity).
  assert (Ha : Sample.merged_10 !! "0xaaa" = Some Sample.record_10)
    by (vm_compute; reflexivity).
  split; [exact H|]. split; [exact Ha|].
  exact (unselected_pools_keep_initial_fields "KEY" None None (Some ["10_eth"])
           Sample.world_10 (snd Sample.run_10) Sample.merged_10 "0xaaa"
           Sample.record_10 H Ha).
Defined.

Lemma table_and_csv_report_same_totals_witness :
  analyze_tornado_cash "KEY" None None None Sample.world_3
    = (Ok Sample.merged, snd Sample.run) /\
  map_to_list Sample.merged ≡ₚ map_to_list Sample.merged /\
  map totals_and_counts
    (format_output (map_to_list Sample.merged) false (Some ["10_eth"])) =
  map totals_and_counts
    (export_csv (map_to_list Sample.merged) (Some ["10_eth"])).
Proof.
  assert (H : analyze_tornado_cash "KEY" None None None Sample.world_3
              = (Ok Sample.merged, snd Sample.run))
    by (vm_compute; reflexivity).
  assert (Hp : map_to_list Sample.merged ≡ₚ map_to_list Sample.merged)
    by reflexivity.
  split; [exact H|]. split; [exact Hp|].
  exact (table_and_csv_report_same_totals "KEY" None None None
           Sample.world_3 (snd Sample.run) Sample.merged
           (map_to_list Sample.merged) (Some ["10_eth"]) H Hp).
Defined.

(** The rows the two presenters make of the sample run. *)
Example sample_rows :
  format_output (map_to_list Sample.merged) false (Some ["10_eth"]) =
    [[CStr "0xaaa"; CInt 3;
      CFloat (S754_finite false 6051711999279104 (-48));
      CDate (Some {| posix := 1700000000 |});
      CDate (Some {| posix := 1700000200 |});
      CFloat (S754_finite false 6051711999279104 (-48))];
     [CStr "contract_creation"; CInt 1;
      CFloat (S754_finite false 5629499534213120 (-49));
      CDate (Some {| posix := 1700000100 |});
      CDate (Some {| posix := 1700000100 |});
      CFloat (S754_finite false 5629499534213120 (-49))]] /\
  map totals_and_counts
    (export_csv (map_to_list Sample.merged) (Some ["10_eth"])) =
    [[CStr "0xaaa"; CInt 3;
      CFloat (S754_finite false 6051711999279104 (-48));
      CFloat (S754_finite false 6051711999279104 (-48))];
     [CStr "contract_creation"; CInt 1;
      CFloat (S754_finite false 5629499534213120 (-49));
      CFloat (S754_finite false 5629499534213120 (-49))]].
Proof. vm_compute. split; reflexivity. Qed.

(** The two sample runs hold the same transactions, in different orders. *)
Lemma sample_same_transaction_sets :
  same_transaction_sets Sample.pool_results Sample.reordered_pool_results.
Proof.
  remember (pool_get Sample.pool_results "10_eth") as m1 eqn:Hm1.
  remember (pool_get Sample.reordered_pool_results "10_eth") as m2 eqn:Hm2.
  remember (stat_of m1 "0xaaa") as a1 eqn:Ha1.
  remember (stat_of m2 "0xaaa") as a2 eqn:Ha2.
  remember (stat_of m1 "contract_creation") as c1 eqn:Hc1.
  remember (stat_of m2 "contract_creation") as c2 eqn:Hc2.
  assert (E1 : Sample.pool_results =
               <["10_eth" := m1]> (<["1_eth" := ∅]> (<["100_eth" := ∅]> ∅)))
    by (subst; vm_compute; reflexivity).
  assert (E2 : Sample.reordered_pool_results =
               <["10_eth" := m2]> (<["1_eth" := ∅]> (<["100_eth" := ∅]> ∅)))
    by (subst; vm_compute; reflexivity).
  assert (M1 : m1 = <["0xaaa" := a1]> (<["contract_creation" := c1]> ∅))
    by (subst; vm_compute; reflexivity).
  assert (M2 : m2 = <["0xaaa" := a2]> (<["contract_creation" := c2]> ∅))
    by (subst; vm_compute; reflexivity).
  assert (Pa : transactions a1 ≡ₚ transactions a2)
    by (subst; vm_compute; apply perm_skip, perm_swap).
  assert (Pc : transactions c1 ≡ₚ transactions c2)
    by (subst; vm_compute; reflexivity).
  clear Hm1 Hm2 Ha1 Ha2 Hc1 Hc2.
  intros k a. rewrite E1, E2. unfold pool_get, stat_of.
  rewrite !lookup_insert.
  repeat case_decide; subst; cbn [default from_option id];
    rewrite ?lookup_insert, ?lookup_empty;
    repeat case_decide; subst; cbn [default from_option id];
    rewrite ?lookup_empty; trivial; try reflexivity; congruence.
Qed.

Example sample_orders_differ :
  Sample.pool_results <> Sample.reordered_pool_results.
Proof.
  intros H.
  apply (f_equal (fun pr =>
           transactions (stat_of (pool_get pr "10_eth") "0xaaa"))) in H.
  vm_compute in H. discriminate.
Qed.

Lemma merge_is_order_independent_witness :
  pool_results_of_run "KEY" None None None Sample.world_3
    = Some Sample.pool_results /\
  pool_results_of_run "KEY" None None (Some Sample.reordered_pools)
    Sample.reordered_world = Some Sample.reordered_pool_results /\
  (forall k, k ∈ default ALL_POOLS None <->
             k ∈ default ALL_POOLS (Some Sample.reordered_pools)) /\
  same_transaction_sets Sample.pool_results Sample.reordered_pool_results /\
  fst (analyze_tornado_cash "KEY" None None None Sample.world_3) =
  fst (analyze_tornado_cash "KEY" None None (Some Sample.reordered_pools)
         Sample.reordered_world).
Proof.
  assert (H1 : pool_results_of_run "KEY" None None None Sample.world_3
               = Some Sample.pool_results)
    by (vm_compute; reflexivity).
  assert (H2 : pool_results_of_run "KEY" None None
                 (Some Sample.reordered_pools) Sample.reordered_world
               = Some Sample.reordered_pool_results)
    by (vm_compute; reflexivity).
  assert (Hsel : forall k, k ∈ default ALL_POOLS None <->
                           k ∈ default ALL_POOLS (Some Sample.reordered_pools)).
  { intros k. cbn. unfold ALL_POOLS, Sample.reordered_pools.
    rewrite !elem_of_cons, !elem_of_nil. tauto. }
  pose proof sample_same_transaction_sets as Hsame.
  split; [exact H1|]. split; [exact H2|]. split; [exact Hsel|].
  split; [exact Hsame|].
  exact (merge_is_order_independent "KEY" "KEY" None None None None
           None (Some Sample.reordered_pools)
           Sample.world_3 Sample.reordered_world
           Sample.pool_results Sample.reordered_pool_results
           H1 H2 Hsel Hsame).
Defined.

Lemma pool_failure_degrades_to_empty_witness :
  let info :=
    {| address := "0x47CE0C6eD5B0Ce3d3A51fdb1C52DC66a7c3c2936";
       denomination := 1; name := "1 ETH" |} in
  let w3 :=
    snd (analyze_pool (new_api "KEY") (address info) (name info) 0 99999999
           Sample.failing_world) in
  let rest :=
    analyze_pools (new_api "KEY") ["10_eth"; "100_eth"] 0 99999999
      (<["1_eth" := ∅]> ∅) w3 in
  analyze_pool (new_api "KEY") (address info) (name info) 0 99999999
    Sample.failing_world = (Err HTTPError, w3) /\
  analyze_tornado_cash "KEY" None None None Sample.failing_world
    = (merge_results ALL_POOLS (fst rest), snd rest) /\
  ("1_eth" ∉ ["10_eth"; "100_eth"] -> fst rest !! "1_eth" = Some ∅).
Proof.
  intros info w3 rest.
  assert (Hblocks : resolve_blocks (new_api "KEY") None None
                      Sample.failing_world
                    = (Ok (0, 99999999), Sample.failing_world))
    by reflexivity.
  assert (Hsel : default ALL_POOLS None = [] ++ "1_eth" :: ["10_eth"; "100_eth"])
    by reflexivity.
  assert (Hk : TORNADO_CASH_POOLS !! "1_eth" = Some info)
    by (vm_compute; reflexivity).
  assert (Hfail : analyze_pool (new_api "KEY") (address info) (name info)
                    0 99999999 Sample.failing_world = (Err HTTPError, w3))
    by (vm_compute; reflexivity).
  split; [exact Hfail|].
  exact (proj2 (proj2 (pool_failure_degrades_to_empty "KEY" None None None
                         Sample.failing_world))
           (0, 99999999) Sample.failing_world [] "1_eth"
           ["10_eth"; "100_eth"] info HTTPError w3 Hblocks Hsel Hk Hfail).
Defined.

(** With the 1 ETH pool failing, the outcome is that of the sample run
    in which the 1 ETH pool had no transactions. *)
Example failing_pool_run_completes :
  fst (analyze_tornado_cash "KEY" None None None Sample.failing_world)
  = Ok Sample.merged.
Proof. vm_compute. reflexivity. Qed.

(** An exception while the end block is resolved aborts the analysis. *)
Example failing_date_resolution_aborts :
  fst (analyze_tornado_cash "KEY" None (Some 1700000000) None
         {| pending := [HttpFail HTTPError; Sample.page [Sample.tx_b]];
            sent := [] |})
  = Err HTTPError.
Proof. vm_compute. reflexivity. Qed.

(** ** Every recipient of the merged mapping has a withdrawal *)

(** C9, as stated, fails on the order of the two dates: they are naive
    datetimes in local time, and where the local clock is set back
    between the first and the last withdrawal, [first_date] reads later
    than [last_date]. *)
Lemma first_date_after_last_date :
  fst (analyze_tornado_cash "KEY" None None (Some ["10_eth"]) FoldSample.world)
    = Ok FoldSample.merged /\
  FoldSample.merged !! "0xaaa" = Some FoldSample.record /\
  first_date FoldSample.record = Some {| posix := 1730611800 |} /\
  last_date FoldSample.record = Some {| posix := 1730613600 |} /\
  datetime_leb FoldSample.new_york
    {| posix := 1730611800 |} {| posix := 1730613600 |} = false.
Proof. repeat split; vm_compute; reflexivity. Qed.

(** C9, amended. Every recipient of the mapping [analyze_tornado_cash]
    returns has a transaction of at least 1 wei in the entry of some
    selected pool; its overall [first_date] and [last_date] are set, the
    first made from a second that is not after the second the last is
    made from, so that [first_date <= last_date] in every time zone whose
    local clock is never set back; and its [grand_total] is strictly
    positive. *)
Theorem merged_recipient_has_withdrawal (key : string)
    (start_date end_date : option Z) (selected_pools : option (list string))
    (w w' : world) (merged : gmap string merged_record)
    (a : string) (r : merged_record) :
  analyze_tornado_cash key start_date end_date selected_pools w
    = (Ok merged, w') ->
  merged !! a = Some r ->
  exists pool_results,
    pool_results_of_run key start_date end_date selected_pools w
      = Some pool_results /\
    (exists k stat d,
       k ∈ default ALL_POOLS selected_pools /\
       pool_get pool_results k !! a = Some stat /\
       d ∈ transactions stat /\ 1 <= value_wei d) /\
    (exists first last,
       first_date r = Some first /\ last_date r = Some last /\
       posix first <= posix last /\
       forall tz, never_set_back tz -> datetime_leb tz first last = true) /\
    Float.ltb Float.zero (grand_total r) = true.
Proof.
  intros Hrun Ha.
  assert (Hdates : exists first last,
    first_date r = Some first /\ last_date r = Some last /\
    posix first <= posix last /\
    forall tz, never_set_back tz -> datetime_leb tz first last = true).
  { destruct (merged_recipient_dates_set _ _ _ _ _ _ _ _ _ Hrun Ha)
      as (first & last & Hf & Hl & Hle).
    exists first, last. repeat split; trivial.
    intros tz Htz. apply Z.leb_le, Htz, Hle. }
  pose proof (merged_grand_total_positive _ _ _ _ _ _ _ _ _ Hrun Ha) as Hpos.
  apply analyze_tornado_cash_inv in Hrun
    as (pool_results & Hrun & Hm & Hok & Hkeys).
  exists pool_results. split; [exact Hrun|].
  destruct (merge_results_lookup _ _ _ _ _ Hm Ha) as [(k & Hk & stat & Hstat) _].
  destruct (pool_get_inv _ _ Hok Hkeys _ _ _ Hstat) as ([_ _ Hne Hval] & _ & _).
  split; [|split; [exact Hdates|now apply FloatFacts.ltb_zero_positive]].
  destruct (transactions stat) as [|d ds] eqn:Htxs; [contradiction|].
  exists k, stat, d. rewrite Htxs. apply Forall_cons in Hval as [Hd _].
  repeat split; trivial; [left|lia].
Qed.

Lemma merged_recipient_has_withdrawal_witness :
  analyze_tornado_cash "KEY" None None None Sample.world_3
    = (Ok Sample.merged, snd Sample.run) /\
  Sample.merged !! "0xaaa" = Some Sample.record_a /\
  exists pool_results,
    pool_results_of_run "KEY" None None None Sample.world_3
      = Some pool_results /\
    (exists k stat d,
       k ∈ default ALL_POOLS None /\
       pool_get pool_results k !! "0xaaa" = Some stat /\
       d ∈ transactions stat /\ 1 <= value_wei d) /\
    (exists first last,
       first_date Sample.record_a = Some first /\
       last_date Sample.record_a = Some last /\
       posix first <= posix last /\
       forall tz, never_set_back tz -> datetime_leb tz first last = true) /\
    Float.ltb Float.zero (grand_total Sample.record_a) = true.
Proof.
  assert (H : analyze_tornado_cash "KEY" None None None Sample.world_3
              = (Ok Sample.merged, snd Sample.run))
    by (vm_compute; reflexivity).
  assert (Ha : Sample.merged !! "0xaaa" = Some Sample.record_a)
    by (vm_compute; reflexivity).
  split; [exact H|]. split; [exact Ha|].
  exact (merged_recipient_has_withdrawal "KEY" None None None
           Sample.world_3 (snd Sample.run) Sample.merged "0xaaa"
           Sample.record_a H Ha).
Defined.

(** The scenarios of the specification on the sample run: [0xaaa]
    received 10 ETH twice and 1.5 ETH once from the 10 ETH pool. *)
Example sample_record_a :
  Sample.record_a =
  {| m_1_eth := initial_fields;
     m_10_eth :=
       {| pf_count := 3;
          pf_total := S754_finite false 6051711999279104 (-48);   (* 21.5 *)
          pf_first_date := Some {| posix := 1700000000 |};
          pf_last_date := Some {| posix := 1700000200 |} |};
     m_100_eth := initial_fields;
     grand_total := S754_finite false 6051711999279104 (-48);
     first_date := Some {| posix := 1700000000 |};
     last_date := Some {| posix := 1700000200 |} |}.
Proof. vm_compute. reflexivity. Qed.

(** A single normal transaction of 10^18 wei from the 1 ETH pool gives
    its recipient count 1, total 1.0, grand total 1.0 and equal first and
    last dates. *)
Example scenario_single_transaction :
  fst (analyze_tornado_cash "KEY" None None (Some ["1_eth"]) Sample.world_1) =
  Ok {[ "0xaaa" :=
        {| m_1_eth :=
             {| pf_count := 1;
                pf_total := S754_finite false 4503599627370496 (-52);  (* 1.0 *)
                pf_first_date := Some {| posix := 1700000000 |};
                pf_last_date := Some {| posix := 1700000000 |} |};
           m_10_eth := initial_fields;
           m_100_eth := initial_fields;
           grand_total := S754_finite false 4503599627370496 (-52);
           first_date := Some {| posix := 1700000000 |};
           last_date := Some {| posix := 1700000000 |} |} ]}.
Proof. vm_compute. reflexivity. Qed.

(** Merging the results of no pool gives the empty mapping. *)
Example merge_of_no_pool :
  merge_results [] ∅ = Ok ∅.
Proof. vm_compute. reflexivity. Qed.

(** * Further properties *)

Section PoolAnalyzerExtras.

Lemma lower_ascii_idemp (c : ascii) : lower_ascii (lower_ascii c) = lower_ascii c.
Proof.
  destruct c as [[] [] [] [] [] [] [] []]; reflexivity.
Qed.

Lemma lower_idemp (s : string) : lower (lower s) = lower s.
Proof.
  induction s as [|c s IH]; cbn; [reflexivity|].
  now rewrite lower_ascii_idemp, IH.
Qed.

Lemma to_addr_lower (tx : raw_tx) (a : string) :
  to_addr tx = Ok a -> lower a = a.
Proof.
  unfold to_addr. destruct (tx_to tx) as [v|]; cbn [item bind]; [|discriminate].
  destruct (truth_of v); [|now intros [= <-]].
  destruct v; cbn [lower_of]; try discriminate.
  intros [= <-]. apply lower_idemp.
Qed.

Lemma process_txs_keys (kind : tx_type) (pool : string) (txs : list raw_tx) :
  forall recipients recipients' : gmap string pool_stat,
    process_txs kind pool txs recipients = Ok recipients' ->
    (forall r, is_Some (recipients !! r) -> lower r = r) ->
    forall r, is_Some (recipients' !! r) -> lower r = r.
Proof.
  induction txs as [|tx txs IH]; intros m m' Hrun Hm.
  - now injection Hrun as <-.
  - cbn [process_txs] in Hrun.
    destruct (process_tx kind pool m tx) as [mid|e] eqn:Hstep;
      cbn [bind] in Hrun; [|discriminate].
    apply (IH _ _ Hrun).
    apply process_tx_inv in Hstep
      as [(_ & _ & ->)|(d & a & _ & Ha & _ & _ & ->)]; [exact Hm|].
    intros r. rewrite lookup_insert. case_decide as Hr; [|apply Hm].
    intros _. subst r. eapply to_addr_lower, Ha.
Qed.

Lemma fold_comm_count (j1 j2 : string) (z1 z2 : pool_stat) (y : Z) :
  count z1 + (count z2 + y) = count z2 + (count z1 + y).
Proof. lia. Qed.

Lemma sum_counts_insert (m : gmap string pool_stat) (k : string) (s : pool_stat) :
  sum_counts (<[k := s]> m) = sum_counts m - count (stat_of m k) + count s.
Proof.
  unfold sum_counts, stat_of.
  destruct (m !! k) as [old|] eqn:Hk; cbn [default from_option id].
  - rewrite <- insert_delete_eq.
    rewrite map_fold_insert_L by (intros; lia || apply lookup_delete_eq).
    rewrite (map_fold_delete_L _ _ k old m) by (intros; lia || exact Hk).
    lia.
  - rewrite map_fold_insert_L by (intros; lia || exact Hk). cbn. lia.
Qed.

Lemma sum_totals_insert (m : gmap string pool_stat) (k : string) (s : pool_stat) :
  sum_totals (<[k := s]> m) = sum_totals m - total_wei (stat_of m k) + total_wei s.
Proof.
  unfold sum_totals, stat_of.
  destruct (m !! k) as [old|] eqn:Hk; cbn [default from_option id].
  - rewrite <- insert_delete_eq.
    rewrite map_fold_insert_L by (intros; lia || apply lookup_delete_eq).
    rewrite (map_fold_delete_L _ _ k old m) by (intros; lia || exact Hk).
    lia.
  - rewrite map_fold_insert_L by (intros; lia || exact Hk). cbn. lia.
Qed.

Lemma wei_of_app (l1 l2 : list raw_tx) :
  wei_of (l1 ++ l2) = wei_of l1 + wei_of l2.
Proof.
  induction l1 as [|tx l1 IH]; [reflexivity|].
  change (default 0 (tx_value tx) + wei_of (l1 ++ l2) =
          default 0 (tx_value tx) + wei_of l1 + wei_of l2).
  lia.
Qed.

Lemma process_txs_sums (kind : tx_type) (pool_address : string)
    (txs : list raw_tx) :
  forall recipients recipients' : gmap string pool_stat,
    process_txs kind (lower pool_address) txs recipients = Ok recipients' ->
    sum_counts recipients' =
      sum_counts recipients + Z.of_nat (length (withdrawals pool_address txs)) /\
    sum_totals recipients' =
      sum_totals recipients + wei_of (withdrawals pool_address txs).
Proof.
  induction txs as [|tx txs IH]; intros m m' Hrun.
  - injection Hrun as <-. cbn. lia.
  - cbn [process_txs] in Hrun.
    destruct (process_tx kind (lower pool_address) m tx) as [mid|e] eqn:Hstep;
      cbn [bind] in Hrun; [|discriminate].
    destruct (IH _ _ Hrun) as [Hc Ht]. rewrite Hc, Ht. clear IH Hc Ht Hrun.
    unfold withdrawals.
    apply process_tx_inv in Hstep
      as [(Hskip & _ & ->)|(d & a & Hpass & _ & Hd & Hst & ->)].
    + rewrite filter_cons_False; [lia|].
      unfold is_withdrawal. rewrite Hskip. discriminate.
    + destruct Hst as (Hv & _).
      rewrite filter_cons_True by exact Hpass.
      rewrite sum_counts_insert, sum_totals_insert. cbn [count total_wei length].
      change (wei_of (tx :: ?l)) with (default 0 (tx_value tx) + wei_of l).
      rewrite Hv. cbn [default from_option id]. lia.
Qed.

Lemma process_tx_ok_iff (kind : tx_type) (pool_address : string)
    (recipients : gmap string pool_stat) (tx : raw_tx) :
  (exists recipients', process_tx kind (lower pool_address) recipients tx
                       = Ok recipients') <->
  storable kind pool_address tx.
Proof.
  unfold process_tx, storable.
  destruct (from_lower tx) as [sender|e]; cbn [bind].
  2:{ split; [intros [? ?]; discriminate|intros (? & ? & _); discriminate]. }
  destruct (String.eqb sender (lower pool_address)) eqn:Hfrom.
  2:{ split; [|eauto]. intros _. exists sender.
      split; [reflexivity|]. rewrite Hfrom. discriminate. }
  destruct (tx_value tx) as [v|]; cbn [int_field bind].
  2:{ split; [intros [? ?]; discriminate|].
      intros (s & [= <-] & H). destruct (H Hfrom) as (v & ? & _).
      discriminate. }
  destruct (0 <? v) eqn:Hpos.
  2:{ apply Z.ltb_ge in Hpos. split; [|eauto]. intros _.
      exists sender. split; [reflexivity|]. intros _. exists v.
      split; [reflexivity|lia]. }
  apply Z.ltb_lt in Hpos. split.
  - intros [m' H]. exists sender. split; [reflexivity|]. intros _.
    exists v. split; [reflexivity|]. intros _.
    destruct (to_addr tx) as [a|e]; cbn [bind] in H; [|discriminate].
    destruct (hash_field kind tx) as [h|e] eqn:Hh; cbn [bind] in H;
      [|discriminate].
    destruct (tx_timeStamp tx) as [ts|]; cbn [int_field bind] in H;
      [|discriminate].
    split; [eauto|]. split; [eauto|]. intros ->. unfold hash_field in Hh.
    destruct (tx_hash tx); [eauto|discriminate].
  - intros (s & [= <-] & H). destruct (H Hfrom) as (v' & [= <-] & H').
    destruct (H' Hpos) as ([a ->] & [ts Hts] & Hh). rewrite Hts.
    assert (Hok : exists h, hash_field kind tx = Ok h).
    { unfold hash_field. destruct kind, (tx_hash tx) as [h|]; eauto.
      destruct (Hh eq_refl) as [? ?]. discriminate. }
    destruct Hok as [h ->]. cbn [int_field bind]. eauto.
Qed.

Lemma process_txs_ok_iff (kind : tx_type) (pool_address : string)
    (txs : list raw_tx) :
  forall recipients : gmap string pool_stat,
    (exists recipients', process_txs kind (lower pool_address) txs recipients
                         = Ok recipients') <->
    Forall (storable kind pool_address) txs.
Proof.
  induction txs as [|tx txs IH]; intros m; cbn [process_txs].
  - split; [constructor|eauto].
  - rewrite Forall_cons, <- process_tx_ok_iff with (recipients := m).
    destruct (process_tx kind (lower pool_address) m tx) as [mid|e];
      cbn [bind].
    + rewrite IH. split; [intros H; split; eauto|tauto].
    + split; [intros [? ?]; discriminate|intros [[? ?] _]; discriminate].
Qed.

End PoolAnalyzerExtras.

(** ** More on the pool analyzer *)

(** X1. Every key of the mapping [analyze_pool] returns is in lower case
    (the sentinel ["contract_creation"] included): receivers that differ
    by letter case only share one entry. *)
Theorem analyze_pool_keys_lower_case (api : EtherscanAPI)
    (pool_address pool_name : string) (start_block end_block : Z)
    (w w' : world) (recipients : gmap string pool_stat) (r : string) :
  analyze_pool api pool_address pool_name start_block end_block w
    = (Ok recipients, w') ->
  is_Some (recipients !! r) ->
  lower r = r.
Proof.
  intros (internal_txs & normal_txs & w1 & mid & _ & _ & Hn & Hi)%analyze_pool_inv.
  eapply process_txs_keys; [exact Hi|].
  eapply process_txs_keys; [exact Hn|].
  intros k [? Hk]. rewrite lookup_empty in Hk. discriminate.
Qed.

Lemma analyze_pool_keys_lower_case_witness :
  analyze_pool Sample.api Sample.pool "10 ETH" 0 99999999 Sample.pool_world
    = (Ok Sample.recipients, snd Sample.pool_run) /\
  is_Some (Sample.recipients !! "0xaaa") /\
  lower "0xaaa" = "0xaaa".
Proof.
  assert (H : analyze_pool Sample.api Sample.pool "10 ETH" 0 99999999
                Sample.pool_world
              = (Ok Sample.recipients, snd Sample.pool_run))
    by (vm_compute; reflexivity).
  assert (Hr : is_Some (Sample.recipients !! "0xaaa"))
    by (vm_compute; eexists; reflexivity).
  split; [exact H|]. split; [exact Hr|].
  exact (analyze_pool_keys_lower_case Sample.api Sample.pool "10 ETH"
           0 99999999 Sample.pool_world (snd Sample.pool_run)
           Sample.recipients "0xaaa" H Hr).
Defined.

(** X2. No withdrawal is lost or counted twice: over all recipients, the
    counts add up to the number of fetched transactions that pass the
    withdrawal filter, and the wei totals to the sum of their values. *)
Theorem analyze_pool_conserves_withdrawals (api : EtherscanAPI)
    (pool_address pool_name : string) (start_block end_block : Z)
    (w w1 w' : world) (internal_txs normal_txs : list raw_tx)
    (recipients : gmap string pool_stat) :
  get_internal_transactions api (lower pool_address) start_block end_block w
    = (Ok internal_txs, w1) ->
  get_normal_transactions api (lower pool_address) start_block end_block w1
    = (Ok normal_txs, w') ->
  analyze_pool api pool_address pool_name start_block end_block w
    = (Ok recipients, w') ->
  sum_counts recipients =
    Z.of_nat (length (withdrawals pool_address (normal_txs ++ internal_txs))) /\
  sum_totals recipients =
    wei_of (withdrawals pool_address (normal_txs ++ internal_txs)).
Proof.
  intros Hgi Hgn (i & n & w1' & mid & Hgi' & Hgn' & Hn & Hi)%analyze_pool_inv.
  rewrite Hgi in Hgi'. injection Hgi' as <- <-.
  rewrite Hgn in Hgn'. injection Hgn' as <-.
  destruct (process_txs_sums _ _ _ _ _ Hn) as [Hc1 Ht1].
  destruct (process_txs_sums _ _ _ _ _ Hi) as [Hc2 Ht2].
  unfold withdrawals in *. rewrite filter_app, length_app.
  rewrite Hc2, Hc1, Ht2, Ht1.
  unfold sum_counts, sum_totals. rewrite !map_fold_empty.
  rewrite wei_of_app. lia.
Qed.

Lemma analyze_pool_conserves_withdrawals_witness :
  let w1 := snd (get_internal_transactions Sample.api (lower Sample.pool)
                   0 99999999 Sample.pool_world) in
  get_internal_transactions Sample.api (lower Sample.pool) 0 99999999
    Sample.pool_world = (Ok [Sample.tx_b; Sample.tx_c], w1) /\
  get_normal_transactions Sample.api (lower Sample.pool) 0 99999999 w1
    = (Ok [Sample.tx_d; Sample.tx_a], snd Sample.pool_run) /\
  analyze_pool Sample.api Sample.pool "10 ETH" 0 99999999 Sample.pool_world
    = (Ok Sample.recipients, snd Sample.pool_run) /\
  sum_counts Sample.recipients = 3 /\
  sum_totals Sample.recipients = 3 * 10 ^ 19.
Proof.
  intros w1.
  assert (Hgi : get_internal_transactions Sample.api (lower Sample.pool)
                  0 99999999 Sample.pool_world
                = (Ok [Sample.tx_b; Sample.tx_c], w1))
    by (vm_compute; reflexivity).
  assert (Hgn : get_normal_transactions Sample.api (lower Sample.pool)
                  0 99999999 w1
                = (Ok [Sample.tx_d; Sample.tx_a], snd Sample.pool_run))
    by (vm_compute; reflexivity).
  assert (H : analyze_pool Sample.api Sample.pool "10 ETH" 0 99999999
                Sample.pool_world
              = (Ok Sample.recipients, snd Sample.pool_run))
    by (vm_compute; reflexivity).
  split; [exact Hgi|]. split; [exact Hgn|]. split; [exact H|].
  destruct (analyze_pool_conserves_withdrawals Sample.api Sample.pool
              "10 ETH" 0 99999999 Sample.pool_world w1 (snd Sample.pool_run)
              [Sample.tx_b; Sample.tx_c] [Sample.tx_d; Sample.tx_a]
              Sample.recipients Hgi Hgn H) as [Hc Ht].
  rewrite Hc, Ht. split; vm_compute; reflexivity.
Defined.

Lemma sum_values_ge_length (l : list tx_detail) :
  Forall (fun d => 0 < value_wei d) l ->
  Z.of_nat (length l) <= sum_values l.
Proof.
  induction 1 as [|d l Hd _ IH]; [cbn; lia|].
  change (sum_values (d :: l)) with (value_wei d + sum_values l).
  cbn [length]. lia.
Qed.

(** X3. Every entry of the mapping [analyze_pool] returns counts at least
    one withdrawal, holds a transaction list that is not empty, and has a
    wei total that is at least its count. *)
Theorem analyze_pool_entries_positive (api : EtherscanAPI)
    (pool_address pool_name : string) (start_block end_block : Z)
    (w w' : world) (recipients : gmap string pool_stat)
    (r : string) (stat : pool_stat) :
  analyze_pool api pool_address pool_name start_block end_block w
    = (Ok recipients, w') ->
  recipients !! r = Some stat ->
  1 <= count stat /\ transactions stat <> [] /\
  count stat <= total_wei stat.
Proof.
  intros Hrun Hr.
  destruct (analyze_pool_stat_ok _ _ _ _ _ _ _ _ Hrun r stat Hr)
    as [Hc Ht Hne Hpos].
  rewrite Hc, Ht. split; [|split; [exact Hne|now apply sum_values_ge_length]].
  destruct (transactions stat); [contradiction|cbn; lia].
Qed.

Lemma analyze_pool_entries_positive_witness :
  analyze_pool Sample.api Sample.pool "10 ETH" 0 99999999 Sample.pool_world
    = (Ok Sample.recipients, snd Sample.pool_run) /\
  Sample.recipients !! "0xaaa" = Some (stat_of Sample.recipients "0xaaa") /\
  1 <= count (stat_of Sample.recipients "0xaaa") /\
  transactions (stat_of Sample.recipients "0xaaa") <> [] /\
  count (stat_of Sample.recipients "0xaaa")
    <= total_wei (stat_of Sample.recipients "0xaaa").
Proof.
  assert (H : analyze_pool Sample.api Sample.pool "10 ETH" 0 99999999
                Sample.pool_world
              = (Ok Sample.recipients, snd Sample.pool_run))
    by (vm_compute; reflexivity).
  assert (Hr : Sample.recipients !! "0xaaa"
               = Some (stat_of Sample.recipients "0xaaa"))
    by (vm_compute; reflexivity).
  split; [exact H|]. split; [exact Hr|].
  exact (analyze_pool_entries_positive Sample.api Sample.pool "10 ETH"
           0 99999999 Sample.pool_world (snd Sample.pool_run)
           Sample.recipients "0xaaa" _ H Hr).
Defined.

(** X4. Once both fetches went through, [analyze_pool] returns a mapping
    exactly when every fetched transaction is storable: the sender of
    every transaction must be a string; of a transaction the pool sent
    the value must be an int and, if it is positive, the receiver must be
    present and be a string or false, the timestamp must be an int and
    (for a normal transaction) the hash must be present.  Other malformed
    fields of transactions of other senders, or of transactions without
    value, do no harm. *)
Theorem analyze_pool_succeeds_iff_storable (api : EtherscanAPI)
    (pool_address pool_name : string) (start_block end_block : Z)
    (w w1 w' : world) (internal_txs normal_txs : list raw_tx) :
  get_internal_transactions api (lower pool_address) start_block end_block w
    = (Ok internal_txs, w1) ->
  get_normal_transactions api (lower pool_address) start_block end_block w1
    = (Ok normal_txs, w') ->
  (exists recipients,
     analyze_pool api pool_address pool_name start_block end_block w
       = (Ok recipients, w')) <->
  Forall (storable normal pool_address) normal_txs /\
  Forall (storable internal pool_address) internal_txs.
Proof.
  intros Hgi Hgn. unfold analyze_pool, mbind, lift. rewrite Hgi, Hgn.
  rewrite <- (process_txs_ok_iff normal pool_address normal_txs ∅).
  destruct (process_txs normal (lower pool_address) normal_txs ∅)
    as [mid|e] eqn:Hn; cbn [bind].
  - rewrite <- (process_txs_ok_iff internal pool_address internal_txs mid).
    split.
    + intros [m [= Hm]]. eauto.
    + intros [_ [m Hm]]. exists m. now rewrite Hm.
  - split; [intros [? [=]]|intros [[? [=]] _]].
Qed.

Lemma analyze_pool_succeeds_iff_storable_witness :
  let w1 := snd (get_internal_transactions Sample.api (lower Sample.pool)
                   0 99999999 Sample.pool_world) in
  get_internal_transactions Sample.api (lower Sample.pool) 0 99999999
    Sample.pool_world = (Ok [Sample.tx_b; Sample.tx_c], w1) /\
  get_normal_transactions Sample.api (lower Sample.pool) 0 99999999 w1
    = (Ok [Sample.tx_d; Sample.tx_a], snd Sample.pool_run) /\
  ((exists recipients,
      analyze_pool Sample.api Sample.pool "10 ETH" 0 99999999
        Sample.pool_world = (Ok recipients, snd Sample.pool_run)) <->
   Forall (storable normal Sample.pool) [Sample.tx_d; Sample.tx_a] /\
   Forall (storable internal Sample.pool) [Sample.tx_b; Sample.tx_c]).
Proof.
  intros w1.
  assert (Hgi : get_internal_transactions Sample.api (lower Sample.pool)
                  0 99999999 Sample.pool_world
                = (Ok [Sample.tx_b; Sample.tx_c], w1))
    by (vm_compute; reflexivity).
  assert (Hgn : get_normal_transactions Sample.api (lower Sample.pool)
                  0 99999999 w1
                = (Ok [Sample.tx_d; Sample.tx_a], snd Sample.pool_run))
    by (vm_compute; reflexivity).
  split; [exact Hgi|]. split; [exact Hgn|].
  exact (analyze_pool_succeeds_iff_storable Sample.api Sample.pool "10 ETH"
           0 99999999 Sample.pool_world w1 (snd Sample.pool_run)
           [Sample.tx_b; Sample.tx_c] [Sample.tx_d; Sample.tx_a] Hgi Hgn).
Defined.

(** A transaction without ["from"] makes [analyze_pool] raise, whoever
    sent it; so does a withdrawal whose ["to"] is a number. *)
Example missing_sender_raises :
  fst (analyze_pool Sample.api Sample.pool "10 ETH" 0 99999999
         {| pending :=
              [Sample.page [{| tx_from := None; tx_to := Some JNull;
                               tx_value := None; tx_timeStamp := None;
                               tx_hash := None |}];
               Sample.no_transactions];
            sent := [] |})
    = Err (KeyError "from") /\
  fst (analyze_pool Sample.api Sample.pool "10 ETH" 0 99999999
         {| pending :=
              [Sample.page [{| tx_from := Some (JText Sample.pool);
                               tx_to := Some (JOther true);
                               tx_value := Some 1;
                               tx_timeStamp := Some 1700000000;
                               tx_hash := None |}];
               Sample.no_transactions];
            sent := [] |})
    = Err AttributeError.
Proof. split; vm_compute; reflexivity. Qed.

Section Requests.

Lemma sends_nil (w : world) : sends w w [].
Proof. split; [now rewrite app_nil_r|reflexivity]. Qed.

Lemma sends_app (w w1 w2 : world) (l1 l2 : list request) :
  sends w w1 l1 -> sends w1 w2 l2 -> sends w w2 (l1 ++ l2).
Proof.
  intros [S1 P1] [S2 P2]. split.
  - now rewrite S2, S1, app_assoc.
  - rewrite P2, P1, drop_drop, length_app. reflexivity.
Qed.

Lemma make_request_sends (api : EtherscanAPI) (p : params) (w : world) :
  sends w (snd (_make_request api p w)) [request_of api p].
Proof.
  unfold _make_request, log_request. destruct w as [[|r rest] log]; cbn.
  - split; reflexivity.
  - destruct r; split; reflexivity.
Qed.

Lemma get_block_by_timestamp_sends (api : EtherscanAPI) (ts : Z)
    (closest : string) (w : world) :
  sends w (snd (get_block_by_timestamp api ts closest w))
    [request_of api (GetBlockNoByTime ts closest)].
Proof.
  pose proof (make_request_sends api (GetBlockNoByTime ts closest) w) as H.
  unfold get_block_by_timestamp, mbind, lift.
  destruct (_make_request api (GetBlockNoByTime ts closest) w) as [[d|e] w1];
    exact H.
Qed.

Lemma length_page_requests (api : EtherscanAPI) (action addr : string)
    (sb eb page : Z) (n : nat) :
  length (page_requests api action addr sb eb page n) = n.
Proof. unfold page_requests. now rewrite length_map, length_seq. Qed.

Lemma get_transactions_sends (api : EtherscanAPI) (action addr : string)
    (sb eb : Z) (w : world) :
  exists n,
    sends w (snd (get_transactions api action addr sb eb w))
      (page_requests api action addr sb eb 1 (S n)).
Proof.
  destruct (fetch_pages_paged api action addr sb eb (pending w) 1 [] (sent w))
    as (n & Hs & Hp & _).
  exists n. split; [exact Hs|]. now rewrite length_page_requests.
Qed.

Lemma page_requests_expected (key : string) (selected_pools : list string)
    (action k : string) (info : pool_info) (sb eb : Z) (n : nat) :
  action = "txlistinternal" \/ action = "txlist" ->
  k ∈ selected_pools -> TORNADO_CASH_POOLS !! k = Some info ->
  Forall (expected_request key selected_pools)
    (page_requests (new_api key) action (lower (address info)) sb eb 1 n).
Proof.
  intros Ha Hk Hinfo. unfold page_requests. apply Forall_forall.
  intros q (i & -> & _)%list_elem_of_fmap.
  repeat split; cbn; eauto. lia.
Qed.

Lemma analyze_pool_sends (key : string) (selected_pools : list string)
    (k : string) (info : pool_info) (pool_name : string) (sb eb : Z)
    (w : world) :
  k ∈ selected_pools -> TORNADO_CASH_POOLS !! k = Some info ->
  exists log,
    sends w (snd (analyze_pool (new_api key) (address info) pool_name sb eb w))
      log /\
    Forall (expected_request key selected_pools) log.
Proof.
  intros Hk Hinfo. unfold analyze_pool, mbind, lift.
  unfold get_internal_transactions, get_normal_transactions.
  destruct (get_transactions_sends (new_api key) "txlistinternal"
              (lower (address info)) sb eb w) as (n1 & H1).
  destruct (get_transactions (new_api key) "txlistinternal" _ sb eb w)
    as [[internal_txs|e] w1]; cbn [snd] in H1.
  2:{ eexists. split; [exact H1|]. eapply page_requests_expected; eauto. }
  destruct (get_transactions_sends (new_api key) "txlist"
              (lower (address info)) sb eb w1) as (n2 & H2).
  destruct (get_transactions (new_api key) "txlist" _ sb eb w1)
    as [[normal_txs|e] w2]; cbn [snd] in *;
    (eexists; split; [eapply sends_app; eassumption|];
     apply Forall_app; split; eapply page_requests_expected; eauto).
Qed.

Lemma expected_request_mono (key : string) (l1 l2 : list string) (q : request) :
  (forall k, k ∈ l1 -> k ∈ l2) ->
  expected_request key l1 q -> expected_request key l2 q.
Proof.
  intros Hsub (Hk & Hc & Hp). repeat split; trivial.
  destruct (req_params q); [exact Hp|].
  destruct Hp as (Ha & (k & info & Hin & Hinfo & Haddr) & Hrest).
  split; [exact Ha|]. split; [|exact Hrest]. eauto 6.
Qed.

Lemma analyze_pools_sends (key : string) (sb eb : Z) (pools : list string) :
  forall (pool_results : gmap string (gmap string pool_stat)) (w : world),
  exists log,
    sends w (snd (analyze_pools (new_api key) pools sb eb pool_results w)) log /\
    Forall (expected_request key pools) log.
Proof.
  induction pools as [|p pools IH]; intros pr w; cbn [analyze_pools].
  - exists []. split; [apply sends_nil|constructor].
  - assert (Hmono : forall log, Forall (expected_request key pools) log ->
                                Forall (expected_request key (p :: pools)) log).
    { intros log Hlog. eapply Forall_impl; [exact Hlog|]. intros q.
      apply expected_request_mono. intros k Hk. now right. }
    destruct (TORNADO_CASH_POOLS !! p) as [info|] eqn:Hp.
    2:{ destruct (IH pr w) as (log & Hs & Hf). exists log. auto. }
    destruct (analyze_pool_sends key (p :: pools) p info (name info) sb eb w)
      as (log1 & Hs1 & Hf1); [left|exact Hp|].
    destruct (analyze_pool (new_api key) (address info) (name info) sb eb w)
      as [[results|e] w1]; cbn [snd] in Hs1.
    + destruct (IH (<[p := results]> pr) w1) as (log2 & Hs2 & Hf2).
      exists (log1 ++ log2). split; [eapply sends_app; eassumption|].
      apply Forall_app. auto.
    + destruct (IH (<[p := ∅]> pr) w1) as (log2 & Hs2 & Hf2).
      exists (log1 ++ log2). split; [eapply sends_app; eassumption|].
      apply Forall_app. auto.
Qed.

Lemma resolve_blocks_sends (key : string) (start_date end_date : option Z)
    (selected_pools : list string) (w : world) :
  exists log,
    sends w (snd (resolve_blocks (new_api key) start_date end_date w)) log /\
    Forall (expected_request key selected_pools) log.
Proof.
  assert (Hb : forall ts closest,
            closest = "after" \/ closest = "before" ->
            expected_request key selected_pools
              (request_of (new_api key) (GetBlockNoByTime ts closest))).
  { intros ts closest Hc. split; [reflexivity|]. split; [reflexivity|].
    exact Hc. }
  unfold resolve_blocks, mbind, ret.
  destruct start_date as [ts1|].
  - pose proof (get_block_by_timestamp_sends (new_api key) ts1 "after" w) as H1.
    destruct (get_block_by_timestamp (new_api key) ts1 "after" w)
      as [[b1|e] w1]; cbn [snd] in H1.
    2:{ eexists. split; [exact H1|]. repeat (constructor; [apply Hb; auto|]). constructor. }
    destruct end_date as [ts2|].
    + pose proof (get_block_by_timestamp_sends (new_api key) ts2 "before" w1)
        as H2.
      destruct (get_block_by_timestamp (new_api key) ts2 "before" w1)
        as [[b2|e] w2]; cbn [snd] in *;
        (eexists; split; [eapply sends_app; eassumption|];
         repeat (constructor; [apply Hb; auto|]); constructor).
    + eexists. split; [exact H1|]. repeat (constructor; [apply Hb; auto|]). constructor.
  - destruct end_date as [ts2|].
    + pose proof (get_block_by_timestamp_sends (new_api key) ts2 "before" w)
        as H2.
      destruct (get_block_by_timestamp (new_api key) ts2 "before" w)
        as [[b2|e] w2]; cbn [snd] in *;
        (eexists; split; [exact H2|]; repeat (constructor; [apply Hb; auto|]); constructor).
    + exists []. split; [apply sends_nil|constructor].
Qed.

End Requests.

(** X5. Whatever the run, [analyze_tornado_cash] only adds requests to
    the log, each consuming the next response in order, and every request
    it sends carries the API key and chain id 1 and is either a block
    lookup or a page (offset 10000, ascending) of a transaction list of
    the lower-cased address of a selected pool of [TORNADO_CASH_POOLS]:
    no other address is ever queried. *)
Theorem analyze_tornado_cash_requests (key : string)
    (start_date end_date : option Z) (selected_pools : option (list string))
    (w : world) :
  exists log,
    sends w (snd (analyze_tornado_cash key start_date end_date
                    selected_pools w)) log /\
    Forall (expected_request key (default ALL_POOLS selected_pools)) log.
Proof.
  unfold analyze_tornado_cash, mbind.
  destruct (resolve_blocks_sends key start_date end_date
              (default ALL_POOLS selected_pools) w) as (log1 & Hs1 & Hf1).
  destruct (resolve_blocks (new_api key) start_date end_date w)
    as [[blocks|e] w1]; cbn [snd] in Hs1; [|eauto].
  destruct (analyze_pools_sends key (fst blocks) (snd blocks)
              (default ALL_POOLS selected_pools) ∅ w1) as (log2 & Hs2 & Hf2).
  destruct (analyze_pools _ _ _ _ ∅ w1) as [pr w2]; cbn [snd] in *.
  exists (log1 ++ log2). split; [eapply sends_app; eassumption|].
  apply Forall_app. auto.
Qed.

Section PoolLoopExtras.

Variable api : EtherscanAPI.
Variables start_block end_block : Z.

Lemma pool_keys_known (k : string) :
  k ∈ ALL_POOLS -> is_Some (TORNADO_CASH_POOLS !! k).
Proof.
  intros [->|[->| ->]]%elem_of_ALL_POOLS; vm_compute; eauto.
Qed.

Lemma analyze_pools_keeps (pools : list string) :
  forall (pool_results : gmap string (gmap string pool_stat)) (w : world)
         (k : string),
    is_Some (pool_results !! k) ->
    is_Some (fst (analyze_pools api pools start_block end_block pool_results w)
               !! k).
Proof.
  induction pools as [|p pools IH]; intros pr w k Hk; cbn [analyze_pools];
    [exact Hk|].
  destruct (TORNADO_CASH_POOLS !! p) as [info|]; [|now apply IH].
  destruct (analyze_pool api (address info) (name info) start_block end_block w)
    as [[results|e] w1]; apply IH; rewrite lookup_insert; case_decide; eauto.
Qed.

Lemma analyze_pools_dom (pools : list string) :
  forall (pool_results : gmap string (gmap string pool_stat)) (w : world)
         (k : string),
    is_Some (fst (analyze_pools api pools start_block end_block pool_results w)
               !! k) <->
    is_Some (pool_results !! k) \/ (k ∈ pools /\ k ∈ ALL_POOLS).
Proof.
  intros pr w k. split; [apply analyze_pools_keys|].
  intros [Hk|[Hin Hall]]; [now apply analyze_pools_keeps|].
  revert pr w. induction pools as [|p pools IH]; intros pr w;
    [now apply elem_of_nil in Hin|].
  cbn [analyze_pools].
  apply elem_of_cons in Hin as [<-|Hin].
  - destruct (pool_keys_known k Hall) as [info ->].
    destruct (analyze_pool api (address info) (name info)
                start_block end_block w) as [[results|e] w1];
      apply analyze_pools_keeps; rewrite lookup_insert_eq; eauto.
  - destruct (TORNADO_CASH_POOLS !! p) as [info|]; [|now apply IH].
    destruct (analyze_pool api (address info) (name info)
                start_block end_block w) as [[results|e] w1]; now apply IH.
Qed.

Lemma analyze_pool_offline (pool_address pool_name : string) (w : world) :
  pending w = [] ->
  fst (analyze_pool api pool_address pool_name start_block end_block w)
    = Err ConnectionError /\
  pending (snd (analyze_pool api pool_address pool_name
                  start_block end_block w)) = [].
Proof.
  intros Hw. unfold analyze_pool, mbind, get_internal_transactions,
    get_transactions. rewrite Hw. cbn. auto.
Qed.

Lemma analyze_pools_offline (pools : list string) :
  forall (pool_results : gmap string (gmap string pool_stat)) (w : world),
    pending w = [] ->
    (forall k m, pool_results !! k = Some m -> m = ∅) ->
    forall k m,
      fst (analyze_pools api pools start_block end_block pool_results w) !! k
        = Some m -> m = ∅.
Proof.
  induction pools as [|p pools IH]; intros pr w Hw Hpr; cbn [analyze_pools];
    [exact Hpr|].
  destruct (TORNADO_CASH_POOLS !! p) as [info|]; [|now apply IH].
  destruct (analyze_pool_offline (address info) (name info) w Hw) as [He Hp].
  destruct (analyze_pool api (address info) (name info) start_block end_block w)
    as [[results|e] w1]; cbn [fst snd] in *; [discriminate|].
  apply IH; [exact Hp|].
  intros k m. rewrite lookup_insert. case_decide; [congruence|apply Hpr].
Qed.

End PoolLoopExtras.

Lemma merge_results_of_empty_pools (selected_pools : list string)
    (pool_results : gmap string (gmap string pool_stat)) :
  (forall k m, pool_results !! k = Some m -> m = ∅) ->
  merge_results selected_pools pool_results = Ok ∅.
Proof.
  intros Hpr. unfold merge_results.
  assert (Hnone : all_addresses selected_pools pool_results = ∅).
  { apply set_eq. intros a. rewrite elem_of_all_addresses. split.
    - intros (k & _ & [stat Hs]). unfold pool_get in Hs.
      destruct (pool_results !! k) as [m|] eqn:Hk; cbn in Hs.
      + rewrite (Hpr k m Hk), lookup_empty in Hs. discriminate.
      + rewrite lookup_empty in Hs. discriminate.
    - intros H. now apply elem_of_empty in H. }
  rewrite Hnone, elements_empty. reflexivity.
Qed.

(** X6. When no response can be had (the script of responses is empty),
    an analysis without date range ends with the empty mapping, not with
    an exception: the failure of every pool is swallowed.  With a start or
    an end date the same outage is the [ConnectionError] of the block
    lookup. *)
Theorem analyze_tornado_cash_offline (key : string)
    (start_date end_date : option Z) (selected_pools : option (list string))
    (w : world) :
  pending w = [] ->
  fst (analyze_tornado_cash key start_date end_date selected_pools w) =
  match start_date, end_date with
  | None, None => Ok ∅
  | _, _ => Err ConnectionError
  end.
Proof.
  intros Hw. unfold analyze_tornado_cash, resolve_blocks, mbind, ret.
  assert (Hblock : forall ts closest w0,
            pending w0 = [] ->
            fst (get_block_by_timestamp (new_api key) ts closest w0)
              = Err ConnectionError /\
            pending (snd (get_block_by_timestamp (new_api key) ts closest w0))
              = []).
  { intros ts closest w0 H0.
    unfold get_block_by_timestamp, mbind, _make_request. rewrite H0. auto. }
  destruct start_date as [ts1|].
  { destruct (Hblock ts1 "after" w Hw) as [He _].
    destruct (get_block_by_timestamp (new_api key) ts1 "after" w)
      as [[b|e] w1]; cbn [fst] in *; [discriminate|].
    injection He as ->. now destruct end_date. }
  destruct end_date as [ts2|].
  { destruct (Hblock ts2 "before" w Hw) as [He _].
    destruct (get_block_by_timestamp (new_api key) ts2 "before" w)
      as [[b|e] w1]; cbn [fst] in *; [discriminate|].
    now injection He as ->. }
  cbn [fst snd].
  pose proof (analyze_pools_offline (new_api key) 0 99999999
                (default ALL_POOLS selected_pools) ∅ w Hw) as Hoff.
  destruct (analyze_pools (new_api key) (default ALL_POOLS selected_pools)
              0 99999999 ∅ w) as [pr w1]. cbn [fst] in *.
  apply merge_results_of_empty_pools. apply Hoff.
  intros k m. rewrite lookup_empty. discriminate.
Qed.

Lemma analyze_tornado_cash_offline_witness :
  pending {| pending := []; sent := [] |} = [] /\
  fst (analyze_tornado_cash "KEY" None None (Some ["10_eth"])
         {| pending := []; sent := [] |}) = Ok ∅.
Proof.
  assert (H : pending {| pending := []; sent := [] |} = []) by reflexivity.
  split; [exact H|].
  exact (analyze_tornado_cash_offline "KEY" None None (Some ["10_eth"])
           {| pending := []; sent := [] |} H).
Defined.

(** X7. The per-pool results of a run have an entry for exactly the
    selected keys that are pools of [TORNADO_CASH_POOLS]: a pool whose
    analysis failed still has its (empty) entry, a key that is no pool has
    none. *)
Theorem pool_results_keys (key : string)
    (start_date end_date : option Z) (selected_pools : option (list string))
    (w : world) (pool_results : gmap string (gmap string pool_stat))
    (k : string) :
  pool_results_of_run key start_date end_date selected_pools w
    = Some pool_results ->
  is_Some (pool_results !! k) <->
  k ∈ default ALL_POOLS selected_pools /\ k ∈ ALL_POOLS.
Proof.
  unfold pool_results_of_run.
  destruct (resolve_blocks (new_api key) start_date end_date w)
    as [[blocks|e] w1]; [|discriminate].
  intros [= <-]. rewrite analyze_pools_dom, lookup_empty.
  split; [intros [[? [=]]|H]; exact H|auto].
Qed.

Lemma pool_results_keys_witness :
  pool_results_of_run "KEY" None None None Sample.failing_world
    = Some (default ∅ (pool_results_of_run "KEY" None None None
                         Sample.failing_world)) /\
  (is_Some (default ∅ (pool_results_of_run "KEY" None None None
                         Sample.failing_world) !! "1_eth") <->
   "1_eth" ∈ default ALL_POOLS None /\ "1_eth" ∈ ALL_POOLS).
Proof.
  assert (H : pool_results_of_run "KEY" None None None Sample.failing_world
              = Some (default ∅ (pool_results_of_run "KEY" None None None
                                   Sample.failing_world)))
    by (vm_compute; reflexivity).
  split; [exact H|].
  exact (pool_results_keys "KEY" None None None Sample.failing_world _
           "1_eth" H).
Defined.

Lemma merge_results_complete (selected_pools : list string)
    (pool_results : gmap string (gmap string pool_stat))
    (merged : gmap string merged_record) (a : string) :
  merge_results selected_pools pool_results = Ok merged ->
  (exists k, k ∈ selected_pools /\ is_Some (pool_get pool_results k !! a)) ->
  is_Some (merged !! a).
Proof.
  unfold merge_results. intros Hm Ha.
  destruct (merge_addresses_lookup _ _ _ _ _ a Hm)
    as [[_ (r & _ & Hr)]|[Hnot _]]; [eauto|].
  contradiction Hnot. apply elem_of_elements.
  now apply elem_of_all_addresses.
Qed.

(** X8. The recipients of the mapping [analyze_tornado_cash] returns are
    exactly the recipients of the per-pool results of the selected pools:
    none is added, none is left out. *)
Theorem merged_recipients_are_union (key : string)
    (start_date end_date : option Z) (selected_pools : option (list string))
    (w w' : world) (merged : gmap string merged_record) :
  analyze_tornado_cash key start_date end_date selected_pools w
    = (Ok merged, w') ->
  exists pool_results,
    pool_results_of_run key start_date end_date selected_pools w
      = Some pool_results /\
    forall a,
      is_Some (merged !! a) <->
      exists k, k ∈ default ALL_POOLS selected_pools /\
                is_Some (pool_get pool_results k !! a).
Proof.
  intros (pool_results & Hrun & Hm & _ & _)%analyze_tornado_cash_inv.
  exists pool_results. split; [exact Hrun|]. intros a. split.
  - intros [r Hr]. now destruct (merge_results_lookup _ _ _ _ _ Hm Hr).
  - now apply merge_results_complete.
Qed.

Lemma merged_recipients_are_union_witness :
  analyze_tornado_cash "KEY" None None None Sample.world_3
    = (Ok Sample.merged, snd Sample.run) /\
  exists pool_results,
    pool_results_of_run "KEY" None None None Sample.world_3
      = Some pool_results /\
    forall a,
      is_Some (Sample.merged !! a) <->
      exists k, k ∈ default ALL_POOLS None /\
                is_Some (pool_get pool_results k !! a).
Proof.
  assert (H : analyze_tornado_cash "KEY" None None None Sample.world_3
              = (Ok Sample.merged, snd Sample.run))
    by (vm_compute; reflexivity).
  split; [exact H|].
  exact (merged_recipients_are_union "KEY" None None None Sample.world_3
           (snd Sample.run) Sample.merged H).
Defined.

(** X9. In every record of the mapping [analyze_tornado_cash] returns,
    the count of each pool is the number of transactions that pool holds
    for the recipient (0 when it holds none). *)
Theorem merged_counts_are_numbers_of_transactions (key : string)
    (start_date end_date : option Z) (selected_pools : option (list string))
    (w w' : world) (merged : gmap string merged_record)
    (a : string) (r : merged_record) :
  analyze_tornado_cash key start_date end_date selected_pools w
    = (Ok merged, w') ->
  merged !! a = Some r ->
  exists pool_results,
    pool_results_of_run key start_date end_date selected_pools w
      = Some pool_results /\
    forall k f,
      (k, f) ∈ pool_fields_of r ->
      pf_count f =
        Z.of_nat (length (transactions (stat_of (pool_get pool_results k) a))).
Proof.
  intros Hrun Ha.
  destruct (merged_record_views _ _ _ _ _ _ _ _ _ Hrun Ha)
    as (pool_results & Hpr & Hviews & _).
  exists pool_results. split; [exact Hpr|].
  intros k f Hkf. destruct (Hviews k f Hkf) as [ts [_ V]].
  unfold stat_of. destruct (pool_get pool_results k !! a) as [stat|].
  - destruct V as (_ & [Hc _ _ _] & Hcount & _). cbn. congruence.
  - destruct V as [-> _]. reflexivity.
Qed.

Lemma merged_counts_are_numbers_of_transactions_witness :
  analyze_tornado_cash "KEY" None None None Sample.world_3
    = (Ok Sample.merged, snd Sample.run) /\
  Sample.merged !! "0xaaa" = Some Sample.record_a /\
  exists pool_results,
    pool_results_of_run "KEY" None None None Sample.world_3
      = Some pool_results /\
    forall k f,
      (k, f) ∈ pool_fields_of Sample.record_a ->
      pf_count f =
        Z.of_nat (length (transactions
                            (stat_of (pool_get pool_results k) "0xaaa"))).
Proof.
  assert (H : analyze_tornado_cash "KEY" None None None Sample.world_3
              = (Ok Sample.merged, snd Sample.run))
    by (vm_compute; reflexivity).
  assert (Ha : Sample.merged !! "0xaaa" = Some Sample.record_a)
    by (vm_compute; reflexivity).
  split; [exact H|]. split; [exact Ha|].
  exact (merged_counts_are_numbers_of_transactions "KEY" None None None
           Sample.world_3 (snd Sample.run) Sample.merged "0xaaa"
           Sample.record_a H Ha).
Defined.

Section PresenterExtras.

Lemma SFcompare_Lt_Gt (x y : spec_float) :
  SFcompare x y = Some Lt -> SFcompare y x = Some Gt.
Proof.
  destruct x as [sx|sx| |sx mx ex], y as [sy|sy| |sy my ey]; cbn;
    try discriminate;
    try (destruct sx; discriminate || reflexivity);
    try (destruct sy; discriminate || reflexivity);
    try (destruct sx, sy; discriminate || reflexivity).
  pose proof (Z.compare_antisym ex ey) as He.
  pose proof (Pos.compare_cont_antisym mx my Eq) as Hm. cbn [CompOpp] in Hm.
  destruct sx, sy; try discriminate; try reflexivity;
    rewrite He; destruct (ex ?= ey); cbn [CompOpp];
    try discriminate; try reflexivity;
    rewrite <- Hm; destruct (Pos.compare_cont Eq mx my); cbn [CompOpp];
    try discriminate; reflexivity.
Qed.

Lemma ltb_asym (x y : float) :
  Float.ltb x y = true -> Float.ltb y x = false.
Proof.
  unfold Float.ltb, SFltb.
  destruct (SFcompare x y) as [[]|] eqn:Hc; try discriminate.
  intros _. now rewrite (SFcompare_Lt_Gt _ _ Hc).
Qed.

Lemma insert_desc_perm (x : string * merged_record) (l : items) :
  insert_desc x l ≡ₚ x :: l.
Proof.
  induction l as [|y l IH]; cbn [insert_desc]; [reflexivity|].
  destruct (Float.ltb _ _); [reflexivity|].
  rewrite IH. apply perm_swap.
Qed.

Lemma insert_desc_sorted (x : string * merged_record) (l : items) :
  Sorted not_smaller l -> Sorted not_smaller (insert_desc x l).
Proof.
  induction 1 as [|y l Hl IH Hhd]; cbn [insert_desc].
  - repeat constructor.
  - destruct (Float.ltb (grand_total (snd y)) (grand_total (snd x))) eqn:Hyx.
    + constructor; [now constructor|]. constructor.
      now apply ltb_asym.
    + constructor; [exact IH|].
      destruct l as [|z l]; cbn [insert_desc]; [now constructor|].
      destruct (Float.ltb (grand_total (snd z)) (grand_total (snd x)));
        constructor; [exact Hyx|].
      now inversion Hhd.
Qed.

Lemma sorted_recipients_from (l : items) :
  forall acc : items,
    foldl (fun acc x => insert_desc x acc) acc l ≡ₚ acc ++ l /\
    (Sorted not_smaller acc ->
     Sorted not_smaller (foldl (fun acc x => insert_desc x acc) acc l)).
Proof.
  induction l as [|x l IH]; intros acc; cbn [foldl].
  - rewrite app_nil_r. auto.
  - destruct (IH (insert_desc x acc)) as [Hp Hs]. split.
    + rewrite Hp, insert_desc_perm. cbn. apply Permutation_middle.
    + intros Hacc. now apply Hs, insert_desc_sorted.
Qed.

End PresenterExtras.

(** X10. The sort of the presenters keeps every entry exactly once and
    leaves no entry directly above one with a greater grand total, for
    every list of entries. *)
Theorem sorted_recipients_sorted (results : items) :
  sorted_recipients results ≡ₚ results /\
  Sorted not_smaller (sorted_recipients results).
Proof.
  unfold sorted_recipients.
  destruct (sorted_recipients_from results []) as [Hp Hs].
  split; [exact Hp|]. apply Hs. constructor.
Qed.

(** X11. For every recipient mapping, produced by an analysis or not,
    the rows of the table report the recipients, counts and totals that
    the CSV export of the entries with a strictly positive grand total
    reports; with [show_zero] the table reports what the CSV export of
    the whole mapping reports. *)
Theorem table_reports_csv_of_shown (results : items)
    (selected_pools : option (list string)) :
  map totals_and_counts (format_output results false selected_pools) =
    map totals_and_counts (export_csv (filter shown results) selected_pools) /\
  map totals_and_counts (format_output results true selected_pools) =
    map totals_and_counts (export_csv results selected_pools).
Proof.
  unfold format_output, export_csv.
  destruct results as [|x results]; [split; reflexivity|].
  rewrite !map_map. split; apply map_ext; intros y;
    apply totals_and_counts_row.
Qed.

(** X12. Every row [export_csv] writes has as many fields as the header,
    whatever pools are selected. *)
Theorem csv_rows_match_header (results : items)
    (selected_pools : option (list string)) (row : list cell) :
  row ∈ export_csv results selected_pools ->
  length row = length (csv_header selected_pools).
Proof.
  unfold export_csv, csv_header.
  intros (x & -> & _)%list_elem_of_fmap.
  unfold csv_row, all_pool_cells, pool_cells, pool_header.
  cbn [length]. rewrite !length_app.
  repeat case_bool_decide; reflexivity.
Qed.

Lemma csv_rows_match_header_witness :
  csv_row ["10_eth"] ("0xaaa", Sample.record_a)
    ∈ export_csv [("0xaaa", Sample.record_a)] (Some ["10_eth"]) /\
  length (csv_row ["10_eth"] ("0xaaa", Sample.record_a))
    = length (csv_header (Some ["10_eth"])).
Proof.
  assert (H : csv_row ["10_eth"] ("0xaaa", Sample.record_a)
                ∈ export_csv [("0xaaa", Sample.record_a)] (Some ["10_eth"]))
    by (cbn; left).
  split; [exact H|].
  exact (csv_rows_match_header [("0xaaa", Sample.record_a)] (Some ["10_eth"])
           _ H).
Defined.

Section CommandLine.

Lemma pool_of_part_known (p k : string) :
  pool_of_part p = Some k -> k ∈ ALL_POOLS.
Proof.
  unfold pool_of_part, ALL_POOLS.
  repeat case_match; intros [= <-]; rewrite !elem_of_cons; auto.
Qed.

Lemma split_commas_nonempty (s : string) : split_commas s <> [].
Proof.
  destruct s as [|c r]; cbn; [discriminate|].
  destruct (Ascii.eqb c ","); [discriminate|].
  destruct (split_commas r); discriminate.
Qed.

Lemma comma_free_split (s : string) :
  (forall c, c ∈ list_ascii_of_string s -> c <> ","%char) ->
  split_commas s = [s].
Proof.
  induction s as [|c r IH]; intros Hs; [reflexivity|].
  cbn [split_commas].
  assert (Hc : Ascii.eqb c "," = false).
  { apply Ascii.eqb_neq. apply Hs. cbn. left. }
  rewrite Hc, IH; [reflexivity|].
  intros c' Hc'. apply Hs. cbn. now right.
Qed.

Lemma split_commas_cons (s : string) (rest : string) :
  (forall c, c ∈ list_ascii_of_string s -> c <> ","%char) ->
  split_commas (s ++ String "," rest) = s :: split_commas rest.
Proof.
  induction s as [|c r IH]; intros Hs.
  - reflexivity.
  - change (split_commas (String c (r +:+ String "," rest)) =
            String c r :: split_commas rest).
    cbn [split_commas].
    assert (Hc : Ascii.eqb c "," = false).
    { apply Ascii.eqb_neq. apply Hs. cbn. left. }
    rewrite Hc, IH; [reflexivity|].
    intros c' Hc'. apply Hs. cbn. now right.
Qed.

(** Splitting undoes joining, for pieces without comma. *)
Lemma split_join (l : list string) :
  l <> [] ->
  Forall (fun s => forall c, c ∈ list_ascii_of_string s -> c <> ","%char) l ->
  split_commas (join_commas l) = l.
Proof.
  unfold join_commas.
  induction l as [|s l IH]; intros Hne Hl; [contradiction|].
  apply Forall_cons in Hl as [Hs Hl].
  destruct l as [|s' l].
  - now apply comma_free_split.
  - change (split_commas (s +:+ String "," (String.concat "," (s' :: l))) =
            s :: s' :: l).
    rewrite split_commas_cons by exact Hs. f_equal.
    apply IH; [discriminate|exact Hl].
Qed.

Lemma remove_spaces_id (s : string) :
  (forall c, c ∈ list_ascii_of_string s -> c <> " "%char) ->
  remove_spaces s = s.
Proof.
  induction s as [|c r IH]; intros Hs; [reflexivity|].
  cbn [remove_spaces].
  assert (Hc : Ascii.eqb c " " = false).
  { apply Ascii.eqb_neq. apply Hs. cbn. left. }
  rewrite Hc, IH; [reflexivity|].
  intros c' Hc'. apply Hs. cbn. now right.
Qed.

End CommandLine.

(** X13. Whatever is given for [--pools], the selection [main] builds is
    not empty and holds keys of [TORNADO_CASH_POOLS] only, so that
    [TORNADO_CASH_POOLS[pool_key]] is defined for every selected key. *)
Theorem parse_pools_valid (pools : string) :
  parse_pools pools <> [] /\
  forall k, k ∈ parse_pools pools -> is_Some (TORNADO_CASH_POOLS !! k).
Proof.
  unfold parse_pools.
  destruct (omap pool_of_part (split_commas (remove_spaces pools)))
    as [|k0 ks] eqn:Hsel.
  - split; [discriminate|]. intros k Hk. apply pool_keys_known. exact Hk.
  - split; [discriminate|]. intros k Hk. apply pool_keys_known.
    rewrite <- Hsel in Hk. apply list_elem_of_omap in Hk as (p & _ & Hp).
    eapply pool_of_part_known. exact Hp.
Qed.

Section Joined.

Lemma pool_part_chars (p : string) :
  pool_part p ->
  forall c, c ∈ list_ascii_of_string p -> c <> ","%char /\ c <> " "%char.
Proof.
  unfold pool_part. rewrite !elem_of_cons, elem_of_nil.
  intros [->|[->|[->|[]]]] c; cbn; rewrite ?elem_of_cons, elem_of_nil;
    intuition (subst; discriminate).
Qed.

Lemma list_ascii_of_string_app (a b : string) :
  list_ascii_of_string (a +:+ b) =
  list_ascii_of_string a ++ list_ascii_of_string b.
Proof.
  induction a as [|c a IH]; [reflexivity|].
  change (String c a +:+ b) with (String c (a +:+ b)).
  cbn [list_ascii_of_string]. now rewrite IH.
Qed.

Lemma join_chars (parts : list string) (c : ascii) :
  Forall pool_part parts ->
  c ∈ list_ascii_of_string (join_commas parts) -> c <> " "%char.
Proof.
  unfold join_commas.
  induction parts as [|p parts IH]; intros Hp Hc.
  - cbn in Hc. now apply elem_of_nil in Hc.
  - apply Forall_cons in Hp as [Hp Hps].
    destruct parts as [|p' parts].
    + now apply (pool_part_chars p Hp).
    + change (String.concat "," (p :: p' :: parts))
        with (p +:+ String "," (String.concat "," (p' :: parts))) in Hc.
      rewrite list_ascii_of_string_app in Hc.
      cbn [list_ascii_of_string] in Hc.
      rewrite elem_of_app, elem_of_cons in Hc.
      destruct Hc as [Hc|[->|Hc]].
      * now apply (pool_part_chars p Hp).
      * discriminate.
      * now apply IH.
Qed.

Lemma omap_pool_parts (parts : list string) :
  Forall pool_part parts ->
  omap pool_of_part parts = map (fun p => p +:+ "_eth") parts.
Proof.
  induction 1 as [|p parts Hp _ IH]; [reflexivity|].
  cbn [omap list_omap map]. rewrite IH.
  unfold pool_part in Hp. rewrite !elem_of_cons, elem_of_nil in Hp.
  now destruct Hp as [->|[->|[->|[]]]].
Qed.

End Joined.

(** X14. Round trip of the command line: for a list of the parts 1, 10
    and 100 that is not empty, [--pools] with the parts joined by commas
    selects the pools of the parts, in the order and with the repetitions
    of the list. *)
Theorem parse_pools_join (parts : list string) :
  parts <> [] ->
  Forall (fun p => p ∈ ["1"; "10"; "100"]%string) parts ->
  parse_pools (join_commas parts) = map (fun p => p +:+ "_eth") parts.
Proof.
  intros Hne Hp. unfold parse_pools.
  rewrite remove_spaces_id by (intros c Hc; eapply join_chars; eauto).
  rewrite split_join; [| exact Hne |].
  - rewrite omap_pool_parts by exact Hp.
    destruct parts; [contradiction|reflexivity].
  - eapply Forall_impl; [exact Hp|].
    intros p Hpp c Hc. now apply (pool_part_chars p Hpp).
Qed.

Lemma parse_pools_join_witness :
  parse_pools "100,1,100" = ["100_eth"; "1_eth"; "100_eth"]%string.
Proof.
  apply (parse_pools_join ["100"; "1"; "100"]%string).
  - discriminate.
  - repeat constructor; rewrite !elem_of_cons; auto.
Defined.

Ltac solve_sublist :=
  unfold ALL_POOLS;
  repeat first [apply sublist_nil | apply sublist_skip | apply sublist_cons].

(** X15. Whatever is typed, the pools [select_pools] returns are a
    selection of [1_eth], [10_eth], [100_eth] in this order, without
    repetition and not empty, and one or four lines were read. *)
Theorem select_pools_valid (stdin rest pools : list string) :
  select_pools stdin = (Done pools, rest) ->
  pools <> [] /\ pools `sublist_of` ALL_POOLS /\
  (rest = drop 1 stdin \/ rest = drop 4 stdin).
Proof.
  unfold select_pools.
  destruct stdin as [|line stdin]; [discriminate|].
  cbv zeta.
  match goal with |- context [pool_map ?c] => generalize c end.
  intros choice.
  destruct (pool_map choice) as [l|] eqn:Hmap.
  - intros [= <- <-]. split; [|split; [|now left]].
    + revert Hmap. unfold pool_map.
      repeat case_match; intros [= <-]; discriminate.
    + revert Hmap. unfold pool_map.
      repeat case_match; intros [= <-]; solve_sublist.
  - destruct (String.eqb choice "8").
    + destruct stdin as [|a1 [|a10 [|a100 stdin]]]; try discriminate.
      destruct (says_yes a1), (says_yes a10), (says_yes a100);
        cbn; intros [= <- <-];
        (split; [discriminate|split; [solve_sublist|now right]]).
    + intros [= <- <-].
      split; [discriminate|split; [solve_sublist|now left]].
Qed.

Lemma select_pools_valid_witness :
  ["1_eth"; "100_eth"]%string <> [] /\
  ["1_eth"; "100_eth"]%string `sublist_of` ALL_POOLS /\
  (["rest"]%string = drop 1 [" 8"; "Y "; "no"; "y"; "rest"]%string \/
   ["rest"]%string = drop 4 [" 8"; "Y "; "no"; "y"; "rest"]%string).
Proof.
  apply (select_pools_valid [" 8"; "Y "; "no"; "y"; "rest"]%string).
  vm_compute. reflexivity.
Defined.

Section ApiKey.

Lemma String_eqb_empty (k : string) : String.eqb k "" = false <-> k <> ""%string.
Proof. now rewrite String.eqb_neq. Qed.

Lemma stored_key_Some (c : config) (k : string) :
  stored_key c = Some k <-> c !! "etherscan_api_key"%string = Some k /\ k <> ""%string.
Proof.
  unfold stored_key.
  destruct (c !! "etherscan_api_key"%string) as [k'|]; [|split; [discriminate|now intros []]].
  destruct (String.eqb k' "") eqn:E.
  - apply String.eqb_eq in E. subst. split; [discriminate|]. now intros [[= <-] ?].
  - apply String.eqb_neq in E. split.
    + now intros [= <-].
    + now intros [[= <-] _].
Qed.

Lemma answer_validate (api_key : string) (s : store) :
  validate_api_key api_key s =
  (answer s 0,
   {| config_file := config_file s; replies := drop 1 (replies s);
      asked := asked s ++ [api_key] |}).
Proof.
  unfold validate_api_key, answer. now destruct (replies s).
Qed.

Lemma answer_drop (s s1 : store) (i : nat) :
  replies s1 = drop 1 (replies s) -> answer s1 i = answer s (S i).
Proof.
  unfold answer. intros ->. now rewrite lookup_drop.
Qed.

Lemma entered_now (cfg : config) (s : store) (k : string) :
  (20 <= String.length k)%nat ->
  answer s 0 <> Some false ->
  entered cfg s
    (save_config (<["etherscan_api_key"%string := k]> cfg)
       {| config_file := config_file s; replies := drop 1 (replies s);
          asked := asked s ++ [k] |}) k.
Proof.
  intros Hlen Hn. split; [exact Hlen|]. split; [reflexivity|].
  exists []. cbn. auto.
Qed.

Lemma entered_later (cfg : config) (s s' : store) (k1 k : string) :
  entered cfg
    {| config_file := config_file s; replies := drop 1 (replies s);
       asked := asked s ++ [k1] |} s' k ->
  entered cfg s s' k.
Proof.
  intros (Hl & Hc & keys & Ha & Hr & Hn).
  split; [exact Hl|]. split; [exact Hc|].
  exists (k1 :: keys). cbn [length].
  split; [rewrite Ha; cbn [asked]; now rewrite <- app_assoc|].
  split; [rewrite Hr; cbn [replies]; now rewrite drop_drop|].
  intros Hf. apply Hn. now rewrite (answer_drop s).
Qed.

(** What the loop has done when it returns a key. *)
Lemma enter_api_key_inv (cfg : config) (stdin stdin' : list string)
  (s s' : store) (k : string) :
  enter_api_key cfg stdin s = (Done k, stdin', s') -> entered cfg s s' k.
Proof.
  remember (length stdin) as n eqn:Hn.
  assert (Hle : (length stdin <= n)%nat) by lia. clear Hn.
  revert stdin s Hle.
  induction n as [|n IH]; intros [|line stdin] s Hle; try discriminate;
    cbn [length] in Hle; [lia|].
  cbn [enter_api_key]. cbv zeta.
  destruct (String.eqb (strip line) ""); [apply IH; lia|].
  destruct (String.length (strip line) <? 20)%nat eqn:Hlen; [apply IH; lia|].
  apply Nat.ltb_ge in Hlen.
  rewrite answer_validate.
  destruct (answer s 0) as [[|]|] eqn:Hans.
  - intros [= <- <- <-]. apply entered_now; [exact Hlen|]. now rewrite Hans.
  - intros He. eapply entered_later, IH; [|exact He]. lia.
  - destruct stdin as [|save_anyway stdin]; [discriminate|].
    cbn [length] in Hle.
    destruct (says_yes save_anyway).
    + intros [= <- <- <-]. apply entered_now; [exact Hlen|]. now rewrite Hans.
    + intros He. eapply entered_later, IH; [|exact He]. lia.
Qed.

Lemma lookup_other_key (cfg : config) (k j : string) :
  j <> "etherscan_api_key"%string ->
  <["etherscan_api_key"%string := k]> cfg !! j = cfg !! j.
Proof. intros Hj. now apply lookup_insert_ne. Qed.

Lemma get_api_key_stored (stdin : list string) (s : store) (k : string) :
  stored_key (get_config s) = Some k ->
  get_api_key stdin s = (Done k, stdin, s).
Proof. unfold get_api_key. now intros ->. Qed.

Lemma entered_stored (cfg : config) (s s' : store) (k : string) :
  entered cfg s s' k -> stored_key (get_config s') = Some k.
Proof.
  intros (Hl & Hc & _). unfold get_config. rewrite Hc.
  apply stored_key_Some. split; [apply lookup_insert_eq|].
  intros ->. cbn in Hl. lia.
Qed.

End ApiKey.

(** X16. The key that [get_api_key] returns is not empty and is the one
    of the configuration file afterwards, whose other entries are those
    of before.  Either it was in the file and nothing was read, sent or
    written; or the file had none, and the key has at least 20
    characters, is the last one sent for validation and was not refused. *)
Theorem get_api_key_returns_stored_key (stdin stdin' : list string)
  (s s' : store) (k : string) :
  get_api_key stdin s = (Done k, stdin', s') ->
  k <> ""%string /\
  get_config s' !! "etherscan_api_key"%string = Some k /\
  (forall j, j <> "etherscan_api_key"%string ->
             get_config s' !! j = get_config s !! j) /\
  (stored_key (get_config s) = Some k /\ stdin' = stdin /\ s' = s \/
   stored_key (get_config s) = None /\
   entered (get_config s) s s' k).
Proof.
  unfold get_api_key.
  destruct (stored_key (get_config s)) as [k0|] eqn:Hst.
  - intros [= <- <- <-]. apply stored_key_Some in Hst as [Hk Hne].
    split; [exact Hne|]. split; [exact Hk|]. split; [reflexivity|].
    left. auto.
  - intros He. apply enter_api_key_inv in He.
    pose proof (entered_stored _ _ _ _ He) as Hs'.
    apply stored_key_Some in Hs' as [Hk Hne].
    split; [exact Hne|]. split; [exact Hk|]. split; [|right; auto].
    intros j Hj. destruct He as (_ & Hc & _).
    unfold get_config at 1. rewrite Hc. now apply lookup_other_key.
Qed.

Lemma get_api_key_returns_stored_key_witness :
  KeySample.long_key <> ""%string /\
  get_config KeySample.with_key !! "etherscan_api_key"%string =
    Some KeySample.long_key /\
  (forall j, j <> "etherscan_api_key"%string ->
             get_config KeySample.with_key !! j =
             get_config KeySample.no_file !! j) /\
  (stored_key (get_config KeySample.no_file) = Some KeySample.long_key /\
   ["1"%string] = KeySample.typed /\ KeySample.with_key = KeySample.no_file \/
   stored_key (get_config KeySample.no_file) = None /\
   entered (get_config KeySample.no_file) KeySample.no_file
     KeySample.with_key KeySample.long_key).
Proof.
  apply (get_api_key_returns_stored_key KeySample.typed).
  vm_compute. reflexivity.
Defined.

(** X17. Once [get_api_key] has returned a key, every later call returns
    the same key without reading a line, sending a request or writing the
    file. *)
Theorem get_api_key_again (stdin stdin' stdin2 : list string)
  (s s' : store) (k : string) :
  get_api_key stdin s = (Done k, stdin', s') ->
  get_api_key stdin2 s' = (Done k, stdin2, s').
Proof.
  intros He. apply get_api_key_stored. revert He. unfold get_api_key.
  destruct (stored_key (get_config s)) as [k0|] eqn:Hst.
  - now intros [= <- <- <-].
  - intros He. eapply entered_stored, enter_api_key_inv, He.
Qed.

Lemma get_api_key_again_witness :
  get_api_key [] KeySample.with_key =
  (Done KeySample.long_key, [], KeySample.with_key).
Proof.
  apply (get_api_key_again KeySample.typed ["1"%string] [] KeySample.no_file).
  vm_compute. reflexivity.
Defined.

(** X18. [get_api_key] passes over the lines that are blank or shorter
    than 20 characters once stripped without sending anything; the first
    longer line, when the explorer accepts it, is returned and written to
    the file. *)
Theorem get_api_key_skips_short_lines (skipped rest : list string)
  (line : string) (s : store) :
  stored_key (get_config s) = None ->
  Forall too_short skipped ->
  (20 <= String.length (strip line))%nat ->
  answer s 0 = Some true ->
  get_api_key (skipped ++ line :: rest) s =
  (Done (strip line), rest,
   {| config_file :=
        Some (<["etherscan_api_key"%string := strip line]> (get_config s));
      replies := drop 1 (replies s);
      asked := asked s ++ [strip line] |}).
Proof.
  intros Hst Hsk Hlen Hans. unfold get_api_key. rewrite Hst.
  induction Hsk as [|l skipped Hl _ IH]; cbn [app enter_api_key]; cbv zeta.
  - destruct (String.eqb (strip line) "") eqn:E.
    { apply String.eqb_eq in E. rewrite E in Hlen. cbn in Hlen. lia. }
    apply Nat.ltb_ge in Hlen. rewrite Hlen.
    rewrite answer_validate, Hans. reflexivity.
  - destruct (String.eqb (strip l) ""); [exact IH|].
    unfold too_short in Hl. apply Nat.ltb_lt in Hl. rewrite Hl. exact IH.
Qed.

Lemma get_api_key_skips_short_lines_witness :
  get_api_key
    (["  "; "0123456789"; ""]%string ++
     " 0123456789ABCDEFGHIJ "%string :: ["7"]%string)
    {| config_file := None; replies := [KeySample.acceptance]; asked := [] |} =
  (Done (strip " 0123456789ABCDEFGHIJ "), ["7"]%string,
   {| config_file :=
        Some (<["etherscan_api_key"%string := strip " 0123456789ABCDEFGHIJ "]>
                (get_config {| config_file := None;
                               replies := [KeySample.acceptance];
                               asked := [] |}));
      replies := drop 1 [KeySample.acceptance];
      asked := [] ++ [strip " 0123456789ABCDEFGHIJ "] |}).
Proof.
  apply (get_api_key_skips_short_lines ["  "; "0123456789"; ""]%string).
  - reflexivity.
  - unfold too_short. repeat constructor; vm_compute; lia.
  - vm_compute. lia.
  - reflexivity.
Defined.

(** X19. [reset_api_key] leaves the configuration file as it is, unless
    the line typed is not blank and the explorer did not refuse it: then
    the file is the old configuration with the stripped line as the key.
    A blank line sends no request. *)
Theorem reset_api_key_effect (stdin stdin' : list string) (s s' : store)
  (o : outcome unit) :
  reset_api_key stdin s = (o, stdin', s') ->
  (config_file s' = config_file s /\
   (forall line, head stdin = Some line -> strip line = ""%string -> s' = s)) \/
  (exists line,
     head stdin = Some line /\ strip line <> ""%string /\
     answer s 0 <> Some false /\
     s' = {| config_file :=
               Some (<["etherscan_api_key"%string := strip line]> (get_config s));
             replies := drop 1 (replies s);
             asked := asked s ++ [strip line] |}).
Proof.
  unfold reset_api_key.
  destruct stdin as [|line stdin].
  { intros [= <- <- <-]. left. split; [reflexivity|discriminate]. }
  cbv zeta. destruct (String.eqb (strip line) "") eqn:E.
  { intros [= <- <- <-]. left. auto. }
  apply String.eqb_neq in E.
  rewrite answer_validate.
  assert (Hsaved : forall (o0 : outcome unit) (l : list string),
    answer s 0 <> Some false ->
    (o0, l,
     save_config (<["etherscan_api_key"%string := strip line]> (get_config s))
       {| config_file := config_file s; replies := drop 1 (replies s);
          asked := asked s ++ [strip line] |}) = (o, stdin', s') ->
    (config_file s' = config_file s /\
     (forall line0, head (line :: stdin) = Some line0 ->
                    strip line0 = ""%string -> s' = s)) \/
    (exists line0,
       head (line :: stdin) = Some line0 /\ strip line0 <> ""%string /\
       answer s 0 <> Some false /\
       s' = {| config_file :=
                 Some (<["etherscan_api_key"%string := strip line0]> (get_config s));
               replies := drop 1 (replies s);
               asked := asked s ++ [strip line0] |})).
  { intros o0 l Hn [= <- <- <-]. right. exists line. auto. }
  assert (Hkept : forall (o0 : outcome unit) (l : list string),
    (o0, l,
     {| config_file := config_file s; replies := drop 1 (replies s);
        asked := asked s ++ [strip line] |}) = (o, stdin', s') ->
    (config_file s' = config_file s /\
     (forall line0, head (line :: stdin) = Some line0 ->
                    strip line0 = ""%string -> s' = s)) \/
    (exists line0,
       head (line :: stdin) = Some line0 /\ strip line0 <> ""%string /\
       answer s 0 <> Some false /\
       s' = {| config_file :=
                 Some (<["etherscan_api_key"%string := strip line0]> (get_config s));
               replies := drop 1 (replies s);
               asked := asked s ++ [strip line0] |})).
  { intros o0 l [= <- <- <-]. left. split; [reflexivity|].
    intros line0 [= <-] Hb. contradiction. }
  destruct (answer s 0) as [[|]|] eqn:Hans.
  - apply Hsaved. discriminate.
  - apply Hkept.
  - destruct stdin as [|save_anyway stdin]; [apply Hkept|].
    destruct (says_yes save_anyway); [apply Hsaved; discriminate|apply Hkept].
Qed.

Lemma reset_api_key_effect_witness :
  (config_file (snd (reset_api_key [" abc "]%string KeySample.short_reset)) =
     config_file KeySample.short_reset /\
   (forall line, head [" abc "]%string = Some line -> strip line = ""%string ->
      snd (reset_api_key [" abc "]%string KeySample.short_reset) =
      KeySample.short_reset)) \/
  (exists line,
     head [" abc "]%string = Some line /\ strip line <> ""%string /\
     answer KeySample.short_reset 0 <> Some false /\
     snd (reset_api_key [" abc "]%string KeySample.short_reset) =
       {| config_file :=
            Some (<["etherscan_api_key"%string := strip line]>
                    (get_config KeySample.short_reset));
          replies := drop 1 (replies KeySample.short_reset);
          asked := asked KeySample.short_reset ++ [strip line] |}).
Proof.
  apply (reset_api_key_effect [" abc "]%string [] KeySample.short_reset _ (Done tt)).
  reflexivity.
Defined.

(** X20. A key that [reset_api_key] has written because the explorer
    accepted it is the key that [get_api_key] returns next, without
    asking; this holds for a key of any length. *)
Theorem reset_then_get_api_key (line : string) (rest stdin2 : list string)
  (s : store) :
  strip line <> ""%string ->
  answer s 0 = Some true ->
  exists s',
    reset_api_key (line :: rest) s = (Done tt, rest, s') /\
    get_api_key stdin2 s' = (Done (strip line), stdin2, s').
Proof.
  intros Hne Hans. unfold reset_api_key. cbv zeta.
  apply String.eqb_neq in Hne. rewrite Hne.
  rewrite answer_validate, Hans.
  eexists. split; [reflexivity|].
  apply get_api_key_stored, stored_key_Some.
  split; [apply lookup_insert_eq|]. now apply String.eqb_neq.
Qed.

Lemma reset_then_get_api_key_witness :
  exists s',
    reset_api_key (" abc " :: [])%string KeySample.short_reset =
      (Done tt, [], s') /\
    get_api_key ["x"]%string s' = (Done (strip " abc "), ["x"]%string, s').
Proof.
  apply (reset_then_get_api_key " abc " [] ["x"]%string KeySample.short_reset).
  - vm_compute. discriminate.
  - reflexivity.
Defined.

Section Masking.

Lemma chars_substring (n m : nat) (s : string) :
  list_ascii_of_string (substring n m s) =
  take m (drop n (list_ascii_of_string s)).
Proof.
  revert n m. induction s as [|c s IH]; intros [|n] [|m]; cbn; try reflexivity.
  - now rewrite IH.
  - now rewrite IH.
  - now rewrite IH.
Qed.

Lemma length_chars (s : string) :
  length (list_ascii_of_string s) = String.length s.
Proof. induction s; cbn; congruence. Qed.

Lemma string_of_chars_eq (a b : string) :
  list_ascii_of_string a = list_ascii_of_string b -> a = b.
Proof.
  intros H. apply (f_equal string_of_list_ascii) in H.
  now rewrite !string_of_list_ascii_of_string in H.
Qed.

End Masking.

(** X21. Of a key of at most 12 characters the masked form that
    [reset_api_key] prints hides nothing: the text before the dots and
    the end of the text after them make up the whole key. *)
Theorem masked_key_shows_short_key (k : string) :
  (String.length k <= 12)%nat ->
  k = substring 0 8 k +:+ substring 8 4 k /\
  exists pre,
    masked_key k = substring 0 8 k +:+ "..." +:+ pre +:+ substring 8 4 k.
Proof.
  intros Hlen. rewrite <- length_chars in Hlen. split.
  - apply string_of_chars_eq.
    rewrite list_ascii_of_string_app, !chars_substring.
    rewrite drop_0, (take_ge (drop 8 _)) by (rewrite length_drop; lia).
    now rewrite take_drop.
  - exists (substring (String.length k - 4) (12 - String.length k) k).
    unfold masked_key. do 2 f_equal.
    apply string_of_chars_eq.
    rewrite list_ascii_of_string_app, !chars_substring.
    rewrite <- length_chars.
    set (l := list_ascii_of_string k) in *.
    rewrite (take_ge (drop 8 _)) by (rewrite length_drop; lia).
    rewrite (take_ge (drop (length l - 4) l)) by (rewrite length_drop; lia).
    rewrite <- (take_drop (12 - length l) (drop (length l - 4) l)) at 1.
    f_equal. rewrite drop_drop.
    destruct (decide (4 <= length l)%nat).
    + f_equal. lia.
    + rewrite !drop_ge by lia. reflexivity.
Qed.

Lemma masked_key_shows_short_key_witness :
  "0123456789"%string =
    substring 0 8 "0123456789" +:+ substring 8 4 "0123456789" /\
  exists pre,
    masked_key "0123456789" =
    substring 0 8 "0123456789" +:+ "..." +:+ pre +:+ substring 8 4 "0123456789".
Proof.
  apply (masked_key_shows_short_key "0123456789"). vm_compute. lia.
Defined.

Section Summary.

Lemma py_sum_from (l : list Z) (a : Z) : foldl Z.add a l = a + py_sum l.
Proof.
  unfold py_sum. revert a. induction l as [|x l IH]; intros a; cbn [foldl].
  - lia.
  - rewrite IH, (IH (0 + x)). lia.
Qed.

Lemma py_sum_cons (x : Z) (l : list Z) : py_sum (x :: l) = x + py_sum l.
Proof. unfold py_sum at 1. cbn [foldl]. now rewrite py_sum_from. Qed.

Lemma py_sum_perm (l l' : list Z) : l ≡ₚ l' -> py_sum l = py_sum l'.
Proof.
  induction 1 as [|x l l' _ IH|x y l|l1 l2 l3 _ IH1 _ IH2];
    rewrite ?py_sum_cons; lia.
Qed.

Lemma py_sum_ext {A : Type} (f g : A -> Z) (l : list A) :
  (forall x, x ∈ l -> f x = g x) -> py_sum (map f l) = py_sum (map g l).
Proof.
  induction l as [|x l IH]; intros H; [reflexivity|].
  cbn [map]. rewrite !py_sum_cons, IH, (H x).
  - reflexivity.
  - left.
  - intros y Hy. apply H. now right.
Qed.

(** Summed over a mapping that has every recipient of a pool, the counts
    of the pool add up to the counts of its recipients. *)
Lemma py_sum_counts {V : Type} (m : gmap string V) :
  forall p : gmap string pool_stat,
    (forall a, is_Some (p !! a) -> is_Some (m !! a)) ->
    py_sum (map (fun kv => from_option count 0 (p !! fst kv)) (map_to_list m)) =
    sum_counts p.
Proof.
  induction m as [|i x m Hi IH] using map_ind; intros p Hsub.
  - rewrite map_to_list_empty. cbn.
    assert (p = ∅) as ->.
    { apply map_empty. intros a. apply eq_None_not_Some. intros Ha.
      apply Hsub in Ha. rewrite lookup_empty in Ha. now destruct Ha. }
    reflexivity.
  - rewrite (py_sum_perm _ _ (fmap_Permutation _ _ _ (map_to_list_insert _ _ _ Hi))).
    cbn [fmap list_fmap fst]. rewrite py_sum_cons.
    destruct (p !! i) as [y|] eqn:Hp; cbn [from_option].
    + assert (Hs : sum_counts p = count y + sum_counts (delete i p)).
      { rewrite <- (insert_delete_id p i y Hp) at 1.
        rewrite sum_counts_insert. unfold stat_of.
        rewrite lookup_delete_eq. cbn. lia. }
      rewrite Hs, <- (IH (delete i p)).
      * change (list_fmap _ _ ?f ?l) with (map f l). f_equal.
        apply py_sum_ext.
        intros [a v] Ha. cbn [fst]. apply elem_of_map_to_list in Ha.
        rewrite lookup_delete_ne; [reflexivity|]. intros <-. congruence.
      * intros a [s Ha]. apply lookup_delete_Some in Ha as [Hne Ha].
        destruct (Hsub a (mk_is_Some _ _ Ha)) as [v Hv].
        rewrite lookup_insert_ne in Hv by exact Hne. eauto.
    + change (list_fmap _ _ ?f ?l) with (map f l).
      rewrite IH; [lia|].
      intros a [s Ha].
      destruct (Hsub a (mk_is_Some _ _ Ha)) as [v Hv].
      rewrite lookup_insert_ne in Hv by congruence. eauto.
Qed.

End Summary.

Section RunSummary.

Variable key : string.
Variables start_date end_date : option Z.
Variable selected_pools : option (list string).
Variables w w' : world.
Variable merged : gmap string merged_record.
Hypothesis Hrun :
  analyze_tornado_cash key start_date end_date selected_pools w
    = (Ok merged, w').

(** The table keeps and sorts the entries of a run: none is left out. *)
Lemma table_entries_of_run (results : items) :
  results ≡ₚ map_to_list merged ->
  sorted_recipients
    (filter (fun kv => Float.ltb Float.zero (grand_total (snd kv)) = true)
       results) ≡ₚ map_to_list merged.
Proof.
  intros Hitems. rewrite filter_all.
  - rewrite <- Hitems. unfold sorted_recipients.
    now destruct (sorted_recipients_from results []) as [Hp _].
  - apply Forall_forall. intros [a r] Hin. cbn [snd].
    rewrite Hitems in Hin. apply elem_of_map_to_list in Hin.
    apply FloatFacts.ltb_zero_positive.
    eapply merged_grand_total_positive; eassumption.
Qed.

Lemma total_count_of_run (pool_results : gmap string (gmap string pool_stat))
    (k : string) (fields : merged_record -> pool_fields) :
  pool_results_of_run key start_date end_date selected_pools w
    = Some pool_results ->
  (forall r, (k, fields r) ∈ pool_fields_of r) ->
  py_sum (map (fun x => pf_count (fields (snd x))) (map_to_list merged)) =
  sum_counts (pool_get pool_results k).
Proof.
  intros Hpr Hfields.
  destruct (analyze_tornado_cash_inv _ _ _ _ _ _ _ Hrun)
    as (pr & Hpr' & Hm & _ & Hkeys).
  rewrite Hpr in Hpr'. injection Hpr' as <-.
  rewrite <- (py_sum_counts merged).
  - apply py_sum_ext. intros [a r] Ha. cbn [fst snd].
    apply elem_of_map_to_list in Ha.
    destruct (merged_record_views _ _ _ _ _ _ _ _ _ Hrun Ha)
      as (pr & Hpr' & Hviews & _).
    rewrite Hpr in Hpr'. injection Hpr' as <-.
    destruct (Hviews k _ (Hfields r)) as [ts [_ V]].
    destruct (pool_get pool_results k !! a) as [stat|]; cbn [from_option].
    + now destruct V as (_ & _ & Hcount & _).
    + now destruct V as [-> _].
  - intros a Ha. eapply merge_results_complete; [exact Hm|].
    exists k. split; [|exact Ha].
    apply Hkeys. unfold pool_get in Ha.
    destruct (pool_results !! k); [eauto|].
    cbn in Ha. rewrite lookup_empty in Ha. now destruct Ha.
Qed.

End RunSummary.

(** X22. Of a mapping [analyze_tornado_cash] returns, the summary of the
    table counts every recipient of the mapping, and as the number of
    withdrawals of a displayed pool the counts of all recipients of that
    pool together (0 for a pool that was not analysed). *)
Theorem table_summary_counts_withdrawals (key : string)
    (start_date end_date : option Z) (selected_pools : option (list string))
    (w w' : world) (merged : gmap string merged_record)
    (results : items) (displayed_pools : option (list string))
    (sm : summary) :
  analyze_tornado_cash key start_date end_date selected_pools w
    = (Ok merged, w') ->
  results ≡ₚ map_to_list merged ->
  format_output_summary results false displayed_pools = Some sm ->
  exists pool_results,
    pool_results_of_run key start_date end_date selected_pools w
      = Some pool_results /\
    unique_recipients sm = size merged /\
    let shown_count k :=
      if bool_decide (k ∈ default ALL_POOLS displayed_pools)
      then sum_counts (pool_get pool_results k) else 0 in
    total_1eth_count sm = shown_count "1_eth"%string /\
    total_10eth_count sm = shown_count "10_eth"%string /\
    total_100eth_count sm = shown_count "100_eth"%string.
Proof.
  intros Hrun Hitems Hsm.
  destruct (analyze_tornado_cash_inv _ _ _ _ _ _ _ Hrun)
    as (pool_results & Hpr & _).
  exists pool_results. split; [exact Hpr|].
  pose proof (table_entries_of_run _ _ _ _ _ _ _ Hrun _ Hitems) as Hperm.
  unfold format_output_summary in Hsm.
  destruct results as [|x results]; [discriminate|].
  injection Hsm as <-. cbn [unique_recipients total_1eth_count
    total_10eth_count total_100eth_count].
  split.
  { rewrite Hperm. apply length_map_to_list. }
  cbv zeta. unfold total_count.
  repeat split; case_bool_decide; try reflexivity;
    rewrite (py_sum_perm _ _ (fmap_Permutation _ _ _ Hperm));
    apply (total_count_of_run _ _ _ _ _ _ _ Hrun _ _ _ Hpr);
    intros r; unfold pool_fields_of; rewrite !elem_of_cons; auto.
Qed.

Lemma table_summary_counts_withdrawals_witness :
  analyze_tornado_cash "KEY" None None None Sample.world_3
    = (Ok Sample.merged, snd Sample.run) /\
  format_output_summary (map_to_list Sample.merged) false (Some ["10_eth"])
    = Some {| unique_recipients := 2; total_1eth_count := 0;
              total_10eth_count := 4; total_100eth_count := 0 |} /\
  exists pool_results,
    pool_results_of_run "KEY" None None None Sample.world_3
      = Some pool_results /\
    2%nat = size Sample.merged /\
    let shown_count k :=
      if bool_decide (k ∈ default ALL_POOLS (Some ["10_eth"]))
      then sum_counts (pool_get pool_results k) else 0 in
    0 = shown_count "1_eth"%string /\
    4 = shown_count "10_eth"%string /\
    0 = shown_count "100_eth"%string.
Proof.
  assert (H : analyze_tornado_cash "KEY" None None None Sample.world_3
              = (Ok Sample.merged, snd Sample.run))
    by (vm_compute; reflexivity).
  assert (Hs : format_output_summary (map_to_list Sample.merged) false
                 (Some ["10_eth"])
               = Some {| unique_recipients := 2; total_1eth_count := 0;
                         total_10eth_count := 4; total_100eth_count := 0 |})
    by (vm_compute; reflexivity).
  split; [exact H|]. split; [exact Hs|].
  exact (table_summary_counts_withdrawals "KEY" None None None
           Sample.world_3 (snd Sample.run) Sample.merged
           (map_to_list Sample.merged) (Some ["10_eth"]) _ H
           (reflexivity _) Hs).
Defined.
